(** * LiteRT ImageNet sample: the adaptive inference pipeline of [main.py]

    A shallow embedding of the decision logic of
    [compiled_model_api/image_classification/python/imagenet-e2e-sample/main.py]:
    input-size inference, preprocessing selection, output dtype selection,
    output decoding, label reconciliation and top-k reporting.

    Python objects that cross the runtime boundary are dynamically typed, so
    buffer requirements are dictionaries from strings to Python values, and
    every operation that can raise in Python returns a [result]. Integers
    are unbounded ([Z]); the one float computation on the modelled paths,
    the division by 0.875, is carried out in IEEE binary64. [_softmax] and
    [_load_image] compute on float32 arrays through numpy and PIL and are
    not embedded. *)

From Stdlib Require Import ZArith QArith Lia List Ascii.
From Stdlib Require Import Floats.SpecFloat Floats.PrimFloat Floats.FloatOps.
From stdpp Require Import base option list gmap strings pretty sorting.

Local Open Scope Z_scope.

(** ** Python values, exceptions and the operations the program applies *)

(** The exceptions the modelled code can meet; all of them derive from
    Python's [Exception], so a bare [except Exception] catches each. *)
Inductive PyExc : Type :=
  | TypeError
  | ValueError (msg : string)
  | IndexError
  | KeyError
  | OverflowError
  | ZeroDivisionError
  | FileNotFoundError (path : string)
  | RuntimeError (msg : string).

Inductive result (A : Type) : Type :=
  | Ok (a : A)
  | Raise (e : PyExc).
Arguments Ok {A} a.
Arguments Raise {A} e.

#[global] Instance result_ret : MRet result := fun _ a => Ok a.
#[global] Instance result_bind : MBind result := fun _ _ f m =>
  match m with
  | Ok a => f a
  | Raise e => Raise e
  end.

(** A function body either returns or falls through to the next statement
    with the current value of its local variable. *)
Inductive flow (R S : Type) : Type :=
  | Return (r : R)
  | Continue (s : S).
Arguments Return {R S} r.
Arguments Continue {R S} s.

(** The values a requirements dictionary can hold; [VList] stands for lists
    and tuples alike. Floats are left out: no modelled path computes with
    a float taken from a dictionary. *)
#[warnings="-register-all"]
Inductive PyVal : Type :=
  | VNone
  | VBool (b : bool)
  | VInt (z : Z)
  | VStr (s : string)
  | VList (l : list PyVal).

(** Truth value testing ([if x], [not x], [x or y]). *)
Definition truthy (v : PyVal) : bool :=
  match v with
  | VNone => false
  | VBool b => b
  | VInt z => negb (z =? 0)
  | VStr s => negb (String.eqb s "")
  | VList l => match l with [] => false | _ :: _ => true end
  end.

(** [a or b]: the first operand when it is true, else the second. *)
Definition py_or (a b : PyVal) : PyVal := if truthy a then a else b.

(** [d.get(key)], with [None] for a missing key. *)
Definition dict_get (d : gmap string PyVal) (key : string) : PyVal :=
  default VNone (d !! key).

(** [d.get(key, dflt)]. *)
Definition dict_get_default (d : gmap string PyVal) (key : string) (dflt : PyVal)
  : PyVal :=
  default dflt (d !! key).

(** [for x in v]: lists yield their elements, strings their characters,
    anything else is not iterable. *)
Definition py_iter (v : PyVal) : result (list PyVal) :=
  match v with
  | VList l => Ok l
  | VStr s => Ok ((fun c => VStr (String c EmptyString)) <$> String.list_ascii_of_string s)
  | _ => Raise TypeError
  end.

(** [l[i]] on a sequence, with Python's negative indices. *)
Definition py_index {A} (l : list A) (i : Z) : result A :=
  let n := Z.of_nat (length l) in
  let j := if i <? 0 then i + n else i in
  if (0 <=? j) && (j <? n) then
    match l !! Z.to_nat j with
    | Some x => Ok x
    | None => Raise IndexError
    end
  else Raise IndexError.

(** [len(l)]. *)
Definition len {A} (l : list A) : Z := Z.of_nat (length l).

(** A list comprehension [[f(x) for x in l]] whose body can raise. *)
Fixpoint traverse {A B} (f : A -> result B) (l : list A) : result (list B) :=
  match l with
  | [] => Ok []
  | x :: rest => y ← f x; ys ← traverse f rest; Ok (y :: ys)
  end.

(** ** The runtime boundary *)

(** What the pipeline asks of a compiled model: the buffer requirements of a
    tensor slot, as a dictionary, or an exception. *)
Record CompiledModel : Type := {
  get_input_buffer_requirements : Z -> Z -> result (gmap string PyVal);
  get_output_buffer_requirements : Z -> Z -> result (gmap string PyVal);
}.

(** ** Shape inference: [_infer_input_size] *)

Definition default_size : Z * Z := (224, 224).

Section ShapeInferrer.

(** Python's [int(s)] on a string: [None] where it raises [ValueError].
    The grammar of integer literals is the interpreter's, not the
    program's, so it stays a parameter. *)
Variable str_to_int : string -> option Z.

(** [int(v)]. *)
Definition py_int (v : PyVal) : result Z :=
  match v with
  | VInt z => Ok z
  | VBool b => Ok (if b then 1 else 0)
  | VStr s =>
      match str_to_int s with
      | Some z => Ok z
      | None => Raise (ValueError "invalid literal for int()")
      end
  | VNone | VList _ => Raise TypeError
  end.

(** The [if len(dims) == 4:] block; on fall-through [dims] may have lost
    its batch axis. *)
Definition rank4_block (dims : list Z) : result (flow (Z * Z) (list Z)) :=
  if len dims =? 4 then
    d1 ← py_index dims 1;
    if d1 =? 3 then
      h ← py_index dims 2; w ← py_index dims 3; Ok (Return (h, w))
    else
      dl ← py_index dims (-1);
      if dl =? 3 then
        h ← py_index dims 1; w ← py_index dims 2; Ok (Return (h, w))
      else
        d0 ← py_index dims 0;
        if (d0 =? 1) || (d0 =? -1) then Ok (Continue (drop 1 dims))
        else Ok (Continue dims)
  else Ok (Continue dims).

(** The [if len(dims) == 3:] block followed by [return default_size]. *)
Definition rank3_block (dims : list Z) : result (Z * Z) :=
  if len dims =? 3 then
    d0 ← py_index dims 0;
    if d0 =? 3 then
      h ← py_index dims 1; w ← py_index dims 2; Ok (h, w)
    else
      dl ← py_index dims (-1);
      if dl =? 3 then
        h ← py_index dims 0; w ← py_index dims 1; Ok (h, w)
      else Ok default_size
  else Ok default_size.

(** The dimension list the or-chain of lookups selects. *)
Definition select_dims (requirements : gmap string PyVal) : PyVal :=
  py_or (py_or (dict_get requirements "dimensions")
               (dict_get requirements "shape"))
        (dict_get requirements "dims").

Definition _infer_input_size (model : CompiledModel) (signature_index : Z)
  : result (Z * Z) :=
  match get_input_buffer_requirements model 0 signature_index with
  | Raise _ => Ok default_size      (* except Exception: return default_size *)
  | Ok requirements =>
      let dims := select_dims requirements in
      if negb (truthy dims) then Ok default_size
      else
        (* try: dims = [int(dim) for dim in dims] *)
        match (elems ← py_iter dims; traverse py_int elems) with
        | Raise _ => Ok default_size  (* except Exception: return default_size *)
        | Ok dims =>
            r ← rank4_block dims;
            match r with
            | Return hw => Ok hw
            | Continue dims => rank3_block dims
            end
        end
  end.

End ShapeInferrer.

(** ** Output decoding: [_pick_output_dtype] and [_read_output] *)

(** The numpy element types the program knows. *)
Inductive NpDtype : Type := np_float32 | np_int8 | np_uint8 | np_int32.

#[global] Instance NpDtype_eq_dec : EqDecision NpDtype.
Proof. solve_decision. Defined.

(** [np.dtype(d).itemsize]. *)
Definition itemsize (d : NpDtype) : Z :=
  match d with
  | np_float32 => 4
  | np_int8 => 1
  | np_uint8 => 1
  | np_int32 => 4
  end.

Definition _LITERT_TYPE_TO_NP : gmap Z NpDtype :=
  {[ 1 := np_float32;   (* kLiteRtElementTypeFloat32 *)
     9 := np_int8;      (* kLiteRtElementTypeInt8 *)
     3 := np_uint8;     (* kLiteRtElementTypeUInt8 *)
     2 := np_int32 ]}.  (* kLiteRtElementTypeInt32 *)

(** The runtime's identifier of an element type, as the table's comments
    name it. *)
Definition litert_type_id (d : NpDtype) : Z :=
  match d with
  | np_float32 => 1
  | np_int8 => 9
  | np_uint8 => 3
  | np_int32 => 2
  end.

(** [n == v] for an integer [n]; booleans compare as 0 and 1. *)
Definition py_eq_int (n : Z) (v : PyVal) : bool :=
  match v with
  | VInt z => z =? n
  | VBool b => (if b then 1 else 0) =? n
  | _ => false
  end.

(** [n in v] for an integer [n]. A string refuses a non-string left operand,
    and the other values are not containers. *)
Definition py_in (n : Z) (v : PyVal) : result bool :=
  match v with
  | VList l => Ok (existsb (py_eq_int n) l)
  | _ => Raise TypeError
  end.

(** [v[0]]. *)
Definition py_first (v : PyVal) : result PyVal :=
  match v with
  | VList l => py_index l 0
  | VStr s => c ← py_index (String.list_ascii_of_string s) 0; Ok (VStr (String c EmptyString))
  | _ => Raise TypeError
  end.

(** [table[key]] for an integer key. *)
Definition table_index (table : gmap Z NpDtype) (key : Z) : result NpDtype :=
  match table !! key with
  | Some d => Ok d
  | None => Raise KeyError
  end.

(** [table.get(key, dflt)] for a key that is any Python value: integers
    and booleans hash and compare as numbers, [None] and strings are never
    keys of the table. A [VList] key is read as a list, which is
    unhashable; a tuple key, which hashes, is not told apart from it, and
    the properties of the selection are stated for keys that are
    scalars. *)
Definition table_get (table : gmap Z NpDtype) (key : PyVal) (dflt : NpDtype)
  : result NpDtype :=
  match key with
  | VInt z => Ok (default dflt (table !! z))
  | VBool b => Ok (default dflt (table !! (if b then 1 else 0)))
  | VNone | VStr _ => Ok dflt
  | VList _ => Raise TypeError
  end.

(** The loop [for type_id in prefs: if type_id in supported: return ...]. *)
Fixpoint scan_preferred (supported : PyVal) (prefs : list Z)
  : result (flow NpDtype unit) :=
  match prefs with
  | [] => Ok (Continue ())
  | type_id :: rest =>
      present ← py_in type_id supported;
      if (present : bool) then d ← table_index _LITERT_TYPE_TO_NP type_id; Ok (Return d)
      else scan_preferred supported rest
  end.

Definition _pick_output_dtype (requirements : gmap string PyVal) : result NpDtype :=
  let supported := dict_get_default requirements "supported_types" (VList []) in
  r ← scan_preferred supported [1; 9; 3; 2];
  match r with
  | Return d => Ok d
  | Continue _ =>
      if truthy supported then
        first ← py_first supported;
        table_get _LITERT_TYPE_TO_NP first np_float32
      else Ok np_float32
  end.

(** The selection as the specification words it, as a type identifier:
    the first identifier of the preference order that is listed, else the
    first listed identifier, else float32's. *)
Definition spec_selected_type_id (types : list Z) : Z :=
  match List.find (fun p => bool_decide (p ∈ types)) [1; 9; 3; 2] with
  | Some p => p
  | None =>
      match types with
      | first :: _ => first
      | [] => 1
      end
  end.

(** [a // b] for an integer divisor: floor division, defined on integers
    and booleans, [ZeroDivisionError] aside (the caller tests the divisor). *)
Definition py_floordiv (a : PyVal) (b : Z) : result PyVal :=
  match a with
  | VInt z => Ok (VInt (z / b))
  | VBool t => Ok (VInt ((if t then 1 else 0) / b))
  | _ => Raise TypeError
  end.

(** An output buffer of the runtime: [read(num_elements, dtype)] yields the
    array, a list of elements here. *)
Record TensorBuffer (elem : Type) : Type := {
  read : PyVal -> NpDtype -> result (list elem);
}.
Arguments read {elem} _ _ _.

(** [_read_output] up to its last statement: the element count and dtype it
    is about to read, or the error it raises. *)
Definition read_output_request (requirements : gmap string PyVal)
  : result (PyVal * NpDtype) :=
  output_dtype ← _pick_output_dtype requirements;
  let buffer_size := dict_get_default requirements "buffer_size" (VInt 0) in
  let itemsize := itemsize output_dtype in
  num_elements ←
    (if negb (itemsize =? 0) then py_floordiv buffer_size itemsize
     else Ok buffer_size);
  if py_eq_int 0 num_elements then Raise (ValueError "Output buffer size is zero")
  else Ok (num_elements, output_dtype).

Definition _read_output {elem} (buffer : TensorBuffer elem)
    (requirements : gmap string PyVal) : result (list elem) :=
  '(num_elements, output_dtype) ← read_output_request requirements;
  read buffer num_elements output_dtype.

(** ** Label resolution: [_load_synsets], [_load_metadata],
       [_build_imagenet_labels] *)

(** Strings are sequences of characters with code points below 256.

    [c.isspace()], the characters [str.strip()] removes: tab to carriage
    return, the four separators, the space, next-line and the no-break
    space. *)
Definition py_isspace (c : ascii) : bool :=
  let n := nat_of_ascii c in
  ((9 <=? n) && (n <=? 13) || (28 <=? n) && (n <=? 32)
   || (n =? 133) || (n =? 160))%nat.

Fixpoint lstrip (s : string) : string :=
  match s with
  | EmptyString => EmptyString
  | String c rest => if py_isspace c then lstrip rest else s
  end.

(** [s.strip()]. *)
Definition strip (s : string) : string :=
  String.rev (lstrip (String.rev (lstrip s))).

(** The split of [s] at the first occurrence of the character [sep], if
    there is one. *)
Fixpoint split_at_first (sep : ascii) (s : string) : option (string * string) :=
  match s with
  | EmptyString => None
  | String c rest =>
      if Ascii.eqb c sep then Some (EmptyString, rest)
      else
        match split_at_first sep rest with
        | Some (before, after) => Some (String c before, after)
        | None => None
        end
  end.

(** [s.partition(sep)] for a one-character separator. *)
Definition str_partition (s : string) (sep : ascii) : string * string * string :=
  match split_at_first sep s with
  | Some (before, after) => (before, String sep EmptyString, after)
  | None => (s, EmptyString, EmptyString)
  end.

Definition tab : ascii := ascii_of_nat 9.

(** The files the program can open: a path names the lines that iterating
    over the opened text file yields, or nothing. *)
Definition FileSystem : Type := gmap string (list string).

(** [open(path, "r", encoding="utf-8")], read to the end. *)
Definition open_lines (fs : FileSystem) (path : string) : result (list string) :=
  match fs !! path with
  | Some lines => Ok lines
  | None => Raise (FileNotFoundError path)
  end.

(** [not s] for a string. *)
Definition str_empty (s : string) : bool := String.eqb s "".

Definition _load_synsets (fs : FileSystem) (synsets_path : string)
  : result (option (list string)) :=
  if str_empty synsets_path then Ok None
  else
    lines ← open_lines fs synsets_path;
    Ok (Some (List.map strip
                (List.filter (fun line => negb (str_empty (strip line))) lines))).

(** One turn of the loop of [_load_metadata]. *)
Definition metadata_step (mapping : gmap string string) (line : string)
  : gmap string string :=
  let line := strip line in
  if str_empty line then mapping
  else
    let '(synset, _, label) := str_partition line tab in
    if negb (str_empty synset) && negb (str_empty label)
    then <[synset := label]> mapping
    else mapping.

Definition _load_metadata (fs : FileSystem) (metadata_path : string)
  : result (gmap string string) :=
  if str_empty metadata_path then Ok ∅
  else
    lines ← open_lines fs metadata_path;
    Ok (fold_left metadata_step lines ∅).

(** The body of the last loop of [_build_imagenet_labels]. *)
Definition label_entry (metadata : gmap string string) (synset : string) : string :=
  let label := default synset (metadata !! synset) in
  if bool_decide (label ≠ synset) then synset +:+ " " +:+ label else synset.

Definition _build_imagenet_labels (fs : FileSystem)
    (synsets_path metadata_path : string) (output_size : Z)
  : result (option (list string)) :=
  synsets ← _load_synsets fs synsets_path;
  match synsets with
  | None | Some [] => Ok None
  | Some synsets =>
      let synsets :=
        if output_size =? len synsets + 1 then "background" :: synsets
        else synsets in
      if negb (output_size =? len synsets) then Ok None
      else
        metadata ← _load_metadata fs metadata_path;
        Ok (Some (List.map (label_entry metadata) synsets))
  end.

(** ** Top-k reporting: [_print_topk] *)

(** What the program asks of numpy on a flat score vector, with the part of
    numpy's contract that the report relies on to stay in range: [argsort]
    yields the indices of the vector, each once, in some order (ascending
    score, with ties and NaN placed as numpy pleases); [argmax] yields an
    index of a non-empty vector. *)
Class Numpy (score : Type) : Type := {
  argsort : list score -> list nat;
  argmax : list score -> result nat;
  argsort_indices : forall xs, Permutation (argsort xs) (seq 0 (length xs));
  argmax_index :
    forall xs, xs <> [] -> exists i, argmax xs = Ok i /\ (i < length xs)%nat;
}.

(** [l[start:]]. *)
Definition py_slice_from {A} (l : list A) (start : Z) : list A :=
  let n := len l in
  let start := if start <? 0 then Z.max (start + n) 0 else Z.min start n in
  drop (Z.to_nat start) l.

(** One printed line: [f"{rank}: {label} ({flat[idx]:.6f})"], with the score
    kept as a value. *)
Record TopkLine (score : Type) : Type := {
  line_rank : nat;
  line_label : string;
  line_score : score;
}.
Arguments line_rank {score} _.
Arguments line_label {score} _.
Arguments line_score {score} _.

(** [labels[idx] if labels and idx < len(labels) else f"class_{idx}"]. *)
Definition label_of_index (labels : option (list string)) (idx : nat)
  : result string :=
  match labels with
  | Some ((_ :: _) as labels) =>
      if Z.of_nat idx <? len labels then py_index labels (Z.of_nat idx)
      else Ok ("class_" +:+ pretty idx)
  | Some [] | None => Ok ("class_" +:+ pretty idx)
  end.

(** The label of an index read off the table by a lookup that cannot fail:
    the entry at the index when the table has one, the synthetic name
    otherwise. *)
Definition label_or_synthetic (labels : option (list string)) (idx : nat) : string :=
  match labels with
  | Some table =>
      match table !! idx with
      | Some label => label
      | None => "class_" +:+ pretty idx
      end
  | None => "class_" +:+ pretty idx
  end.

(** What one printed line says about the index it reports. *)
Definition reports {score : Type} (scores : list score)
    (labels : option (list string)) (idx : nat) (line : TopkLine score) : Prop :=
  (idx < length scores)%nat
  /\ scores !! idx = Some (line_score line)
  /\ line_label line = label_or_synthetic labels idx.

Section TopK.
Context {score : Type} `{Numpy score}.

(** The indices the report walks through. *)
Definition topk_indices (flat : list score) (top_k : Z) : result (list nat) :=
  let top_k := Z.min top_k (len flat) in
  if top_k =? 1 then i ← argmax flat; Ok [i]
  else Ok (rev (py_slice_from (argsort flat) (- top_k))).

(** The body of the printing loop. *)
Definition topk_line (flat : list score) (labels : option (list string))
    (entry : nat * nat) : result (TopkLine score) :=
  let '(rank, idx) := entry in
  label ← label_of_index labels idx;
  s ← py_index flat (Z.of_nat idx);
  Ok {| line_rank := rank; line_label := label; line_score := s |}.

(** The lines [_print_topk] prints, in order. *)
Definition _print_topk (scores : list score) (labels : option (list string))
    (top_k : Z) : result (list (TopkLine score)) :=
  let flat := scores in
  indices ← topk_indices flat top_k;
  traverse (topk_line flat labels) (zip (seq 1 (length indices)) indices).

End TopK.

(** ** Python floats on the path of [_pick_preprocess_config]

    A Python float is an IEEE 754 binary64 number: [spec_float] with a
    53-bit significand and exponents below 1024, rounded to nearest, ties to
    even. *)

Definition binary64 : Type := spec_float.

(** The literal [0.875], that is 7 * 2^50 * 2^-53. *)
Definition float_0_875 : binary64 := S754_finite false 7881299347898368 (-53).

(** [float(z)], as the division of an integer by a float converts its left
    operand. *)
Definition py_float_of_int (z : Z) : result binary64 :=
  match binary_normalize 53 1024 z 0 false with
  | S754_infinity _ => Raise OverflowError
  | x => Ok x
  end.

(** [a / b] for an integer [a] and a float [b]. *)
Definition py_truediv (a : Z) (b : binary64) : result binary64 :=
  x ← py_float_of_int a;
  match b with
  | S754_zero _ => Raise ZeroDivisionError
  | _ => Ok (SFdiv 53 1024 x b)
  end.

(** [m / 2^k] rounded to the nearest integer, ties to even, for [m >= 0]. *)
Definition shift_round_half_even (m k : Z) : Z :=
  let q := m / 2 ^ k in
  let r := m mod 2 ^ k in
  match 2 * r ?= 2 ^ k with
  | Lt => q
  | Gt => q + 1
  | Eq => if Z.even q then q else q + 1
  end.

(** [round(x)] on a float: the nearest integer, ties to even. *)
Definition py_round (x : binary64) : result Z :=
  match x with
  | S754_zero _ => Ok 0
  | S754_finite s m e =>
      let a := if 0 <=? e then Z.pos m * 2 ^ e
               else shift_round_half_even (Z.pos m) (- e) in
      Ok (if s then - a else a)
  | S754_infinity _ => Raise OverflowError
  | S754_nan => Raise (ValueError "cannot convert float NaN to integer")
  end.

(** ** Preprocessing selection: [_pick_preprocess_config] *)

(** [os.path.basename] on POSIX paths: what follows the last slash.
    [tail] is the part of the path after the last slash met so far. *)
Fixpoint basename_go (tail s : string) : string :=
  match s with
  | EmptyString => tail
  | String c rest =>
      if Ascii.eqb c "/" then basename_go rest rest else basename_go tail rest
  end.

Definition basename (p : string) : string := basename_go p p.

(** Whether a string holds a slash, and whether it can stand in front of a
    base name: it is empty or ends in a slash. *)
Fixpoint has_slash (s : string) : bool :=
  match s with
  | EmptyString => false
  | String c rest => Ascii.eqb c "/" || has_slash rest
  end.

Definition ends_dir (dir : string) : Prop :=
  dir = "" \/ exists d, dir = d +:+ "/".

(** The lower-case form of a character: the letters A to Z, and the
    accented capitals of Latin-1 (the multiplication sign, 215, is not
    one). *)
Definition lower_char (c : ascii) : ascii :=
  let n := nat_of_ascii c in
  if ((65 <=? n) && (n <=? 90)
      || (192 <=? n) && (n <=? 222) && negb (n =? 215))%nat
  then ascii_of_nat (n + 32)
  else c.

(** [s.lower()]. *)
Fixpoint lower (s : string) : string :=
  match s with
  | EmptyString => EmptyString
  | String c rest => String (lower_char c) (lower rest)
  end.

(** [pat in s] for strings. *)
Fixpoint str_contains (pat s : string) : bool :=
  if String.prefix pat s then true
  else
    match s with
    | EmptyString => false
    | String _ rest => str_contains pat rest
    end.

(** PIL's resampling filters. *)
Inductive Resample : Type := BILINEAR | BICUBIC.

(** The dictionary [_pick_preprocess_config] returns, one field per key.
    [mean] and [std] hold the decimal literals of the source. *)
Record PreprocessConfig : Type := {
  resize_size : Z;
  crop_height : Z;
  crop_width : Z;
  mean : list Q;
  std : list Q;
  resample : Resample;
}.

Definition _pick_preprocess_config (model_path : string)
    (input_height input_width : Z) : result PreprocessConfig :=
  let model_name := lower (basename model_path) in
  if str_contains "efficientnet_v2_s" model_name then
    Ok {| resize_size := 384; crop_height := 384; crop_width := 384;
          mean := [0.485; 0.456; 0.406]%Q; std := [0.229; 0.224; 0.225]%Q;
          resample := BILINEAR |}
  else if str_contains "efficientnet_v2_m" model_name then
    Ok {| resize_size := 480; crop_height := 480; crop_width := 480;
          mean := [0.485; 0.456; 0.406]%Q; std := [0.229; 0.224; 0.225]%Q;
          resample := BILINEAR |}
  else if str_contains "efficientnet_v2_l" model_name then
    Ok {| resize_size := 480; crop_height := 480; crop_width := 480;
          mean := [0.5; 0.5; 0.5]%Q; std := [0.5; 0.5; 0.5]%Q;
          resample := BICUBIC |}
  else if str_contains "efficientnet_b" model_name then
    Ok {| resize_size := 600; crop_height := 600; crop_width := 600;
          mean := [0.485; 0.456; 0.406]%Q; std := [0.229; 0.224; 0.225]%Q;
          resample := BICUBIC |}
  else
    let crop_height := if 0 <? input_height then input_height else 224 in
    let crop_width := if 0 <? input_width then input_width else 224 in
    quotient ← py_truediv (Z.max crop_height crop_width) float_0_875;
    resize_size ← py_round quotient;
    Ok {| resize_size := resize_size;
          crop_height := crop_height; crop_width := crop_width;
          mean := [0.485; 0.456; 0.406]%Q; std := [0.229; 0.224; 0.225]%Q;
          resample := BILINEAR |}.

(** ** Instances of the parameters, to run the model on concrete inputs *)

(** [int(s)] on the strings made of an optional minus sign and decimal
    digits; every other string is refused. *)
Fixpoint digits_value (acc : Z) (s : string) : option Z :=
  match s with
  | EmptyString => Some acc
  | String c rest =>
      match Ascii.is_nat c with
      | Some d => digits_value (10 * acc + Z.of_nat d) rest
      | None => None
      end
  end.

Definition plain_decimal (s : string) : option Z :=
  match s with
  | EmptyString => None
  | String c rest =>
      if Ascii.eqb c "-" then
        if str_empty rest then None else Z.opp <$> digits_value 0 rest
      else digits_value 0 s
  end.

(** Integer scores, sorted by a stable merge sort on (score, index) pairs;
    [argmax] takes the first maximum. *)
Module ZScores.

Definition by_score (a b : Z * nat) : Prop := a.1 <= b.1.

#[global] Instance by_score_dec : RelDecision by_score.
Proof. intros a b. unfold by_score. apply _. Defined.

Definition argsort_Z (xs : list Z) : list nat :=
  (merge_sort by_score (zip xs (seq 0 (length xs)))).*2.

Fixpoint argmax_from (best_i : nat) (best : Z) (i : nat) (xs : list Z) : nat :=
  match xs with
  | [] => best_i
  | x :: rest =>
      if best <? x then argmax_from i x (S i) rest
      else argmax_from best_i best (S i) rest
  end.

Definition argmax_Z (xs : list Z) : result nat :=
  match xs with
  | [] => Raise (ValueError "attempt to get argmax of an empty sequence")
  | x :: rest => Ok (argmax_from 0 x 1 rest)
  end.

Lemma argsort_Z_indices (xs : list Z) :
  Permutation (argsort_Z xs) (seq 0 (length xs)).
Proof.
  unfold argsort_Z.
  rewrite merge_sort_Permutation.
  rewrite snd_zip; [reflexivity | rewrite length_seq; lia].
Qed.

Lemma argmax_from_bound (xs : list Z) :
  forall best_i best i,
    (best_i < i)%nat -> (argmax_from best_i best i xs < i + length xs)%nat.
Proof.
  induction xs as [|x rest IH]; intros best_i best i Hlt; simpl.
  - lia.
  - destruct (best <? x).
    + specialize (IH i x (S i)). lia.
    + specialize (IH best_i best (S i)). lia.
Qed.

Lemma argmax_Z_index (xs : list Z) :
  xs <> [] -> exists i, argmax_Z xs = Ok i /\ (i < length xs)%nat.
Proof.
  destruct xs as [|x rest]; [congruence | intros _].
  exists (argmax_from 0 x 1 rest). split; [reflexivity |].
  pose proof (argmax_from_bound rest 0%nat x 1%nat). simpl. lia.
Qed.

#[global] Instance numpy_Z : Numpy Z := {|
  argsort := argsort_Z;
  argmax := argmax_Z;
  argsort_indices := argsort_Z_indices;
  argmax_index := argmax_Z_index;
|}.

End ZScores.

(** A fake runtime that reports the same controlled metadata, or the same
    failure, for every slot. *)
Definition fake_model (reported : result (gmap string PyVal)) : CompiledModel :=
  {| get_input_buffer_requirements := fun _ _ => reported;
     get_output_buffer_requirements := fun _ _ => reported |}.

(** A buffer that yields the requested number of zeros. *)
Definition zero_buffer : TensorBuffer Z :=
  {| read := fun n _ =>
       match n with
       | VInt n => Ok (repeat 0 (Z.to_nat n))
       | _ => Raise TypeError
       end |}.

(** A class file of 1000 identifiers, one per line, and a metadata file that
    names one of them. *)
Definition class_file_1000 : list string :=
  (fun i => "n" +:+ pretty (1000 + i)%nat +:+ String (ascii_of_nat 10) "")
    <$> seq 0 1000.


Definition sample_files : FileSystem :=
  {[ "synsets.txt" := class_file_1000;
     "metadata.txt" := ["n1062" +:+ String tab "sea snake"; ""; "n1063"];
     "one.txt" := ["n01751748"];
     "one_metadata.txt" := ["n01751748" +:+ String tab "sea snake"] ]}.

(** ** Image geometry: [_load_image] *)

(** The literal [2.0]. *)
Definition float_2_0 : binary64 := S754_finite false 4503599627370496 (-51).

(** An integer as an unrounded float, for the division of two integers. *)
Definition raw_float (z : Z) : binary64 :=
  match z with
  | Z0 => S754_zero false
  | Zpos p => S754_finite false p 0
  | Zneg p => S754_finite true p 0
  end.

(** [a / b] for two integers: the binary64 number nearest to the exact
    quotient, whatever the size of the operands. *)
Definition py_truediv_int (a b : Z) : result binary64 :=
  if b =? 0 then Raise ZeroDivisionError
  else
    match SFdiv 53 1024 (raw_float a) (raw_float b) with
    | S754_infinity _ => Raise OverflowError
    | x => Ok x
    end.

(** What [_load_image] passes to PIL once the image is open: the size it
    resizes to and the box it crops. *)
Record ImagePlan : Type := {
  resized_width : Z;
  resized_height : Z;
  box_left : Z;
  box_top : Z;
  box_right : Z;
  box_bottom : Z;
}.

(** [_load_image] up to the pixel operations. [open_size] stands for
    [Image.open(path).convert("RGB").size]: the (width, height) of the image
    at a path, or the error of opening it. The mean, the std and the
    resampling filter only reach the pixel operations. *)
Definition load_image_plan (open_size : string -> result (Z * Z))
    (image_path : string) (channels resize_size crop_height crop_width : Z)
  : result ImagePlan :=
  if negb (channels =? 3) then
    Raise (ValueError ("Expected 3 channels, got " +:+ pretty channels))
  else if (resize_size <=? 0) || (crop_height <=? 0) || (crop_width <=? 0) then
    Raise (ValueError ("Invalid resize/crop size: resize=" +:+ pretty resize_size
                       +:+ ", crop=" +:+ pretty crop_height +:+ "x"
                       +:+ pretty crop_width))
  else
    '(width, height) ← open_size image_path;
    '(new_width, new_height) ←
      (if width <? height then
         q ← py_truediv_int (height * resize_size) width;
         new_height ← py_round q;
         Ok (resize_size, new_height)
       else
         q ← py_truediv_int (width * resize_size) height;
         new_width ← py_round q;
         Ok (new_width, resize_size));
    ql ← py_truediv (new_width - crop_width) float_2_0;
    left ← py_round ql;
    qt ← py_truediv (new_height - crop_height) float_2_0;
    top ← py_round qt;
    Ok {| resized_width := new_width; resized_height := new_height;
          box_left := left; box_top := top;
          box_right := left + crop_width; box_bottom := top + crop_height |}.

(** An image store with one 640 x 480 image. *)
Definition one_image (path : string) : result (Z * Z) :=
  if String.eqb path "cat.jpg" then Ok (640, 480)
  else Raise (FileNotFoundError path).

(** The preprocessing of [_classify]: the input size is inferred from the
    model, a config is selected from it, and the image is loaded under that
    config with three channels. *)
Definition classify_preprocess (str_to_int : string -> option Z)
    (model : CompiledModel) (open_size : string -> result (Z * Z))
    (model_path image_path : string) : result ImagePlan :=
  let signature_index := 0 in
  let channels := 3 in
  '(input_height, input_width) ← _infer_input_size str_to_int model signature_index;
  preprocess ← _pick_preprocess_config model_path input_height input_width;
  load_image_plan open_size image_path channels
    (resize_size preprocess) (crop_height preprocess) (crop_width preprocess).

(** The rest of numpy's contract on vectors whose scores are totally
    ordered by [le] (no NaN): [argsort] lists the indices by ascending
    score, and [argmax] names a greatest score. *)
Class NumpyOrdered {score : Type} (le : score -> score -> Prop) `{Numpy score}
  : Prop := {
  argsort_ascending :
    forall xs i j a b x y,
      (i <= j)%nat ->
      argsort xs !! i = Some a -> argsort xs !! j = Some b ->
      xs !! a = Some x -> xs !! b = Some y -> le x y;
  argmax_greatest :
    forall xs i x j y,
      argmax xs = Ok i -> xs !! i = Some x -> xs !! j = Some y -> le y x;
}.

(** Whether a character occurs in a string. *)
Fixpoint has_char (c : ascii) (s : string) : bool :=
  match s with
  | EmptyString => false
  | String c' rest => Ascii.eqb c' c || has_char c rest
  end.

(** What an entry of the metadata mapping says: its key and its value are
    not empty, the key holds no tab, and some line of the file, stripped, is
    the key, a tab and the value. *)
Definition from_line (lines : list string) (synset label : string) : Prop :=
  synset <> "" /\ label <> "" /\ has_char tab synset = false
  /\ exists line, line ∈ lines /\ strip line = synset +:+ String tab label.

(** A string that does not begin with a whitespace character. *)
Definition starts_clean (s : string) : Prop :=
  match s with
  | EmptyString => True
  | String c _ => py_isspace c = false
  end.

(** The integer scores meet the ordering contract. *)
Module ZOrdered.
Import ZScores.

#[global] Instance by_score_trans : Transitive by_score.
Proof. intros a b c. unfold by_score. lia. Qed.

#[global] Instance by_score_total : Total by_score.
Proof. intros a b. unfold by_score. lia. Qed.

Lemma StronglySorted_positions {A} (R : relation A) (l : list A) :
  StronglySorted R l ->
  forall i j a b, (i < j)%nat -> l !! i = Some a -> l !! j = Some b -> R a b.
Proof.
  induction 1 as [|x l Hsorted IH Hall]; intros i j a b Hij Ha Hb.
  - rewrite lookup_nil in Ha. discriminate.
  - destruct j as [|j]; [lia |]. cbn in Hb.
    destruct i as [|i]; cbn in Ha.
    + injection Ha as <-. rewrite Forall_forall in Hall. apply Hall.
      eapply list_elem_of_lookup_2. exact Hb.
    + apply (IH i j); [lia | assumption | assumption].
Qed.

Lemma argsort_Z_ascending (xs : list Z) (i j a b : nat) (x y : Z) :
  (i <= j)%nat ->
  argsort_Z xs !! i = Some a -> argsort_Z xs !! j = Some b ->
  xs !! a = Some x -> xs !! b = Some y -> x <= y.
Proof.
  unfold argsort_Z. intros Hij Ha Hb Hx Hy.
  set (pairs := merge_sort by_score (zip xs (seq 0 (length xs)))) in *.
  assert (Hentry : forall p, p ∈ pairs -> xs !! p.2 = Some p.1).
  { intros [v k] Hp. unfold pairs in Hp. rewrite merge_sort_Permutation in Hp.
    apply list_elem_of_lookup in Hp as [n Hn].
    apply lookup_zip_with_Some in Hn as (v' & k' & Heq & Hv & Hk).
    injection Heq as <- <-. apply lookup_seq in Hk as [-> _]. exact Hv. }
  rewrite list_lookup_fmap in Ha, Hb.
  destruct (pairs !! i) as [[v k]|] eqn:Hpi; [| discriminate].
  destruct (pairs !! j) as [[v' k']|] eqn:Hpj; [| discriminate].
  cbn in Ha, Hb. injection Ha as ->. injection Hb as ->.
  pose proof (Hentry _ (list_elem_of_lookup_2 _ _ _ Hpi)) as Hv. cbn in Hv.
  pose proof (Hentry _ (list_elem_of_lookup_2 _ _ _ Hpj)) as Hv'. cbn in Hv'.
  rewrite Hx in Hv. injection Hv as ->. rewrite Hy in Hv'. injection Hv' as ->.
  destruct (decide (i = j)) as [->|Hne].
  - rewrite Hpi in Hpj. injection Hpj as -> _. lia.
  - exact (StronglySorted_positions by_score pairs
             (StronglySorted_merge_sort by_score _) i j _ _ ltac:(lia) Hpi Hpj).
Qed.

Lemma argmax_from_greatest (rest : list Z) :
  forall (pre : list Z) (best_i : nat) (best : Z),
    pre !! best_i = Some best ->
    (forall j y, pre !! j = Some y -> y <= best) ->
    exists x,
      (pre ++ rest) !! argmax_from best_i best (length pre) rest = Some x
      /\ forall j y, (pre ++ rest) !! j = Some y -> y <= x.
Proof.
  induction rest as [|v rest IH]; intros pre best_i best Hbest Hall.
  - cbn [argmax_from]. rewrite app_nil_r. eauto.
  - cbn [argmax_from].
    replace (pre ++ v :: rest) with ((pre ++ [v]) ++ rest)
      by (rewrite <- app_assoc; reflexivity).
    replace (S (length pre)) with (length (pre ++ [v]))
      by (rewrite length_app; cbn; lia).
    destruct (Z.ltb_spec best v) as [Hlt|Hge].
    + apply IH.
      * rewrite lookup_app_r by lia. rewrite Nat.sub_diag. reflexivity.
      * intros j y Hj. apply lookup_app_Some in Hj as [Hj|[_ Hj]].
        -- specialize (Hall j y Hj). lia.
        -- apply list_lookup_singleton_Some in Hj as [_ <-]. lia.
    + apply IH.
      * apply lookup_app_l_Some. exact Hbest.
      * intros j y Hj. apply lookup_app_Some in Hj as [Hj|[_ Hj]].
        -- exact (Hall j y Hj).
        -- apply list_lookup_singleton_Some in Hj as [_ <-]. lia.
Qed.

Lemma argmax_Z_greatest (xs : list Z) (i : nat) (x : Z) (j : nat) (y : Z) :
  argmax_Z xs = Ok i -> xs !! i = Some x -> xs !! j = Some y -> y <= x.
Proof.
  destruct xs as [|v rest]; [discriminate |].
  cbn [argmax_Z]. intros Hi Hx Hy. injection Hi as <-.
  destruct (argmax_from_greatest rest [v] 0%nat v eq_refl) as (x' & Hx' & Hall).
  { intros k y' Hk. apply list_lookup_singleton_Some in Hk as [_ <-]. lia. }
  cbn [length app] in Hx', Hall. rewrite Hx in Hx'. injection Hx' as <-.
  exact (Hall j y Hy).
Qed.

#[global] Instance numpy_Z_ordered : NumpyOrdered Z.le := {|
  argsort_ascending := argsort_Z_ascending;
  argmax_greatest := argmax_Z_greatest;
|}.

End ZOrdered.

(** ** The converter: [_parse_convert_args], [_infer_input_size_from_weights],
    [_init_torchvision_model], [_convert_pretrained] *)

(** [os.path.join(a, b)] on POSIX paths. *)
Fixpoint ends_with_slash (s : string) : bool :=
  match s with
  | EmptyString => false
  | String c EmptyString => Ascii.eqb c "/"
  | String _ rest => ends_with_slash rest
  end.

Definition path_join (a b : string) : string :=
  if String.prefix "/" b then b
  else if str_empty a || ends_with_slash a then a +:+ b
  else a +:+ "/" +:+ b.

(** [_default_model_path], with the working directory as an argument. *)
Definition _default_model_path (cwd : string) : string :=
  path_join cwd "mobilenet_v2.tflite".

(** The [choices] of [--arch], and its default. *)
Definition arch_choices : list string :=
  [ "efficientnet_b0"; "efficientnet_b1"; "efficientnet_b2"; "efficientnet_b3";
    "efficientnet_b4"; "efficientnet_b5"; "efficientnet_b6"; "efficientnet_b7";
    "efficientnet_v2_s"; "efficientnet_v2_m"; "efficientnet_v2_l";
    "mobilenet_v2";
    "resnet18"; "resnet34"; "resnet50"; "resnet101"; "resnet152" ].

Definition arch_default : string := "mobilenet_v2".

(** The [model_specs] literal of [_init_torchvision_model]: each entry
    names an attribute of [torchvision.models] that builds the model, and
    the weights enumeration entry. *)
Definition model_specs : list (string * (string * string)) :=
  [ ("efficientnet_b0", ("efficientnet_b0", "EfficientNet_B0_Weights.IMAGENET1K_V1"));
    ("efficientnet_b1", ("efficientnet_b1", "EfficientNet_B1_Weights.IMAGENET1K_V1"));
    ("efficientnet_b2", ("efficientnet_b2", "EfficientNet_B2_Weights.IMAGENET1K_V1"));
    ("efficientnet_b3", ("efficientnet_b3", "EfficientNet_B3_Weights.IMAGENET1K_V1"));
    ("efficientnet_b4", ("efficientnet_b4", "EfficientNet_B4_Weights.IMAGENET1K_V1"));
    ("efficientnet_b5", ("efficientnet_b5", "EfficientNet_B5_Weights.IMAGENET1K_V1"));
    ("efficientnet_b6", ("efficientnet_b6", "EfficientNet_B6_Weights.IMAGENET1K_V1"));
    ("efficientnet_b7", ("efficientnet_b7", "EfficientNet_B7_Weights.IMAGENET1K_V1"));
    ("efficientnet_v2_s", ("efficientnet_v2_s", "EfficientNet_V2_S_Weights.IMAGENET1K_V1"));
    ("efficientnet_v2_m", ("efficientnet_v2_m", "EfficientNet_V2_M_Weights.IMAGENET1K_V1"));
    ("efficientnet_v2_l", ("efficientnet_v2_l", "EfficientNet_V2_L_Weights.IMAGENET1K_V1"));
    ("mobilenet_v2", ("mobilenet_v2", "MobileNet_V2_Weights.IMAGENET1K_V1"));
    ("resnet18", ("resnet18", "ResNet18_Weights.IMAGENET1K_V1"));
    ("resnet34", ("resnet34", "ResNet34_Weights.IMAGENET1K_V1"));
    ("resnet50", ("resnet50", "ResNet50_Weights.IMAGENET1K_V1"));
    ("resnet101", ("resnet101", "ResNet101_Weights.IMAGENET1K_V1"));
    ("resnet152", ("resnet152", "ResNet152_Weights.IMAGENET1K_V1")) ].

(** The lookup of [_init_torchvision_model]:
    [if arch not in model_specs: raise ValueError(...)], then
    [model_specs[arch]]. *)
Definition model_spec_of (arch : string) : result (string * string) :=
  match (list_to_map model_specs : gmap string (string * string)) !! arch with
  | None => Raise (ValueError ("Unsupported architecture: " +:+ arch))
  | Some spec => Ok spec
  end.

(** A torchvision weights entry as far as the converter looks at it:
    [weights.transforms()] raises, or yields an object, given by its
    attributes. *)
Record Weights : Type := {
  transforms : result (gmap string PyVal);
}.

(** [getattr(obj, name, dflt)]. *)
Definition py_getattr (obj : gmap string PyVal) (name : string) (dflt : PyVal)
  : PyVal :=
  dict_get_default obj name dflt.

(** The [if isinstance(crop_size, (list, tuple)):] block; it falls
    through on an empty sequence and on anything that is not a sequence. *)
Definition crop_size_block (str_to_int : string -> option Z) (crop_size : PyVal)
  : result (flow (Z * Z) unit) :=
  match crop_size with
  | VList items =>
      if 2 <=? len items then
        first ← py_index items 0; h ← py_int str_to_int first;
        second ← py_index items 1; w ← py_int str_to_int second;
        Ok (Return (h, w))
      else if len items =? 1 then
        first ← py_index items 0; size ← py_int str_to_int first;
        Ok (Return (size, size))
      else Ok (Continue ())
  | _ => Ok (Continue ())
  end.

Definition _infer_input_size_from_weights (str_to_int : string -> option Z)
    (weights : option Weights) : result (Z * Z) :=
  match weights with
  | None => Ok default_size
  | Some weights =>
      match transforms weights with
      | Raise _ => Ok default_size   (* except Exception: return default_size *)
      | Ok transforms =>
          let crop_size := py_getattr transforms "crop_size" VNone in
          match crop_size with
          | VNone => Ok default_size
          | _ =>
              r ← crop_size_block str_to_int crop_size;
              match r with
              | Return hw => Ok hw
              | Continue _ =>
                  match py_int str_to_int crop_size with
                  | Raise _ => Ok default_size   (* except Exception *)
                  | Ok size => Ok (size, size)
                  end
              end
          end
      end
  end.

(** The shape of the sample input of [_convert_pretrained]:
    [torch.randn(1, 3, input_height, input_width)]. *)
Definition sample_shape (input_height input_width : Z) : list Z :=
  [1; 3; input_height; input_width].

(** The output path of [_convert_pretrained]: [args.output], replaced by
    [<arch>.tflite] in the working directory when it is [None] or empty. *)
Definition convert_output_path (output : option string) (cwd arch : string)
  : string :=
  match output with
  | Some path =>
      if str_empty path then path_join cwd (arch +:+ ".tflite") else path
  | None => path_join cwd (arch +:+ ".tflite")
  end.

(** ** Normalisation: [_softmax] *)

(** A float32 datum, in the representation of [SpecFloat]: 24 bits of
    precision, exponents below 128. *)
Definition float32 : Type := spec_float.

Definition f32_sub (x y : float32) : float32 := SFsub 24 128 x y.
Definition f32_div (x y : float32) : float32 := SFdiv 24 128 x y.
Definition f32_add (x y : float32) : float32 := SFadd 24 128 x y.

(** An integer converted to float32, rounded to nearest. *)
Definition f32_of_int (z : Z) : float32 := binary_normalize 24 128 z 0 false.

(** The float32 number 1. *)
Definition float32_1_0 : float32 := S754_finite false 8388608 (-23).

(** The rational number a finite float32 datum denotes; infinities and NaN
    denote none and are given 0. *)
Definition f32_value (x : float32) : Q :=
  match x with
  | S754_finite s m e =>
      if 0 <=? e then inject_Z (cond_Zopp s (Z.pos m) * 2 ^ e)
      else cond_Zopp s (Z.pos m) # Z.to_pos (2 ^ (- e))
  | _ => 0%Q
  end.

Definition f32_finite (x : float32) : bool :=
  match x with
  | S754_zero _ | S754_finite _ _ _ => true
  | S754_infinity _ | S754_nan => false
  end.

(** A float32 number: finite, and in the canonical form of the format. *)
Definition f32_number (x : float32) : Prop :=
  f32_finite x = true /\ valid_binary 24 128 x = true.

(** Zero, a negative number or minus infinity. *)
Definition nonpositive (x : float32) : bool :=
  match x with
  | S754_zero _ | S754_finite true _ _ | S754_infinity true => true
  | _ => false
  end.

(** A float32 number counted in units of 2^-149, the least positive
    float32 number. *)
Definition f32_units (x : float32) : Z :=
  match x with
  | S754_finite s m e => cond_Zopp s (Z.pos m * 2 ^ (e + 149))
  | _ => 0
  end.

Definition unit_scale : positive := (2 ^ 149)%positive.

(** A datum whose exponent is not below that of the least number of the
    format: a float32 number, or what rounding yields. *)
Definition in_range (x : float32) : Prop :=
  match x with
  | S754_finite _ _ e => -149 <= e
  | _ => True
  end.

(** The score vectors [_read_output] yields: float32 numbers, or integers
    of the int8, uint8 and int32 dtypes. *)
Inductive NpVector : Type :=
  | Float32Vector (xs : list float32)
  | IntVector (zs : list Z).

(** [scores.astype(np.float32, copy=False)]. *)
Definition astype_float32 (scores : NpVector) : list float32 :=
  match scores with
  | Float32Vector xs => xs
  | IntVector zs => f32_of_int <$> zs
  end.

(** What [_softmax] asks of numpy on float32 vectors: the maximum, which
    raises on an empty vector, the exponential of an entry, and the sum. *)
Class Numpy32 : Type := {
  np_max : list float32 -> result float32;
  np_exp : float32 -> float32;
  np_sum : list float32 -> float32;
}.

Definition _softmax `{Numpy32} (scores : NpVector) : result (list float32) :=
  let scores := astype_float32 scores in
  max_score ← np_max scores;
  let exp_scores := np_exp <$> ((fun x => f32_sub x max_score) <$> scores) in
  let total := np_sum exp_scores in
  Ok ((fun e => f32_div e total) <$> exp_scores).

(** The exact sum of rational numbers. *)
Definition sum_Q (l : list Q) : Q := fold_right Qplus 0%Q l.

(** numpy's side of the computation. [np.max] of a vector of numbers is
    one of its entries, no smaller than any of them, and raises on the
    empty vector. *)
Definition max_contract (xs : list float32) (r : result float32) : Prop :=
  match xs with
  | [] => exists msg, r = Raise (ValueError msg)
  | _ :: _ =>
      exists m, r = Ok m /\ m ∈ xs
                /\ Forall (fun x => (f32_value x <= f32_value m)%Q) xs
  end.

(** [np.exp] of zero, of a negative number or of minus infinity is a number
    between 0 and 1, and it is 1 at zero. *)
Definition exp_contract (x y : float32) : Prop :=
  nonpositive x = true ->
  f32_number y /\ (0 <= f32_value y <= 1)%Q
  /\ (forall s, x = S754_zero s -> y = float32_1_0).

(** [np.sum] of numbers between 0 and 1 is a number no smaller than any of
    them (sums of non-negative numbers only grow, and rounding keeps the
    order), within a relative distance of 2^-17 of their exact sum (numpy
    adds float32 numbers pairwise, which stays well within that). *)
Definition sum_contract (xs : list float32) (total : float32) : Prop :=
  Forall (fun x => f32_number x /\ (0 <= f32_value x <= 1)%Q) xs ->
  f32_number total
  /\ Forall (fun x => (f32_value x <= f32_value total)%Q) xs
  /\ ((1 - (1 # 131072)) * sum_Q (f32_value <$> xs) <= f32_value total)%Q
  /\ (f32_value total <= (1 + (1 # 131072)) * sum_Q (f32_value <$> xs))%Q.

(** numpy keeps its contract on the calls one run of [_softmax] makes. *)
Definition softmax_numpy_contract `{Numpy32} (xs : list float32) : Prop :=
  max_contract xs (np_max xs)
  /\ forall max_score,
       np_max xs = Ok max_score ->
       Forall (fun x => exp_contract (f32_sub x max_score)
                          (np_exp (f32_sub x max_score))) xs
       /\ sum_contract (np_exp <$> ((fun x => f32_sub x max_score) <$> xs))
            (np_sum (np_exp <$> ((fun x => f32_sub x max_score) <$> xs))).

(** A finite score vector: float32 numbers, or integers of at most 32
    bits. *)
Definition finite_vector (scores : NpVector) : Prop :=
  match scores with
  | Float32Vector xs => Forall f32_number xs
  | IntVector zs => Forall (fun z => - 2 ^ 31 <= z < 2 ^ 31) zs
  end.

(** A numpy to run [_softmax] with. The maximum is found by comparison,
    the sum adds the entries in order, and the exponential of an argument
    that is not positive is the reciprocal of the power series of its
    opposite, cut after 40 terms and rounded to float32; arguments below
    -104, whose exponential is less than half the least float32 number,
    give zero. *)
Fixpoint max_of (best : float32) (xs : list float32) : float32 :=
  match xs with
  | [] => best
  | x :: rest => max_of (if SFltb best x then x else best) rest
  end.

Definition max_by_comparison (xs : list float32) : result float32 :=
  match xs with
  | [] => Raise (ValueError "zero-size array to reduction operation maximum which has no identity")
  | x :: rest => Ok (max_of x rest)
  end.

Definition sum_in_order (xs : list float32) : float32 :=
  fold_left f32_add xs (S754_zero false).

(** The sum of [term], [term * t / k], [term * t^2 / (k (k + 1))], ... *)
Fixpoint power_series (terms : nat) (t term : Q) (k : positive) : Q :=
  match terms with
  | O => 0%Q
  | S terms =>
      (term + power_series terms t (Qred (term * t * (1 # k))) (Pos.succ k))%Q
  end.

(** A positive rational number, rounded to float32. *)
Definition f32_of_Q (q : Q) : float32 :=
  binary_normalize 24 128 ((Qnum q * 2 ^ 200) / Z.pos (Qden q)) (-200) false.

Definition exp_series (x : float32) : float32 :=
  match x with
  | S754_zero _ => float32_1_0
  | S754_infinity true => S754_zero false
  | S754_infinity false => S754_infinity false
  | S754_nan => S754_nan
  | S754_finite false _ _ =>
      f32_of_Q (power_series 40 (f32_value x) 1 1)
  | S754_finite true _ _ =>
      if Qle_bool (f32_value x) (-104) then S754_zero false
      else f32_of_Q (/ power_series 40 (- f32_value x) 1 1)
  end.

Definition series_numpy : Numpy32 :=
  {| np_max := max_by_comparison; np_exp := exp_series; np_sum := sum_in_order |}.

(** Indexing a list that is written out. *)
Ltac eval_index :=
  repeat match goal with
  | |- context [py_index ?l ?i] =>
      let v := eval vm_compute in (py_index l i) in
      change (py_index l i) with v
  end;
  cbn.

(** * Properties *)

(** ** Shape inference *)

Lemma traverse_py_int_ints (str_to_int : string -> option Z) (zs : list Z) :
  traverse (py_int str_to_int) (VInt <$> zs) = Ok zs.
Proof.
  induction zs as [|z zs IH]; [reflexivity |].
  cbn. cbn in IH. rewrite IH. reflexivity.
Qed.

Lemma traverse_raises {A B} (f : A -> result B) (l : list A) (x : A) (e : PyExc) :
  x ∈ l -> f x = Raise e -> exists e', traverse f l = Raise e'.
Proof.
  intros Hin Hx. induction l as [|y l IH]; [inversion Hin |].
  cbn. apply elem_of_cons in Hin as [<- | Hin].
  - rewrite Hx. cbn. eauto.
  - destruct (f y) as [b|e0]; cbn; [|eauto].
    destruct (IH Hin) as [e' ->]. cbn. eauto.
Qed.

Lemma traverse_length {A B} (f : A -> result B) (l : list A) (l' : list B) :
  traverse f l = Ok l' -> length l' = length l.
Proof.
  revert l'. induction l as [|x l IH]; intros l' Hl; cbn in Hl.
  - injection Hl as <-. reflexivity.
  - destruct (f x) as [b|e]; cbn in Hl; [|discriminate].
    destruct (traverse f l) as [bs|e]; cbn in Hl; [|discriminate].
    injection Hl as <-. cbn. f_equal. apply IH. reflexivity.
Qed.

(** Reading an index of a list of known length never fails in range. *)
Lemma py_index_lookup {A} (l : list A) (i : nat) (x : A) :
  l !! i = Some x -> py_index l (Z.of_nat i) = Ok x.
Proof.
  intros Hl. unfold py_index.
  pose proof (lookup_lt_Some _ _ _ Hl) as Hlt.
  destruct (Z.ltb_spec (Z.of_nat i) 0); [lia |].
  destruct (Z.leb_spec 0 (Z.of_nat i)); [| lia].
  destruct (Z.ltb_spec (Z.of_nat i) (Z.of_nat (length l))); [| lia].
  cbn. rewrite Nat2Z.id, Hl. reflexivity.
Qed.

(** The rank-3 block never raises, whatever the list. *)
Lemma rank3_block_total (dims : list Z) : exists hw, rank3_block dims = Ok hw.
Proof.
  unfold rank3_block, len.
  destruct (Z.of_nat (length dims) =? 3) eqn:Hlen; [|eauto].
  apply Z.eqb_eq in Hlen.
  destruct dims as [|x [|y [|z [|? ?]]]]; cbn [length] in Hlen; try lia.
  eval_index. destruct (x =? 3); cbn; [eauto|].
  destruct (z =? 3); cbn; eauto.
Qed.

(** The rank-4 block never raises, whatever the list. *)
Lemma rank4_block_total (dims : list Z) : exists r, rank4_block dims = Ok r.
Proof.
  unfold rank4_block, len.
  destruct (Z.of_nat (length dims) =? 4) eqn:Hlen; [|eauto].
  apply Z.eqb_eq in Hlen.
  destruct dims as [|a [|b [|c [|d [|? ?]]]]]; cbn [length] in Hlen; try lia.
  eval_index. destruct (b =? 3); cbn; [eauto|].
  destruct (d =? 3); cbn; [eauto|].
  destruct ((a =? 1) || (a =? -1)); eauto.
Qed.

(** The two blocks on a list whose length is neither 3 nor 4. *)
Lemma blocks_other_rank (dims : list Z) :
  length dims <> 3%nat -> length dims <> 4%nat ->
  (r ← rank4_block dims;
   match r with Return hw => Ok hw | Continue dims => rank3_block dims end)
  = Ok default_size.
Proof.
  intros H3 H4. unfold rank4_block, len.
  destruct (Z.eqb_spec (Z.of_nat (length dims)) 4); [lia |].
  cbn. unfold rank3_block, len.
  destruct (Z.eqb_spec (Z.of_nat (length dims)) 3); [lia |].
  reflexivity.
Qed.

(** The rank-3 rules, on a list that is written out. *)
Lemma rank3_block_rules (a b c : Z) :
  rank3_block [a; b; c] =
  Ok (if a =? 3 then (b, c) else if c =? 3 then (a, b) else (224, 224)).
Proof.
  unfold rank3_block. change (len [a; b; c] =? 3) with true. cbv iota.
  eval_index. destruct (a =? 3); [reflexivity |].
  destruct (c =? 3); reflexivity.
Qed.

(** The rank-4 block, on a list that is written out. *)
Lemma rank4_block_rules (a b c d : Z) :
  rank4_block [a; b; c; d] =
  Ok (if b =? 3 then Return (c, d)
      else if d =? 3 then Return (b, c)
      else if (a =? 1) || (a =? -1) then Continue [b; c; d]
      else Continue [a; b; c; d]).
Proof.
  unfold rank4_block. change (len [a; b; c; d] =? 4) with true. cbv iota.
  eval_index. destruct (b =? 3); [reflexivity |].
  destruct (d =? 3); [reflexivity |].
  destruct ((a =? 1) || (a =? -1)); reflexivity.
Qed.

(** What [_infer_input_size] does once the metadata holds a non-empty list
    of integers. *)
Lemma infer_input_size_ints (str_to_int : string -> option Z)
    (model : CompiledModel) (signature_index : Z)
    (requirements : gmap string PyVal) (zs : list Z) :
  get_input_buffer_requirements model 0 signature_index = Ok requirements ->
  select_dims requirements = VList (VInt <$> zs) ->
  zs <> [] ->
  _infer_input_size str_to_int model signature_index =
  (r ← rank4_block zs;
   match r with Return hw => Ok hw | Continue dims => rank3_block dims end).
Proof.
  intros Hget Hsel Hne. unfold _infer_input_size. rewrite Hget, Hsel.
  destruct zs as [|z zs]; [congruence |].
  cbn [truthy negb fmap list_fmap py_iter mbind result_bind].
  change (VInt z :: (VInt <$> zs)) with (VInt <$> (z :: zs)).
  rewrite traverse_py_int_ints. reflexivity.
Qed.

(** Claim C1. When the selected dimension list holds four integers
    [a; b; c; d], [_infer_input_size] returns [(c, d)] if [b = 3]
    (channel-first), else [(b, c)] if [d = 3] (channel-last), else, if [a]
    is 1 or -1, what the rank-3 rules give on [b; c; d], else (224, 224);
    a four-element list with neither [b = 3] nor [d = 3] yields
    (224, 224). On three integers [a; b; c] it returns [(b, c)] if
    [a = 3], else [(a, b)] if [c = 3], else (224, 224). *)
Theorem infer_input_size_layouts (str_to_int : string -> option Z)
    (model : CompiledModel) (signature_index : Z)
    (requirements : gmap string PyVal) :
  get_input_buffer_requirements model 0 signature_index = Ok requirements ->
  (forall a b c d : Z,
      select_dims requirements = VList [VInt a; VInt b; VInt c; VInt d] ->
      _infer_input_size str_to_int model signature_index =
        (if b =? 3 then Ok (c, d)
         else if d =? 3 then Ok (b, c)
         else if (a =? 1) || (a =? -1) then rank3_block [b; c; d]
         else Ok (224, 224))
      /\ (b <> 3 -> d <> 3 ->
          _infer_input_size str_to_int model signature_index = Ok (224, 224)))
  /\ (forall a b c : Z,
      select_dims requirements = VList [VInt a; VInt b; VInt c] ->
      _infer_input_size str_to_int model signature_index =
        Ok (if a =? 3 then (b, c) else if c =? 3 then (a, b) else (224, 224)))
  /\ (forall b c d : Z,
      rank3_block [b; c; d] =
        Ok (if b =? 3 then (c, d) else if d =? 3 then (b, c) else (224, 224))).
Proof.
  intros Hget. split; [| split].
  - intros a b c d Hsel.
    rewrite (infer_input_size_ints _ _ _ _ [a; b; c; d] Hget Hsel) by discriminate.
    rewrite rank4_block_rules. cbn [mbind result_bind].
    split.
    + destruct (b =? 3); [reflexivity |].
      destruct (d =? 3); [reflexivity |].
      destruct ((a =? 1) || (a =? -1)); [reflexivity |].
      unfold rank3_block. reflexivity.
    + intros Hb Hd.
      destruct (Z.eqb_spec b 3); [contradiction |].
      destruct (Z.eqb_spec d 3); [contradiction |].
      destruct ((a =? 1) || (a =? -1)).
      * rewrite rank3_block_rules.
        destruct (Z.eqb_spec b 3); [contradiction |].
        destruct (Z.eqb_spec d 3); [contradiction | reflexivity].
      * unfold rank3_block. reflexivity.
  - intros a b c Hsel.
    rewrite (infer_input_size_ints _ _ _ _ [a; b; c] Hget Hsel) by discriminate.
    unfold rank4_block. change (len [a; b; c] =? 4) with false.
    cbn [mbind result_bind]. apply rank3_block_rules.
  - apply rank3_block_rules.
Qed.

(** The canonical channel-first shape (1, 3, 224, 224). *)
Lemma infer_input_size_layouts_nchw :
  _infer_input_size plain_decimal
    (fake_model (Ok {[ "dimensions" := VList [VInt 1; VInt 3; VInt 224; VInt 224] ]})) 0
  = Ok (224, 224).
Proof.
  pose proof (infer_input_size_layouts plain_decimal
    (fake_model (Ok {[ "dimensions" := VList [VInt 1; VInt 3; VInt 224; VInt 224] ]})) 0
    {[ "dimensions" := VList [VInt 1; VInt 3; VInt 224; VInt 224] ]}
    eq_refl) as [H4 _].
  exact (proj1 (H4 1 3 224 224 eq_refl)).
Defined.

(** The canonical channel-last shape (1, 224, 224, 3), and shapes whose
    spatial axes differ. *)
Example infer_input_size_nhwc :
  _infer_input_size plain_decimal
    (fake_model (Ok {[ "shape" := VList [VInt 1; VInt 224; VInt 224; VInt 3] ]})) 0
  = Ok (224, 224)
  /\ _infer_input_size plain_decimal
    (fake_model (Ok {[ "dims" := VList [VInt (-1); VInt 3; VInt 192; VInt 256] ]})) 0
  = Ok (192, 256)
  /\ _infer_input_size plain_decimal
    (fake_model (Ok {[ "dims" := VList [VInt 320; VInt 240; VInt 3] ]})) 0
  = Ok (320, 240)
  /\ _infer_input_size plain_decimal
    (fake_model (Ok {[ "dims" := VList [VStr "3"; VBool true; VStr "-7"] ]})) 0
  = Ok (1, -7).
Proof. repeat split; vm_compute; reflexivity. Qed.

(** [_infer_input_size] returns on every input. *)
Lemma infer_input_size_total (str_to_int : string -> option Z)
    (model : CompiledModel) (signature_index : Z) :
  exists hw, _infer_input_size str_to_int model signature_index = Ok hw.
Proof.
  unfold _infer_input_size.
  destruct (get_input_buffer_requirements model 0 signature_index)
    as [requirements|e]; [|eauto].
  cbv zeta. destruct (negb (truthy (select_dims requirements))); [eauto |].
  destruct (py_iter (select_dims requirements) ≫= traverse (py_int str_to_int))
    as [dims|e]; [|eauto].
  destruct (rank4_block_total dims) as [[hw|dims'] ->]; cbn; [eauto |].
  apply rank3_block_total.
Qed.

(** No key, no dimension list. *)
Lemma select_dims_missing (requirements : gmap string PyVal) :
  requirements !! "dimensions" = None ->
  requirements !! "shape" = None ->
  requirements !! "dims" = None ->
  select_dims requirements = VNone.
Proof.
  intros H1 H2 H3. unfold select_dims, dict_get. rewrite H1, H2, H3. reflexivity.
Qed.

(** Claim C2. [_infer_input_size] never raises: on every model and signature
    it returns a pair, and it returns the default (224, 224) when the
    retrieval of the requirements raises, when the requirements have none of
    the keys "dimensions", "shape" and "dims", when each of the three is
    missing or holds an empty list (or another false value), when the
    selected dimension list has an entry that [int] refuses, and when it is
    a list of numbers whose length is neither 3 nor 4. *)
Theorem infer_input_size_never_raises (str_to_int : string -> option Z)
    (model : CompiledModel) (signature_index : Z) :
  (exists hw, _infer_input_size str_to_int model signature_index = Ok hw)
  /\ (forall e,
       get_input_buffer_requirements model 0 signature_index = Raise e ->
       _infer_input_size str_to_int model signature_index = Ok (224, 224))
  /\ (forall requirements,
       get_input_buffer_requirements model 0 signature_index = Ok requirements ->
       (requirements !! "dimensions" = None ->
        requirements !! "shape" = None ->
        requirements !! "dims" = None ->
        _infer_input_size str_to_int model signature_index = Ok (224, 224))
       /\ (truthy (dict_get requirements "dimensions") = false ->
           truthy (dict_get requirements "shape") = false ->
           truthy (dict_get requirements "dims") = false ->
           _infer_input_size str_to_int model signature_index = Ok (224, 224))
       /\ (forall entries v e,
           select_dims requirements = VList entries ->
           v ∈ entries -> py_int str_to_int v = Raise e ->
           _infer_input_size str_to_int model signature_index = Ok (224, 224))
       /\ (forall entries dims,
           select_dims requirements = VList entries ->
           traverse (py_int str_to_int) entries = Ok dims ->
           length entries <> 3%nat -> length entries <> 4%nat ->
           _infer_input_size str_to_int model signature_index = Ok (224, 224))).
Proof.
  split; [apply infer_input_size_total |].
  split.
  { intros e Hget. unfold _infer_input_size. rewrite Hget. reflexivity. }
  intros requirements Hget. unfold _infer_input_size. rewrite Hget. cbv zeta.
  split; [| split; [| split]].
  - intros H1 H2 H3. rewrite (select_dims_missing _ H1 H2 H3). reflexivity.
  - intros H1 H2 H3. unfold select_dims, py_or. rewrite H1, H2, H3. reflexivity.
  - intros entries v e -> Hin Hv.
    destruct entries as [|v0 entries']; [inversion Hin |].
    cbn [truthy negb py_iter mbind result_bind].
    destruct (traverse_raises _ _ _ _ Hin Hv) as [e' ->]. reflexivity.
  - intros entries dims -> Hdims H3 H4.
    destruct entries as [|v0 entries']; [reflexivity |].
    cbn [truthy negb py_iter mbind result_bind]. rewrite Hdims.
    apply blocks_other_rank; rewrite (traverse_length _ _ _ Hdims); assumption.
Qed.

(** Each way of failing, on a fake runtime. *)
Lemma infer_input_size_never_raises_cases :
  _infer_input_size plain_decimal (fake_model (Raise (RuntimeError "no metadata"))) 0
    = Ok (224, 224)
  /\ _infer_input_size plain_decimal
       (fake_model (Ok {[ "buffer_size" := VInt 602112 ]})) 0 = Ok (224, 224)
  /\ _infer_input_size plain_decimal
       (fake_model (Ok {[ "dimensions" := VList [] ]})) 0 = Ok (224, 224)
  /\ _infer_input_size plain_decimal
       (fake_model (Ok {[ "dimensions" :=
          VList [VInt 1; VStr "three"; VInt 224; VInt 224] ]})) 0 = Ok (224, 224)
  /\ _infer_input_size plain_decimal
       (fake_model (Ok {[ "dimensions" :=
          VList [VInt 1; VInt 1; VInt 3; VInt 224; VInt 224] ]})) 0 = Ok (224, 224).
Proof.
  split; [| split; [| split; [| split]]].
  - exact (proj1 (proj2 (infer_input_size_never_raises plain_decimal
      (fake_model (Raise (RuntimeError "no metadata"))) 0)) _ eq_refl).
  - exact (proj1 (proj2 (proj2 (infer_input_size_never_raises plain_decimal
      (fake_model (Ok {[ "buffer_size" := VInt 602112 ]})) 0)) _ eq_refl)
      eq_refl eq_refl eq_refl).
  - exact (proj1 (proj2 (proj2 (proj2 (infer_input_size_never_raises plain_decimal
      (fake_model (Ok {[ "dimensions" := VList [] ]})) 0)) _ eq_refl))
      eq_refl eq_refl eq_refl).
  - refine (proj1 (proj2 (proj2 (proj2 (proj2 (infer_input_size_never_raises
      plain_decimal
      (fake_model (Ok {[ "dimensions" :=
          VList [VInt 1; VStr "three"; VInt 224; VInt 224] ]})) 0)) _ eq_refl)))
      _ (VStr "three") (ValueError "invalid literal for int()") eq_refl _ eq_refl).
    right. left.
  - exact (proj2 (proj2 (proj2 (proj2 (proj2 (infer_input_size_never_raises
      plain_decimal
      (fake_model (Ok {[ "dimensions" :=
          VList [VInt 1; VInt 1; VInt 3; VInt 224; VInt 224] ]})) 0)) _ eq_refl)))
      _ [1; 1; 3; 224; 224] eq_refl eq_refl ltac:(discriminate) ltac:(discriminate)).
Defined.

(** ** Output dtype selection *)

Lemma py_in_ints (n : Z) (types : list Z) :
  py_in n (VList (VInt <$> types)) = Ok (bool_decide (n ∈ types)).
Proof.
  cbn. f_equal. induction types as [|t types IH]; [reflexivity |].
  cbn. rewrite IH. destruct (Z.eqb_spec t n) as [->|Hne]; cbn.
  - symmetry. apply bool_decide_eq_true. left.
  - apply bool_decide_ext. rewrite elem_of_cons. intuition congruence.
Qed.

(** The dtype chosen on a list of integer identifiers: membership alone
    decides, and a list with none of the four identifiers gives float32. *)
Lemma pick_output_dtype_ints (requirements : gmap string PyVal) (types : list Z) :
  dict_get_default requirements "supported_types" (VList []) = VList (VInt <$> types) ->
  _pick_output_dtype requirements =
  Ok (if bool_decide (1 ∈ types) then np_float32
      else if bool_decide (9 ∈ types) then np_int8
      else if bool_decide (3 ∈ types) then np_uint8
      else if bool_decide (2 ∈ types) then np_int32
      else np_float32).
Proof.
  intros Hsup. unfold _pick_output_dtype. rewrite Hsup.
  cbn [scan_preferred]. rewrite !py_in_ints. cbn [mbind result_bind].
  destruct (bool_decide (1 ∈ types)) eqn:H1; [reflexivity |].
  destruct (bool_decide (9 ∈ types)) eqn:H9; [reflexivity |].
  destruct (bool_decide (3 ∈ types)) eqn:H3; [reflexivity |].
  destruct (bool_decide (2 ∈ types)) eqn:H2; [reflexivity |].
  cbn [mbind result_bind].
  destruct types as [|t types]; [reflexivity |].
  cbn [fmap list_fmap truthy py_first].
  rewrite (py_index_lookup (VInt t :: (VInt <$> types)) 0 (VInt t) eq_refl
           : py_index (VInt t :: (VInt <$> types)) 0 = Ok (VInt t)).
  cbn [mbind result_bind table_get]. f_equal.
  apply bool_decide_eq_false in H1, H9, H3, H2.
  rewrite elem_of_cons in H1, H9, H3, H2.
  unfold _LITERT_TYPE_TO_NP.
  rewrite !lookup_insert_ne by intuition congruence.
  rewrite lookup_singleton_ne by intuition congruence.
  reflexivity.
Qed.

(** Claim C3, as amended. On a list of integer type identifiers the dtype
    chosen is float32 if 1 is listed, else int8 if 9 is, else uint8 if 3
    is, else int32 if 2 is, whatever the order of the list; when none of
    the four is listed the dtype is float32, whether the list is empty or
    not. Where a preferred identifier is listed, or the list is empty, this
    is the identifier the specification selects. *)
Theorem pick_output_dtype_preference (requirements : gmap string PyVal)
    (types : list Z) :
  dict_get_default requirements "supported_types" (VList []) = VList (VInt <$> types) ->
  _pick_output_dtype requirements =
    Ok (if bool_decide (1 ∈ types) then np_float32
        else if bool_decide (9 ∈ types) then np_int8
        else if bool_decide (3 ∈ types) then np_uint8
        else if bool_decide (2 ∈ types) then np_int32
        else np_float32)
  /\ (forall requirements' types',
        Permutation types types' ->
        dict_get_default requirements' "supported_types" (VList [])
          = VList (VInt <$> types') ->
        _pick_output_dtype requirements' = _pick_output_dtype requirements)
  /\ (1 ∉ types -> 9 ∉ types -> 3 ∉ types -> 2 ∉ types ->
      _pick_output_dtype requirements = Ok np_float32)
  /\ (1 ∈ types \/ 9 ∈ types \/ 3 ∈ types \/ 2 ∈ types \/ types = [] ->
      exists d, _pick_output_dtype requirements = Ok d
                /\ litert_type_id d = spec_selected_type_id types).
Proof.
  intros Hsup.
  pose proof (pick_output_dtype_ints requirements types Hsup) as Hpick.
  split; [exact Hpick |]. split; [| split].
  - intros requirements' types' Hperm Hsup'.
    rewrite Hpick, (pick_output_dtype_ints requirements' types' Hsup').
    assert (Hmem : forall n, bool_decide (n ∈ types') = bool_decide (n ∈ types)).
    { intros n. apply bool_decide_ext. rewrite Hperm. reflexivity. }
    rewrite !Hmem. reflexivity.
  - intros H1 H9 H3 H2. rewrite Hpick.
    rewrite !bool_decide_eq_false_2 by assumption. reflexivity.
  - intros Hlisted. rewrite Hpick. eexists. split; [reflexivity |].
    unfold spec_selected_type_id. cbn [List.find].
    destruct (bool_decide (1 ∈ types)) eqn:H1; [reflexivity |].
    destruct (bool_decide (9 ∈ types)) eqn:H9; [reflexivity |].
    destruct (bool_decide (3 ∈ types)) eqn:H3; [reflexivity |].
    destruct (bool_decide (2 ∈ types)) eqn:H2; [reflexivity |].
    apply bool_decide_eq_false in H1, H9, H3, H2.
    destruct Hlisted as [?|[?|[?|[?| ->]]]]; try contradiction. reflexivity.
Qed.

(** The set {9, 1}, in either order, selects float32. *)
Lemma pick_output_dtype_preference_9_1 :
  _pick_output_dtype {[ "supported_types" := VList [VInt 9; VInt 1] ]} = Ok np_float32
  /\ _pick_output_dtype {[ "supported_types" := VList [VInt 1; VInt 9] ]}
     = _pick_output_dtype {[ "supported_types" := VList [VInt 9; VInt 1] ]}.
Proof.
  pose proof (pick_output_dtype_preference
    {[ "supported_types" := VList [VInt 9; VInt 1] ]} [9; 1] eq_refl)
    as [Hpick [Hperm _]].
  split.
  - exact Hpick.
  - apply (Hperm {[ "supported_types" := VList [VInt 1; VInt 9] ]} [1; 9]).
    + apply perm_swap.
    + reflexivity.
Defined.

(** Claim C3 as stated fails where the list is non-empty and holds none of
    the four preferred identifiers: on [4] the specification selects the
    first listed type, 4, and the program reads the buffer as float32,
    whose identifier is 1. *)
Lemma pick_output_dtype_first_listed_refuted :
  ~ (forall (types : list Z) (d : NpDtype),
       _pick_output_dtype {[ "supported_types" := VList (VInt <$> types) ]} = Ok d ->
       litert_type_id d = spec_selected_type_id types).
Proof.
  intros Hclaim.
  specialize (Hclaim [4] np_float32 eq_refl).
  vm_compute in Hclaim. discriminate Hclaim.
Qed.

(** ** Output decoding *)

Lemma itemsize_pos (d : NpDtype) : 0 < itemsize d.
Proof. destruct d; reflexivity. Qed.

(** Claim C4. When the dtype selection yields [d] and the buffer size is the
    integer [z] (0 when the key is missing), the element count is [z]
    floor-divided by the byte width of [d]; the decoder raises its
    invalid-output error exactly when that count is zero, without
    reading the buffer, and otherwise returns what reading that many
    elements of dtype [d] from the buffer yields. *)
Theorem read_output_count (requirements : gmap string PyVal) (d : NpDtype) (z : Z) :
  _pick_output_dtype requirements = Ok d ->
  dict_get_default requirements "buffer_size" (VInt 0) = VInt z ->
  let num_elements := z / itemsize d in
  (read_output_request requirements = Raise (ValueError "Output buffer size is zero")
     <-> num_elements = 0)
  /\ (num_elements <> 0 ->
      read_output_request requirements = Ok (VInt num_elements, d))
  /\ (forall (elem : Type) (buffer : TensorBuffer elem),
        _read_output buffer requirements =
          if num_elements =? 0 then Raise (ValueError "Output buffer size is zero")
          else read buffer (VInt num_elements) d).
Proof.
  intros Hpick Hsize num_elements.
  assert (Hreq : read_output_request requirements =
                 if num_elements =? 0
                 then Raise (ValueError "Output buffer size is zero")
                 else Ok (VInt num_elements, d)).
  { unfold read_output_request. rewrite Hpick. cbn [mbind result_bind].
    rewrite Hsize. pose proof (itemsize_pos d) as Hpos.
    destruct (Z.eqb_spec (itemsize d) 0) as [H0|_]; [lia |].
    cbn [negb py_floordiv mbind result_bind py_eq_int].
    fold num_elements. reflexivity. }
  split; [| split].
  - rewrite Hreq. destruct (Z.eqb_spec num_elements 0) as [H0|Hne].
    + split; [intros _; exact H0 | reflexivity].
    + split; [discriminate | contradiction].
  - intros Hne. rewrite Hreq.
    destruct (Z.eqb_spec num_elements 0); [contradiction | reflexivity].
  - intros elem buffer. unfold _read_output. rewrite Hreq.
    destruct (num_elements =? 0); reflexivity.
Qed.

(** 4003 bytes of float32 are 1000 elements, and 3 bytes are none. *)
Lemma read_output_count_float32 :
  _read_output zero_buffer
    {[ "supported_types" := VList [VInt 9; VInt 1]; "buffer_size" := VInt 4003 ]}
    = Ok (repeat 0 1000%nat)
  /\ _read_output zero_buffer
    {[ "supported_types" := VList [VInt 9; VInt 1]; "buffer_size" := VInt 3 ]}
    = Raise (ValueError "Output buffer size is zero").
Proof.
  split.
  - exact (proj2 (proj2 (read_output_count
      {[ "supported_types" := VList [VInt 9; VInt 1]; "buffer_size" := VInt 4003 ]}
      np_float32 4003 eq_refl eq_refl)) Z zero_buffer).
  - exact (proj2 (proj2 (read_output_count
      {[ "supported_types" := VList [VInt 9; VInt 1]; "buffer_size" := VInt 3 ]}
      np_float32 3 eq_refl eq_refl)) Z zero_buffer).
Defined.

(** ** Label resolution *)

Lemma str_empty_spec (s : string) : str_empty s = true <-> s = "".
Proof. unfold str_empty. apply String.eqb_eq. Qed.

Lemma build_labels_unfold (fs : FileSystem) (synsets_path metadata_path : string)
    (output_size : Z) (synsets : list string) :
  _load_synsets fs synsets_path = Ok (Some synsets) ->
  synsets <> [] ->
  _build_imagenet_labels fs synsets_path metadata_path output_size =
  let synsets' :=
    if output_size =? len synsets + 1 then "background" :: synsets else synsets in
  if negb (output_size =? len synsets') then Ok None
  else metadata ← _load_metadata fs metadata_path;
       Ok (Some (List.map (label_entry metadata) synsets')).
Proof.
  intros Hload Hne. unfold _build_imagenet_labels. rewrite Hload.
  cbn [mbind result_bind]. destruct synsets; [congruence | reflexivity].
Qed.







(** Claim C6 as stated fails where the metadata mapping holds a class
    identifier: for an output size equal to the number of identifiers the
    labels are not the identifiers unmodified, the human label is appended;
    and where the metadata file is missing no labels are returned, the
    error of [open] is raised. *)
Lemma build_labels_unmodified_refuted :
  _build_imagenet_labels sample_files "one.txt" "absent.txt" 1
    = Raise (FileNotFoundError "absent.txt")
  /\ ~ (forall (fs : FileSystem) (synsets_path metadata_path : string)
           (synsets : list string),
          _load_synsets fs synsets_path = Ok (Some synsets) ->
          synsets <> [] ->
          _build_imagenet_labels fs synsets_path metadata_path (len synsets)
            = Ok (Some synsets)).
Proof.
  split; [vm_compute; reflexivity |].
  intros Hclaim.
  specialize (Hclaim sample_files "one.txt" "one_metadata.txt" ["n01751748"]
                eq_refl ltac:(discriminate)).
  vm_compute in Hclaim. discriminate Hclaim.
Qed.

(** Claim C7, as amended. With an empty metadata path the loader yields the
    empty mapping and does not raise, whatever the files; with a non-empty
    path that names no file, the error of [open] is raised. *)
Theorem load_metadata_missing (fs : FileSystem) (metadata_path : string) :
  fs !! metadata_path = None ->
  (metadata_path = "" -> _load_metadata fs metadata_path = Ok ∅)
  /\ (metadata_path <> "" ->
      _load_metadata fs metadata_path = Raise (FileNotFoundError metadata_path))
  /\ (_load_metadata fs metadata_path = Ok ∅ <-> metadata_path = "").
Proof.
  intros Hmissing. unfold _load_metadata, open_lines. rewrite Hmissing.
  destruct (str_empty metadata_path) eqn:Hempty.
  - apply str_empty_spec in Hempty. subst metadata_path.
    split; [reflexivity |]. split; [congruence |]. split; reflexivity.
  - assert (Hne : metadata_path <> "").
    { intros Heq. apply str_empty_spec in Heq. congruence. }
    cbn [mbind result_bind].
    split; [contradiction |]. split; [reflexivity |].
    split; [discriminate | contradiction].
Qed.

(** No path, no mapping; a path to nowhere, an error. *)
Lemma load_metadata_missing_paths :
  _load_metadata sample_files "" = Ok ∅
  /\ _load_metadata sample_files "imagenet_metadata.txt"
     = Raise (FileNotFoundError "imagenet_metadata.txt").
Proof.
  split.
  - apply (load_metadata_missing sample_files "" eq_refl). reflexivity.
  - apply (load_metadata_missing sample_files "imagenet_metadata.txt" eq_refl).
    discriminate.
Defined.

(** Claim C7 as stated fails: a missing file under a non-empty path does not
    yield the empty mapping, the loader raises. *)
Lemma load_metadata_missing_file_refuted :
  ~ (forall (fs : FileSystem) (metadata_path : string),
       fs !! metadata_path = None -> _load_metadata fs metadata_path = Ok ∅).
Proof.
  intros Hclaim.
  specialize (Hclaim ∅ "imagenet_metadata.txt" eq_refl).
  vm_compute in Hclaim. discriminate Hclaim.
Qed.

(** Claim C9, as amended. Every entry of the label table is built from the
    class identifier at the same position of the reconciled list: the
    identifier, a space and the mapped human label when the mapping holds
    the identifier with a value that differs from it, and the identifier
    alone otherwise. *)
Theorem build_labels_entries (fs : FileSystem)
    (synsets_path metadata_path : string) (output_size : Z)
    (labels : list string) :
  _build_imagenet_labels fs synsets_path metadata_path output_size
    = Ok (Some labels) ->
  exists (loaded reconciled : list string) (metadata : gmap string string),
    _load_synsets fs synsets_path = Ok (Some loaded)
    /\ _load_metadata fs metadata_path = Ok metadata
    /\ (reconciled = loaded \/ reconciled = "background" :: loaded)
    /\ length labels = length reconciled
    /\ forall (i : nat) (synset : string),
         reconciled !! i = Some synset ->
         labels !! i =
           Some match metadata !! synset with
                | Some human =>
                    if bool_decide (human ≠ synset)
                    then synset +:+ " " +:+ human
                    else synset
                | None => synset
                end.
Proof.
  intros Hbuild. unfold _build_imagenet_labels in Hbuild.
  destruct (_load_synsets fs synsets_path) as [[loaded|]|e] eqn:Hload;
    cbn [mbind result_bind] in Hbuild; try discriminate.
  destruct loaded as [|s0 loaded']; [discriminate |].
  set (loaded := s0 :: loaded') in *.
  set (reconciled :=
         if output_size =? len loaded + 1 then "background" :: loaded else loaded)
    in *.
  destruct (negb (output_size =? len reconciled)); [discriminate |].
  destruct (_load_metadata fs metadata_path) as [metadata|e] eqn:Hmeta;
    cbn [mbind result_bind] in Hbuild; [| discriminate].
  injection Hbuild as <-.
  exists loaded, reconciled, metadata.
  split; [reflexivity |]. split; [reflexivity |].
  split; [subst reconciled; destruct (output_size =? len loaded + 1); auto |].
  split; [apply length_map |].
  intros i synset Hi.
  change (List.map (label_entry metadata) reconciled)
    with (label_entry metadata <$> reconciled).
  rewrite list_lookup_fmap, Hi. cbn. f_equal.
  unfold label_entry. destruct (metadata !! synset) as [human|]; cbn.
  - reflexivity.
  - rewrite bool_decide_eq_false_2; [reflexivity | intros Hne; apply Hne; reflexivity].
Qed.

(** The synset n01751748 with the metadata line "n01751748<TAB>sea snake". *)
Lemma build_labels_entries_sea_snake :
  exists (loaded reconciled : list string) (metadata : gmap string string),
    _load_synsets sample_files "one.txt" = Ok (Some loaded)
    /\ _load_metadata sample_files "one_metadata.txt" = Ok metadata
    /\ (reconciled = loaded \/ reconciled = "background" :: loaded)
    /\ length ["background"; "n01751748 sea snake"] = length reconciled
    /\ forall (i : nat) (synset : string),
         reconciled !! i = Some synset ->
         ["background"; "n01751748 sea snake"] !! i =
           Some match metadata !! synset with
                | Some human =>
                    if bool_decide (human ≠ synset)
                    then synset +:+ " " +:+ human
                    else synset
                | None => synset
                end.
Proof.
  apply (build_labels_entries sample_files "one.txt" "one_metadata.txt" 2).
  vm_compute. reflexivity.
Defined.

(** Claim C9 as stated fails: the entry of a mapped identifier is not the
    human label alone, the identifier stays in front of it. *)
Lemma build_labels_entry_refuted :
  _build_imagenet_labels sample_files "one.txt" "one_metadata.txt" 1
    = Ok (Some ["n01751748 sea snake"])
  /\ _load_metadata sample_files "one_metadata.txt"
    = Ok {[ "n01751748" := "sea snake" ]}
  /\ ~ (forall (metadata : gmap string string) (synset : string),
          label_entry metadata synset = default synset (metadata !! synset)).
Proof.
  split; [vm_compute; reflexivity |]. split; [vm_compute; reflexivity |].
  intros Hclaim.
  specialize (Hclaim {[ "n01751748" := "sea snake" ]} "n01751748").
  vm_compute in Hclaim. discriminate Hclaim.
Qed.

(** ** Top-k reporting *)

Lemma label_of_index_ok (labels : option (list string)) (idx : nat) :
  label_of_index labels idx = Ok (label_or_synthetic labels idx).
Proof.
  unfold label_of_index, label_or_synthetic.
  destruct labels as [[|l0 table]|]; [reflexivity | | reflexivity].
  unfold len. destruct (Z.ltb_spec (Z.of_nat idx) (Z.of_nat (length (l0 :: table)))).
  - destruct (lookup_lt_is_Some_2 (l0 :: table) idx ltac:(lia)) as [label Hlabel].
    rewrite Hlabel. apply py_index_lookup. exact Hlabel.
  - rewrite (lookup_ge_None_2 (l0 :: table) idx) by lia. reflexivity.
Qed.

Section TopKProofs.
Context {score : Type} `{Numpy score}.

Lemma argsort_length (flat : list score) : length (argsort flat) = length flat.
Proof. rewrite (argsort_indices flat). apply length_seq. Qed.

Lemma argsort_in_range (flat : list score) (idx : nat) :
  idx ∈ argsort flat -> (idx < length flat)%nat.
Proof.
  rewrite (argsort_indices flat). rewrite elem_of_seq. lia.
Qed.

Lemma py_slice_from_length {A} (l : list A) (k : Z) :
  k <= len l ->
  len (py_slice_from l (- k)) = if 0 <? k then k else len l - Z.min (- k) (len l).
Proof.
  unfold py_slice_from, len. intros Hk. rewrite length_drop.
  destruct (Z.ltb_spec (- k) 0); destruct (Z.ltb_spec 0 k); lia.
Qed.

(** The indices of the report exist, lie in the vector, and are [top_k] in
    number once [top_k] is clamped. *)
Lemma topk_indices_ok (flat : list score) (top_k : Z) :
  exists indices,
    topk_indices flat top_k = Ok indices
    /\ (forall idx, idx ∈ indices -> (idx < length flat)%nat)
    /\ (length indices <= length flat)%nat
    /\ (1 <= top_k -> len indices = Z.min top_k (len flat)).
Proof.
  unfold topk_indices. cbv zeta.
  destruct (Z.eqb_spec (Z.min top_k (len flat)) 1) as [Hone|Hmany].
  - assert (Hne : flat <> []).
    { intros ->. unfold len in Hone. cbn in Hone. lia. }
    destruct (argmax_index flat Hne) as (i & -> & Hi).
    exists [i]. cbn [mbind result_bind]. split; [reflexivity |].
    split; [intros idx Hidx; apply list_elem_of_singleton in Hidx; subst; exact Hi |].
    split; [cbn; lia |].
    intros _. unfold len in *. cbn [length]. lia.
  - eexists. split; [reflexivity |].
    split; [| split].
    + intros idx Hidx. apply list_elem_of_In, in_rev, list_elem_of_In in Hidx.
      apply argsort_in_range. unfold py_slice_from in Hidx.
      eapply elem_of_sublist; [exact Hidx | apply sublist_drop].
    + rewrite length_rev. unfold py_slice_from. rewrite length_drop, argsort_length. lia.
    + intros Hk.
      assert (Hle : Z.min top_k (len flat) <= len (argsort flat)).
      { unfold len. rewrite argsort_length. lia. }
      pose proof (py_slice_from_length (argsort flat) _ Hle) as Hslice.
      unfold len in *. rewrite length_rev, Hslice, argsort_length.
      destruct (Z.ltb_spec 0 (Z.min top_k (Z.of_nat (length flat)))); lia.
Qed.

End TopKProofs.

Lemma traverse_each_ok {A B} (f : A -> result B) (P : A -> B -> Prop) (l : list A) :
  (forall x, x ∈ l -> exists y, f x = Ok y /\ P x y) ->
  exists l', traverse f l = Ok l' /\ Forall2 P l l'.
Proof.
  induction l as [|x l IH]; intros Hok.
  - exists []. split; [reflexivity | constructor].
  - destruct (Hok x ltac:(left)) as (y & Hy & HP).
    destruct IH as (l' & Hl' & HF); [intros z Hz; apply Hok; right; exact Hz |].
    exists (y :: l'). cbn. rewrite Hy. cbn. rewrite Hl'. cbn.
    split; [reflexivity | constructor; assumption].
Qed.

(** Claim C10. Whatever the scores, the label table and the requested [k],
    [_print_topk] prints without raising: it reports at most as many lines
    as the vector has scores, [min k (length)] of them when [k >= 1]; every
    reported index lies in the vector, and its label is the table's entry at
    that index when the table has one, and the synthetic name
    "class_<index>" when the index is at or beyond the table's length or
    the table is absent. *)
Theorem print_topk_in_range {score : Type} `{Numpy score} (scores : list score)
    (labels : option (list string)) (top_k : Z) :
  exists lines : list (TopkLine score),
    _print_topk scores labels top_k = Ok lines
    /\ (length lines <= length scores)%nat
    /\ (1 <= top_k -> len lines = Z.min top_k (len scores))
    /\ Forall (fun line => exists idx, reports scores labels idx line) lines
    /\ (forall idx line,
          reports scores labels idx line ->
          match labels with
          | Some table =>
              ((idx < length table)%nat -> table !! idx = Some (line_label line))
              /\ ((length table <= idx)%nat ->
                  line_label line = "class_" +:+ pretty idx)
          | None => line_label line = "class_" +:+ pretty idx
          end).
Proof.
  destruct (topk_indices_ok scores top_k) as (indices & Hind & Hrange & Hlen & Hk).
  unfold _print_topk. cbv zeta. rewrite Hind. cbn [mbind result_bind].
  destruct (traverse_each_ok (topk_line scores labels)
              (fun entry line => reports scores labels entry.2 line)
              (zip (seq 1 (length indices)) indices)) as (lines & -> & Hlines).
  { intros [rank idx] Hentry.
    assert (Hidx : (idx < length scores)%nat).
    { apply Hrange. apply elem_of_zip_r in Hentry. exact Hentry. }
    destruct (lookup_lt_is_Some_2 scores idx Hidx) as [s Hs].
    exists {| line_rank := rank; line_label := label_or_synthetic labels idx;
              line_score := s |}.
    split.
    - unfold topk_line. rewrite label_of_index_ok. cbn [mbind result_bind].
      rewrite (py_index_lookup scores idx s Hs). reflexivity.
    - split; [exact Hidx |]. split; [exact Hs | reflexivity]. }
  assert (Hsame : length lines = length indices).
  { apply Forall2_length in Hlines. rewrite <- Hlines.
    rewrite length_zip_with, length_seq. lia. }
  exists lines. split; [reflexivity |].
  split; [lia |]. split; [unfold len in *; rewrite Hsame; exact Hk |].
  split.
  - apply Forall_forall. intros line Hline.
    apply list_elem_of_lookup in Hline as [i Hi].
    destruct (Forall2_lookup_r _ _ _ _ _ Hlines Hi) as ([rank idx] & _ & Hrep).
    exists idx. exact Hrep.
  - intros idx line (_ & _ & Hlabel). rewrite Hlabel. unfold label_or_synthetic.
    destruct labels as [table|]; [| reflexivity]. split.
    + intros Hlt. destruct (lookup_lt_is_Some_2 table idx Hlt) as [l ->]. reflexivity.
    + intros Hge. rewrite (lookup_ge_None_2 table idx Hge). reflexivity.
Qed.

(** The integer scores of [ZScores] meet the contract, so the report on them
    prints in range. *)
Lemma print_topk_in_range_Z :
  exists lines : list (TopkLine Z),
    _print_topk [10; 50; 20; 40] (Some ["tench"; "goldfish"]) 3 = Ok lines
    /\ (length lines <= 4)%nat
    /\ len lines = 3.
Proof.
  destruct (print_topk_in_range [10; 50; 20; 40] (Some ["tench"; "goldfish"]) 3)
    as (lines & Hprint & Hle & Hk & _).
  exists lines. split; [exact Hprint |]. split; [exact Hle |].
  apply Hk. discriminate.
Defined.

(** Four scores and a table of two labels: the three best, best first; the
    indices beyond the table get synthetic names. A request for one line takes
    the [argmax] path, a request for more lines than scores is clamped, and
    a request for no line slices the whole vector ([-0:]). *)
Example print_topk_sample :
  _print_topk [10; 50; 20; 40] (Some ["tench"; "goldfish"]) 3
    = Ok [ {| line_rank := 1; line_label := "goldfish"; line_score := 50 |};
           {| line_rank := 2; line_label := "class_3"; line_score := 40 |};
           {| line_rank := 3; line_label := "class_2"; line_score := 20 |} ]
  /\ _print_topk [10; 50; 20; 40] None 1
    = Ok [ {| line_rank := 1; line_label := "class_1"; line_score := 50 |} ]
  /\ match _print_topk [10; 50; 20; 40] (Some []) 9 with
     | Ok lines => line_label <$> lines
     | Raise _ => []
     end = ["class_1"; "class_3"; "class_2"; "class_0"]
  /\ _print_topk ([] : list Z) (Some ["tench"]) 5 = Ok []
  /\ match _print_topk [10; 50; 20; 40] None 0 with
     | Ok lines => line_label <$> lines
     | Raise _ => []
     end = ["class_1"; "class_3"; "class_2"; "class_0"].
Proof. repeat split; vm_compute; reflexivity. Qed.

(** ** Strings: what [in] and [os.path.basename] compute *)

Lemma append_cons (c : ascii) (a b : string) :
  String c a +:+ b = String c (a +:+ b).
Proof. reflexivity. Qed.

Lemma prefix_app_iff (p s : string) :
  String.prefix p s = true <-> exists b, s = p +:+ b.
Proof.
  revert s. induction p as [|a p IH]; intros s.
  - split; [intros _; exists s; reflexivity | intros _; destruct s; reflexivity].
  - destruct s as [|c s]; cbn.
    { split; [discriminate | intros [b Hb]; rewrite append_cons in Hb; discriminate]. }
    destruct (ascii_dec a c) as [Heq|Hne].
    + subst c. rewrite IH. split; intros [b Hb]; exists b.
      * rewrite append_cons, Hb. reflexivity.
      * rewrite append_cons in Hb. congruence.
    + split; [discriminate |]. intros [b Hb]. rewrite append_cons in Hb. congruence.
Qed.

(** [str_contains] finds exactly the strings that hold the pattern. *)
Lemma str_contains_spec (pat s : string) :
  str_contains pat s = true <-> exists a b, s = a +:+ pat +:+ b.
Proof.
  induction s as [|c s IH]; cbn [str_contains].
  - destruct (String.prefix pat "") eqn:Hp.
    + apply prefix_app_iff in Hp as [b Hb].
      split; [intros _; exists "", b; exact Hb | reflexivity].
    + split; [discriminate |]. intros (a & b & Hs).
      destruct a; [| rewrite append_cons in Hs; discriminate].
      assert (String.prefix pat "" = true) by (apply prefix_app_iff; eauto).
      congruence.
  - destruct (String.prefix pat (String c s)) eqn:Hp.
    + apply prefix_app_iff in Hp as [b Hb].
      split; [intros _; exists "", b; exact Hb | reflexivity].
    + rewrite IH. split.
      * intros (a & b & ->). exists (String c a), b. reflexivity.
      * intros (a & b & Hs). destruct a as [|c' a].
        -- assert (String.prefix pat (String c s) = true)
             by (apply prefix_app_iff; eauto).
           congruence.
        -- rewrite append_cons in Hs. injection Hs as -> ->. eauto.
Qed.

Lemma has_slash_app (a b : string) :
  has_slash (a +:+ b) = has_slash a || has_slash b.
Proof.
  induction a as [|c a IH]; [reflexivity |].
  rewrite append_cons. cbn [has_slash]. rewrite IH. apply orb_assoc.
Qed.

Lemma append_assoc (a b c : string) : (a +:+ b) +:+ c = a +:+ b +:+ c.
Proof.
  induction a as [|x a IH]; [reflexivity |].
  rewrite !append_cons, IH. reflexivity.
Qed.

Lemma append_nil_r (a : string) : a +:+ "" = a.
Proof.
  induction a as [|x a IH]; [reflexivity |].
  rewrite append_cons, IH. reflexivity.
Qed.

Lemma basename_go_spec (s : string) :
  forall pre t,
    ends_dir pre -> has_slash t = false ->
    exists dir,
      pre +:+ t +:+ s = dir +:+ basename_go (t +:+ s) s
      /\ ends_dir dir
      /\ has_slash (basename_go (t +:+ s) s) = false.
Proof.
  induction s as [|c s IH]; intros pre t Hpre Ht.
  - exists pre. cbn [basename_go]. rewrite append_nil_r. auto.
  - cbn [basename_go]. destruct (Ascii.eqb_spec c "/") as [->|Hc].
    + destruct (IH ((pre +:+ t) +:+ "/") "") as (dir & Hdir & Hends & Hno).
      * right. exists (pre +:+ t). reflexivity.
      * reflexivity.
      * change ("" +:+ s) with s in Hdir, Hno.
        exists dir. split; [| split; assumption].
        rewrite <- Hdir. rewrite !append_assoc. reflexivity.
    + destruct (IH pre (t +:+ String c "")) as (dir & Hdir & Hends & Hno).
      * exact Hpre.
      * rewrite has_slash_app. rewrite Ht. cbn [has_slash orb].
        destruct (Ascii.eqb_spec c "/"); [contradiction | reflexivity].
      * rewrite append_assoc in Hdir, Hno.
        change (String c "" +:+ s) with (String c s) in Hdir, Hno.
        exists dir. auto.
Qed.

(** [basename] keeps what follows the last slash of the path. *)
Lemma basename_spec (p : string) :
  exists dir,
    p = dir +:+ basename p /\ ends_dir dir /\ has_slash (basename p) = false.
Proof.
  destruct (basename_go_spec p "" "") as (dir & Hdir & Hends & Hno);
    [left; reflexivity | reflexivity |].
  exists dir. auto.
Qed.

(** ** Preprocessing selection

    The division by 0.875 is carried out in binary64. The lemmas below follow
    an integer below 2^53 through [float], the division and [round]: the
    quotient the hardware returns lies within two units in the last place
    of 8m/7, close enough for [round] to land on the integer nearest to 8m/7
    as long as m stays below 2^48. *)

(** [digits2_pos] counts the bits of a positive number. *)
Lemma digits2_pos_bounds (p : positive) :
  2 ^ (Z.pos (digits2_pos p) - 1) <= Z.pos p < 2 ^ Z.pos (digits2_pos p).
Proof.
  induction p as [p IH|p IH|]; cbn [digits2_pos].
  - rewrite Pos2Z.inj_succ. replace (Z.succ (Z.pos (digits2_pos p)) - 1) with (Z.succ (Z.pos (digits2_pos p) - 1)) by lia.
    rewrite !Z.pow_succ_r by lia. lia.
  - rewrite Pos2Z.inj_succ. replace (Z.succ (Z.pos (digits2_pos p)) - 1) with (Z.succ (Z.pos (digits2_pos p) - 1)) by lia.
    rewrite !Z.pow_succ_r by lia. lia.
  - cbn. lia.
Qed.

Lemma Zdigits2_unique (m k : Z) :
  0 < k -> 2 ^ (k - 1) <= m < 2 ^ k -> Zdigits2 m = k.
Proof.
  intros Hk Hm. assert (0 < m) by (pose proof (Z.pow_pos_nonneg 2 (k - 1)); lia).
  destruct m as [|p|p]; try lia. cbn [Zdigits2].
  pose proof (digits2_pos_bounds p) as Hp.
  set (d := Z.pos (digits2_pos p)) in *.
  assert (Hd : 0 < d) by (subst d; lia).
  destruct (Z.lt_trichotomy d k) as [Hlt|[Heq|Hgt]]; [|exact Heq|].
  - assert (2 ^ d <= 2 ^ (k - 1)) by (apply Z.pow_le_mono_r; lia). lia.
  - assert (2 ^ k <= 2 ^ (d - 1)) by (apply Z.pow_le_mono_r; lia). lia.
Qed.

Lemma shr_fexp_53 (m e : Z) (l : location) :
  2 ^ 52 <= m < 2 ^ 53 -> -1074 <= e ->
  shr_fexp 53 1024 m e l = (shr_record_of_loc m l, e).
Proof.
  intros Hm He. unfold shr_fexp.
  rewrite (Zdigits2_unique m 53) by lia.
  replace (fexp 53 1024 (53 + e) - e) with 0 by (unfold fexp, emin; lia).
  reflexivity.
Qed.

Lemma shr_fexp_54 (m e : Z) (l : location) :
  2 ^ 53 <= m < 2 ^ 54 -> -1075 <= e ->
  shr_fexp 53 1024 m e l = (shr_1 (shr_record_of_loc m l), e + 1).
Proof.
  intros Hm He. unfold shr_fexp.
  rewrite (Zdigits2_unique m 54) by lia.
  replace (fexp 53 1024 (54 + e) - e) with 1 by (unfold fexp, emin; lia).
  reflexivity.
Qed.

Lemma shr_m_shr_1 (m : Z) (l : location) :
  0 <= m -> shr_m (shr_1 (shr_record_of_loc m l)) = m / 2.
Proof.
  intros Hm. destruct l as [|[| |]]; destruct m as [|[p|p|]|p]; try lia; cbn [shr_record_of_loc shr_1 shr_m];
  try reflexivity.
  all: try (apply Z.div_unique with 1; lia).
  all: apply Z.div_unique with 0; lia.
Qed.

Lemma round_nearest_even_bounds (m : Z) (l : location) :
  m <= round_nearest_even m l <= m + 1.
Proof.
  unfold round_nearest_even. destruct l as [|[| |]]; try lia.
  destruct (Z.even m); lia.
Qed.

Lemma loc_of_shr_record_of_loc (m : Z) (l : location) :
  loc_of_shr_record (shr_record_of_loc m l) = l.
Proof. destruct l as [|[| |]]; reflexivity. Qed.

Lemma shr_m_record_of_loc (m : Z) (l : location) :
  shr_m (shr_record_of_loc m l) = m.
Proof. destruct l as [|[| |]]; reflexivity. Qed.

(** The second normalisation of [binary_round_aux] on a rounded significand. *)
Lemma renormalise (m e : Z) :
  2 ^ 52 <= m <= 2 ^ 53 -> -1074 <= e <= 969 ->
  exists (m' : positive) (j : Z),
    (let '(mrs, e') := shr_fexp 53 1024 m e loc_Exact in
     match shr_m mrs with
     | Z0 => S754_zero false
     | Zpos m' => if e' <=? 1024 - 53 then S754_finite false m' e' else S754_infinity false
     | Zneg _ => S754_nan
     end) = S754_finite false m' (e + j)
    /\ 0 <= j <= 1 /\ Z.pos m' * 2 ^ j = m.
Proof.
  intros Hm He.
  destruct (Z.eq_dec m (2 ^ 53)) as [->|Hne].
  - rewrite shr_fexp_54 by lia. cbn [shr_record_of_loc shr_1 shr_m].
    exists (Z.to_pos (2 ^ 52)), 1.
    destruct (Z.leb_spec (e + 1) (1024 - 53)); [|lia].
    split; [reflexivity | split; [lia | reflexivity]].
  - rewrite shr_fexp_53 by lia. cbn [shr_record_of_loc shr_m].
    destruct m as [|p|p]; try lia.
    exists p, 0.
    destruct (Z.leb_spec e (1024 - 53)); [|lia].
    rewrite Z.add_0_r. split; [reflexivity | split; lia].
Qed.

Lemma binary_round_aux_enclosure (mx ex : Z) (lx : location) :
  2 ^ 52 <= mx < 2 ^ 54 -> -1074 <= ex <= 960 ->
  exists (m' : positive) (j : Z),
    binary_round_aux 53 1024 false mx ex lx = S754_finite false m' (ex + j)
    /\ 0 <= j <= 2 /\ mx - 1 <= Z.pos m' * 2 ^ j <= mx + 2.
Proof.
  intros Hmx Hex. unfold binary_round_aux.
  destruct (Z.lt_ge_cases mx (2 ^ 53)) as [Hlt|Hge].
  - rewrite shr_fexp_53 by lia.
    rewrite loc_of_shr_record_of_loc, shr_m_record_of_loc.
    pose proof (round_nearest_even_bounds mx lx) as Hr.
    destruct (renormalise (round_nearest_even mx lx) ex) as (m' & j & -> & Hj & Hv);
      [lia | lia |].
    exists m', j. split; [reflexivity |]. split; lia.
  - rewrite shr_fexp_54 by lia.
    set (mrs := shr_1 (shr_record_of_loc mx lx)).
    assert (Hhalf : shr_m mrs = mx / 2) by (apply shr_m_shr_1; lia).
    rewrite Hhalf.
    pose proof (round_nearest_even_bounds (mx / 2) (loc_of_shr_record mrs)) as Hr.
    assert (2 ^ 52 <= mx / 2 < 2 ^ 53).
    { split; [apply Z.div_le_lower_bound | apply Z.div_lt_upper_bound]; lia. }
    destruct (renormalise (round_nearest_even (mx / 2) (loc_of_shr_record mrs)) (ex + 1))
      as (m' & j & -> & Hj & Hv); [lia | lia |].
    exists m', (1 + j). split; [f_equal; lia |]. split; [lia |].
    rewrite Z.pow_add_r by lia. 
    pose proof (Z.div_mod mx 2 ltac:(lia)). pose proof (Z.mod_pos_bound mx 2 ltac:(lia)).
    change (2 ^ 1) with 2. nia.
Qed.

Lemma binary_round_aux_exact (m e : Z) :
  2 ^ 52 <= m < 2 ^ 53 -> -1074 <= e <= 971 ->
  binary_round_aux 53 1024 false m e loc_Exact = S754_finite false (Z.to_pos m) e.
Proof.
  intros Hm He. unfold binary_round_aux.
  rewrite shr_fexp_53 by lia. cbn [shr_record_of_loc shr_m loc_of_shr_record round_nearest_even].
  rewrite shr_fexp_53 by lia. cbn [shr_record_of_loc shr_m].
  destruct m as [|p|p]; try lia.
  destruct (Z.leb_spec e (1024 - 53)); [reflexivity | lia].
Qed.

Lemma iter_xO_pow2 (p q : positive) :
  Z.pos (Pos.iter xO p q) = Z.pos p * 2 ^ Z.pos q.
Proof.
  induction q as [|q IH] using Pos.peano_ind.
  - cbn [Pos.iter]. lia.
  - rewrite Pos.iter_succ, Pos2Z.inj_xO, IH, Pos2Z.inj_succ, Z.pow_succ_r by lia. lia.
Qed.

Lemma binary_normalize_small (m : Z) :
  1 <= m < 2 ^ 53 ->
  exists (m1 : positive) (k : Z),
    binary_normalize 53 1024 m 0 false = S754_finite false m1 (- k)
    /\ 0 <= k <= 52 /\ Z.pos m1 = m * 2 ^ k /\ 2 ^ 52 <= Z.pos m1 < 2 ^ 53.
Proof.
  intros Hm. destruct m as [|p|p]; try lia. cbn [binary_normalize].
  unfold binary_round.
  pose proof (digits2_pos_bounds p) as Hd.
  set (d := Z.pos (digits2_pos p)) in *.
  assert (Hd53 : 1 <= d <= 53).
  { split; [subst d; lia |].
    destruct (Z.le_gt_cases d 53) as [|Hgt]; [assumption |].
    assert (2 ^ 53 <= 2 ^ (d - 1)) by (apply Z.pow_le_mono_r; lia). lia. }
  replace (fexp 53 1024 (d + 0)) with (d - 53) by (unfold fexp, emin; lia).
  unfold shl_align.
  destruct (d - 53 - 0) as [|q|q] eqn:Hq; try lia.
  - assert (Hd' : d = 53) by lia. rewrite Hd' in Hd.
    rewrite binary_round_aux_exact by (change (53 - 1) with 52 in Hd; lia).
    exists p, 0. change (- 0) with 0. split; [reflexivity |].
    change (53 - 1) with 52 in Hd. lia.
  - assert (Hk : d - 53 = - Z.pos q) by lia.
    assert (Hpow : 2 ^ (d - 1) * 2 ^ Z.pos q = 2 ^ 52).
    { rewrite <- Z.pow_add_r by lia. f_equal. lia. }
    assert (Hpow' : 2 ^ d * 2 ^ Z.pos q = 2 ^ 53).
    { rewrite <- Z.pow_add_r by lia. f_equal. lia. }
    assert (Hpos : 0 < 2 ^ Z.pos q) by (apply Z.pow_pos_nonneg; lia).
    pose proof (iter_xO_pow2 p q) as Hiter.
    rewrite Hk.
    rewrite binary_round_aux_exact by (rewrite ?Hiter; nia).
    exists (Pos.iter xO p q), (Z.pos q).
    rewrite Pos2Z.id. split; [reflexivity |]. split; [lia |]. split; [exact Hiter |].
    rewrite Hiter. nia.
Qed.

Lemma SFdiv_by_0_875 (m1 : positive) (e1 : Z) :
  2 ^ 52 <= Z.pos m1 < 2 ^ 53 -> -52 <= e1 <= 0 ->
  exists (q : Z) (l : location),
    SFdiv 53 1024 (S754_finite false m1 e1) float_0_875
      = binary_round_aux 53 1024 false q e1 l
    /\ 7 * q <= 8 * Z.pos m1 < 7 * q + 7.
Proof.
  intros Hm He. unfold SFdiv, float_0_875. cbn [xorb].
  unfold SFdiv_core_binary.
  rewrite (Zdigits2_unique (Z.pos m1) 53) by lia.
  change (Zdigits2 (Z.pos 7881299347898368)) with 53.
  replace (Z.min (fexp 53 1024 (53 + e1 - (53 + -53))) (e1 - -53)) with e1
    by (unfold fexp, emin; lia).
  replace (e1 - -53 - e1) with 53 by lia.
  rewrite Z.shiftl_mul_pow2 by lia.
  pose proof (Z_div_mod (Z.pos m1 * 2 ^ 53) (Z.pos 7881299347898368) ltac:(lia)) as Hdiv.
  destruct (Z.div_eucl (Z.pos m1 * 2 ^ 53) (Z.pos 7881299347898368)) as [q r].
  exists q, (new_location (Z.pos 7881299347898368) r).
  split; [reflexivity |]. lia.
Qed.

Lemma shift_round_half_even_near (m k : Z) :
  0 <= k ->
  2 * Z.abs (shift_round_half_even m k * 2 ^ k - m) <= 2 ^ k.
Proof.
  intros Hk. unfold shift_round_half_even.
  assert (Hpos : 0 < 2 ^ k) by (apply Z.pow_pos_nonneg; lia).
  pose proof (Z.div_mod m (2 ^ k) ltac:(lia)) as Hdm.
  pose proof (Z.mod_pos_bound m (2 ^ k) Hpos) as Hr.
  set (q := m / 2 ^ k) in *. set (r := m mod 2 ^ k) in *. set (K := 2 ^ k) in *.
  destruct (Z.compare_spec (2 * r) K) as [Heq|Hlt|Hgt].
  - destruct (Z.even q); nia.
  - nia.
  - nia.
Qed.

(** [int(round(m / 0.875))] is the integer nearest to 8m/7. *)
Lemma round_div_0_875 (m : Z) :
  1 <= m < 2 ^ 48 ->
  (quotient ← py_truediv m float_0_875; py_round quotient) = Ok ((16 * m + 7) / 14).
Proof.
  intros Hm. unfold py_truediv, py_float_of_int.
  destruct (binary_normalize_small m ltac:(lia)) as (m1 & k & -> & Hk & Hm1 & Hm1r).
  cbn [mbind result_bind float_0_875].
  change (S754_finite false 7881299347898368 (-53)) with float_0_875.
  destruct (SFdiv_by_0_875 m1 (- k) Hm1r ltac:(lia)) as (q & l & -> & Hq).
  destruct (binary_round_aux_enclosure q (- k) l ltac:(lia) ltac:(lia))
    as (m' & j & -> & Hj & Hv).
  assert (Hk5 : 5 <= k).
  { destruct (Z.le_gt_cases 5 k) as [|Hlt]; [assumption |].
    assert (2 ^ k <= 2 ^ 4) by (apply Z.pow_le_mono_r; lia).
    change (2 ^ 4) with 16 in *. change (2 ^ 48) with 281474976710656 in *.
    change (2 ^ 52) with 4503599627370496 in *. nia. }
  cbn [py_round].
  destruct (Z.leb_spec 0 (- k + j)) as [|_]; [lia |].
  replace (- (- k + j)) with (k - j) by lia.
  pose proof (shift_round_half_even_near (Z.pos m') (k - j) ltac:(lia)) as Hnear.
  set (n := shift_round_half_even (Z.pos m') (k - j)) in *.
  f_equal.
  assert (HP : 2 ^ k = 2 ^ (k - j) * 2 ^ j).
  { rewrite <- Z.pow_add_r by lia. f_equal. lia. }
  assert (H32 : 32 <= 2 ^ k).
  { change 32 with (2 ^ 5). apply Z.pow_le_mono_r; lia. }
  assert (Hj1 : 1 <= 2 ^ j) by (pose proof (Z.pow_pos_nonneg 2 j); lia).
  assert (HK1 : 1 <= 2 ^ (k - j)) by (pose proof (Z.pow_pos_nonneg 2 (k - j)); lia).
  set (P := 2 ^ k) in *. set (K := 2 ^ (k - j)) in *. set (J := 2 ^ j) in *.
  set (v := Z.pos m') in *. set (a := Z.pos m1) in *.
  (* t * P lies within 7 * P + 28 of zero, for t = 14 * n - 16 * m *)
  assert (Hscaled : - (7 * P + 28) <= (14 * n - 16 * m) * P <= 7 * P + 28).
  { assert (Hnk : - K <= 2 * (n * K - v) <= K) by lia.
    assert (HnP : - P <= 2 * (n * P - v * J) <= P) by nia.
    nia. }
  assert (Ht : -7 <= 14 * n - 16 * m <= 7) by nia.
  apply Z.div_unique with (16 * m + 7 - 14 * n); lia.
Qed.

(** Claim C8. When the lower-cased base name of the model path contains none
    of the four family patterns, and the inferred height and width are below
    2^48, the selected config has as crop height and width the inferred ones,
    with 224 in place of a component that is not positive; as resize size
    the larger crop component divided by 0.875 and rounded to the nearest
    integer (the crop size itself when the crop is square); the ImageNet
    mean [0.485, 0.456, 0.406] and std [0.229, 0.224, 0.225]; and bilinear
    resampling. *)
Theorem pick_preprocess_config_generic (model_path : string)
    (input_height input_width : Z) :
  str_contains "efficientnet_v2_s" (lower (basename model_path)) = false ->
  str_contains "efficientnet_v2_m" (lower (basename model_path)) = false ->
  str_contains "efficientnet_v2_l" (lower (basename model_path)) = false ->
  str_contains "efficientnet_b" (lower (basename model_path)) = false ->
  input_height < 2 ^ 48 -> input_width < 2 ^ 48 ->
  exists config : PreprocessConfig,
    _pick_preprocess_config model_path input_height input_width = Ok config
    /\ crop_height config = (if 0 <? input_height then input_height else 224)
    /\ crop_width config = (if 0 <? input_width then input_width else 224)
    /\ resize_size config
       = (16 * Z.max (crop_height config) (crop_width config) + 7) / 14
    /\ 2 * Z.abs (7 * resize_size config
                  - 8 * Z.max (crop_height config) (crop_width config)) < 7
    /\ mean config = [0.485; 0.456; 0.406]%Q
    /\ std config = [0.229; 0.224; 0.225]%Q
    /\ resample config = BILINEAR.
Proof.
  intros Hs Hm Hl Hb Hh Hw. unfold _pick_preprocess_config. cbv zeta.
  rewrite Hs, Hm, Hl, Hb.
  set (ch := if 0 <? input_height then input_height else 224).
  set (cw := if 0 <? input_width then input_width else 224).
  assert (Hch : 1 <= ch < 2 ^ 48).
  { subst ch. destruct (Z.ltb_spec 0 input_height); lia. }
  assert (Hcw : 1 <= cw < 2 ^ 48).
  { subst cw. destruct (Z.ltb_spec 0 input_width); lia. }
  pose proof (round_div_0_875 (Z.max ch cw) ltac:(lia)) as Hround.
  destruct (py_truediv (Z.max ch cw) float_0_875) as [quotient|e];
    cbn [mbind result_bind] in Hround |- *; [| discriminate].
  rewrite Hround. cbn [mbind result_bind].
  eexists. split; [reflexivity |].
  cbn [crop_height crop_width resize_size mean std resample].
  repeat (split; [reflexivity |]).
  split; [| repeat split].
  pose proof (Z.div_mod (16 * Z.max ch cw + 7) 14 ltac:(lia)) as Hdm.
  pose proof (Z.mod_pos_bound (16 * Z.max ch cw + 7) 14 ltac:(lia)) as Hr.
  lia.
Qed.

(** MobileNet at 224 x 224 resizes to 256; a 224 x 300 input resizes to the
    nearest integer to 300 / 0.875. *)
Lemma pick_preprocess_config_generic_mobilenet :
  exists config : PreprocessConfig,
    _pick_preprocess_config "/models/MobileNet_V2.tflite" 224 300 = Ok config
    /\ crop_height config = 224
    /\ crop_width config = 300
    /\ resize_size config = 343
    /\ 2 * Z.abs (7 * resize_size config - 8 * 300) < 7
    /\ mean config = [0.485; 0.456; 0.406]%Q
    /\ std config = [0.229; 0.224; 0.225]%Q
    /\ resample config = BILINEAR.
Proof.
  destruct (pick_preprocess_config_generic "/models/MobileNet_V2.tflite" 224 300
              eq_refl eq_refl eq_refl eq_refl eq_refl eq_refl)
    as (config & Hcfg & Hch & Hcw & Hrs & Hnear & Hmean & Hstd & Hres).
  exists config. rewrite Hch, Hcw in Hrs, Hnear.
  repeat (split; [assumption |]). assumption.
Defined.

(** The family patterns win over the inferred size, and a non-positive
    inferred size falls back to 224. *)
Example pick_preprocess_config_families :
  (resize_size <$> match _pick_preprocess_config "/m/EfficientNet_V2_S.tflite" 224 224 with
                   | Ok config => Some config | Raise _ => None end) = Some 384
  /\ (resize_size <$> match _pick_preprocess_config "efficientnet_b3.tflite" 300 300 with
                      | Ok config => Some config | Raise _ => None end) = Some 600
  /\ (resize_size <$> match _pick_preprocess_config "efficientnet_b/resnet50.tflite" 0 (-1) with
                      | Ok config => Some config | Raise _ => None end) = Some 256.
Proof. split; [| split]; vm_compute; reflexivity. Qed.

(** Beyond 2^53 binary64 no longer holds the size itself, and the resize size
    is no longer the integer nearest to the exact quotient. *)
Example resize_beyond_binary64 :
  (quotient ← py_truediv (2 ^ 53 + 1) float_0_875; py_round quotient)
    = Ok 10293942005418276
  /\ (16 * (2 ^ 53 + 1) + 7) / 14 = 10293942005418278.
Proof. split; vm_compute; reflexivity. Qed.

(** The literal [0.875] denotes the binary64 number [float_0_875]. *)
Example float_0_875_literal : Prim2SF 0.875%float = float_0_875.
Proof. vm_compute. reflexivity. Qed.

(** * Further properties of the code

    ** Division and rounding in binary64 *)

Lemma Zdigits2_pos_range (p : positive) (n : Z) :
  Z.pos p < 2 ^ n -> 0 <= n -> 1 <= Z.pos (digits2_pos p) <= n.
Proof.
  intros Hp Hn. pose proof (digits2_pos_bounds p) as Hd.
  split; [lia |].
  destruct (Z.le_gt_cases (Z.pos (digits2_pos p)) n) as [|Hgt]; [assumption |].
  assert (2 ^ n <= 2 ^ (Z.pos (digits2_pos p) - 1)) by (apply Z.pow_le_mono_r; lia).
  lia.
Qed.

(** The division of two positive integers below 2^53, before rounding: the
    quotient of the scaled dividend, with 53 or 54 bits. *)
Lemma SFdiv_raw (a b : positive) :
  Z.pos a < 2 ^ 53 -> Z.pos b < 2 ^ 53 ->
  exists (q d1 d2 : Z) (l : location),
    SFdiv 53 1024 (S754_finite false a 0) (S754_finite false b 0)
      = binary_round_aux 53 1024 false q (- (53 + d2 - d1)) l
    /\ 1 <= d1 <= 53 /\ 1 <= d2 <= 53
    /\ 2 ^ (d1 - 1) <= Z.pos a < 2 ^ d1
    /\ 2 ^ (d2 - 1) <= Z.pos b < 2 ^ d2
    /\ Z.pos b * q <= Z.pos a * 2 ^ (53 + d2 - d1) < Z.pos b * q + Z.pos b
    /\ 2 ^ 52 <= q < 2 ^ 54.
Proof.
  intros Ha Hb. unfold SFdiv. cbn [xorb]. unfold SFdiv_core_binary.
  pose proof (digits2_pos_bounds a) as Hda.
  pose proof (digits2_pos_bounds b) as Hdb.
  pose proof (Zdigits2_pos_range a 53 Ha ltac:(lia)) as Hra.
  pose proof (Zdigits2_pos_range b 53 Hb ltac:(lia)) as Hrb.
  cbn [Zdigits2].
  set (d1 := Z.pos (digits2_pos a)) in *.
  set (d2 := Z.pos (digits2_pos b)) in *.
  replace (Z.min (fexp 53 1024 (d1 + 0 - (d2 + 0))) (0 - 0)) with (- (53 + d2 - d1))
    by (unfold fexp, emin; lia).
  replace (0 - 0 - - (53 + d2 - d1)) with (53 + d2 - d1) by lia.
  destruct (53 + d2 - d1) as [|s|s] eqn:Hs; try lia.
  rewrite Z.shiftl_mul_pow2 by lia.
  pose proof (Z_div_mod (Z.pos a * 2 ^ Z.pos s) (Z.pos b) ltac:(lia)) as Hdiv.
  destruct (Z.div_eucl (Z.pos a * 2 ^ Z.pos s) (Z.pos b)) as [q r].
  exists q, d1, d2, (new_location (Z.pos b) r).
  rewrite Hs.
  split; [reflexivity |].
  split; [lia |]. split; [lia |]. split; [lia |]. split; [lia |].
  split; [lia |].
  assert (Hlow : 2 ^ (d1 - 1) * 2 ^ Z.pos s = 2 ^ 52 * 2 ^ d2).
  { rewrite <- !Z.pow_add_r by lia. f_equal. lia. }
  assert (Hhigh : 2 ^ d1 * 2 ^ Z.pos s = 2 ^ 54 * 2 ^ (d2 - 1)).
  { rewrite <- !Z.pow_add_r by lia. f_equal. lia. }
  assert (0 < 2 ^ Z.pos s) by (apply Z.pow_pos_nonneg; lia).
  change (2 ^ 52) with 4503599627370496 in *.
  change (2 ^ 54) with 18014398509481984 in *.
  nia.
Qed.

(** [int(round(a / b))] for positive integers: a nearest integer to the
    exact quotient. *)
Lemma truediv_int_round (a b : Z) :
  1 <= a < 2 ^ 50 -> 1 <= b < 2 ^ 53 ->
  exists n : Z,
    (q ← py_truediv_int a b; py_round q) = Ok n
    /\ 2 * Z.abs (n * b - a) <= b.
Proof.
  intros Ha Hb. unfold py_truediv_int.
  destruct (Z.eqb_spec b 0) as [|_]; [lia |].
  destruct a as [|a|a]; try lia. destruct b as [|b|b]; try lia.
  cbn [raw_float].
  destruct (SFdiv_raw a b ltac:(lia) ltac:(lia))
    as (q & d1 & d2 & l & -> & Hd1 & Hd2 & Hda & Hdb & Hq & Hqr).
  assert (Hd50 : d1 <= 50).
  { destruct (Z.le_gt_cases d1 50) as [|Hgt]; [assumption |].
    assert (2 ^ 50 <= 2 ^ (d1 - 1)) by (apply Z.pow_le_mono_r; lia). lia. }
  destruct (binary_round_aux_enclosure q (- (53 + d2 - d1)) l ltac:(lia) ltac:(lia))
    as (m' & j & -> & Hj & Hv).
  cbn [mbind result_bind py_round].
  destruct (Z.leb_spec 0 (- (53 + d2 - d1) + j)) as [|_]; [lia |].
  replace (- (- (53 + d2 - d1) + j)) with (53 + d2 - d1 - j) by lia.
  pose proof (shift_round_half_even_near (Z.pos m') (53 + d2 - d1 - j) ltac:(lia))
    as Hnear.
  set (n := shift_round_half_even (Z.pos m') (53 + d2 - d1 - j)) in *.
  exists n. split; [reflexivity |].
  assert (HU : 2 ^ (53 + d2 - d1) = 2 ^ (53 + d2 - d1 - j) * 2 ^ j).
  { rewrite <- Z.pow_add_r by lia. f_equal. lia. }
  assert (HUb : 8 * 2 ^ d2 <= 2 ^ (53 + d2 - d1)).
  { change 8 with (2 ^ 3). rewrite <- Z.pow_add_r by lia.
    apply Z.pow_le_mono_r; lia. }
  assert (Hj1 : 1 <= 2 ^ j) by (pose proof (Z.pow_pos_nonneg 2 j); lia).
  assert (HK1 : 1 <= 2 ^ (53 + d2 - d1 - j))
    by (pose proof (Z.pow_pos_nonneg 2 (53 + d2 - d1 - j)); lia).
  set (U := 2 ^ (53 + d2 - d1)) in *. set (K := 2 ^ (53 + d2 - d1 - j)) in *.
  set (J := 2 ^ j) in *. set (v := Z.pos m') in *.
  set (A := Z.pos a) in *. set (B := Z.pos b) in *.
  assert (HnU : - U <= 2 * (n * U - v * J) <= U) by nia.
  assert (HbV : - (2 * B) <= B * (v * J) - A * U <= 2 * B) by nia.
  assert (Hscaled : - (B * U + 4 * B) <= 2 * (n * B - A) * U <= B * U + 4 * B) by nia.
  assert (H4 : 4 * B < U) by lia.
  assert (- B <= 2 * (n * B - A) <= B) by nia.
  lia.
Qed.

(** The division of two normal binary64 numbers, before rounding. *)
Lemma SFdiv_normal (m1 m2 : positive) (e1 e2 : Z) :
  2 ^ 52 <= Z.pos m1 < 2 ^ 53 -> 2 ^ 52 <= Z.pos m2 < 2 ^ 53 ->
  -52 <= e1 <= 0 -> -60 <= e2 <= 0 ->
  exists (q : Z) (l : location),
    SFdiv 53 1024 (S754_finite false m1 e1) (S754_finite false m2 e2)
      = binary_round_aux 53 1024 false q (e1 - e2 - 53) l
    /\ Z.pos m2 * q <= Z.pos m1 * 2 ^ 53 < Z.pos m2 * q + Z.pos m2
    /\ 2 ^ 52 <= q < 2 ^ 54.
Proof.
  intros Hm1 Hm2 He1 He2. unfold SFdiv. cbn [xorb]. unfold SFdiv_core_binary.
  rewrite (Zdigits2_unique (Z.pos m1) 53) by lia.
  rewrite (Zdigits2_unique (Z.pos m2) 53) by lia.
  replace (Z.min (fexp 53 1024 (53 + e1 - (53 + e2))) (e1 - e2)) with (e1 - e2 - 53)
    by (unfold fexp, emin; lia).
  replace (e1 - e2 - (e1 - e2 - 53)) with 53 by lia.
  rewrite Z.shiftl_mul_pow2 by lia.
  pose proof (Z_div_mod (Z.pos m1 * 2 ^ 53) (Z.pos m2) ltac:(lia)) as Hdiv.
  destruct (Z.div_eucl (Z.pos m1 * 2 ^ 53) (Z.pos m2)) as [q r].
  exists q, (new_location (Z.pos m2) r).
  split; [reflexivity |]. split; [lia |].
  change (2 ^ 52) with 4503599627370496 in *.
  change (2 ^ 53) with 9007199254740992 in *.
  change (2 ^ 54) with 18014398509481984 in *.
  nia.
Qed.

(** [int(round(n / 2.0))] for a natural number: one of the two integers next
    to n/2. *)
Lemma halve_round (n : Z) :
  0 <= n < 2 ^ 50 ->
  exists h : Z,
    (q ← py_truediv n float_2_0; py_round q) = Ok h
    /\ Z.abs (2 * h - n) <= 1.
Proof.
  intros Hn. destruct (Z.eq_dec n 0) as [->|Hn0].
  { exists 0. split; [reflexivity | lia]. }
  unfold py_truediv, py_float_of_int.
  destruct (binary_normalize_small n ltac:(lia)) as (m1 & k & -> & Hk & Hm1 & Hm1r).
  cbn [mbind result_bind]. unfold float_2_0.
  destruct (SFdiv_normal m1 4503599627370496 (- k) (-51) Hm1r ltac:(lia) ltac:(lia) ltac:(lia))
    as (q & l & -> & Hq & Hqr).
  destruct (binary_round_aux_enclosure q (- k - -51 - 53) l ltac:(lia) ltac:(lia))
    as (m' & j & -> & Hj & Hv).
  assert (Hk3 : 3 <= k).
  { destruct (Z.le_gt_cases 3 k) as [|Hlt]; [assumption |].
    assert (2 ^ k <= 2 ^ 2) by (apply Z.pow_le_mono_r; lia).
    change (2 ^ 2) with 4 in *. change (2 ^ 50) with 1125899906842624 in *.
    change (2 ^ 52) with 4503599627370496 in *. nia. }
  cbn [mbind result_bind py_round].
  destruct (Z.leb_spec 0 (- k - -51 - 53 + j)) as [|_]; [lia |].
  replace (- (- k - -51 - 53 + j)) with (k + 2 - j) by lia.
  pose proof (shift_round_half_even_near (Z.pos m') (k + 2 - j) ltac:(lia)) as Hnear.
  set (h := shift_round_half_even (Z.pos m') (k + 2 - j)) in *.
  exists h. split; [reflexivity |].
  assert (HU : 4 * 2 ^ k = 2 ^ (k + 2 - j) * 2 ^ j).
  { rewrite <- Z.pow_add_r by lia. change 4 with (2 ^ 2).
    rewrite <- Z.pow_add_r by lia. f_equal. lia. }
  assert (H8 : 8 <= 2 ^ k).
  { change 8 with (2 ^ 3). apply Z.pow_le_mono_r; lia. }
  assert (Hj1 : 1 <= 2 ^ j) by (pose proof (Z.pow_pos_nonneg 2 j); lia).
  assert (HK1 : 1 <= 2 ^ (k + 2 - j))
    by (pose proof (Z.pow_pos_nonneg 2 (k + 2 - j)); lia).
  set (P := 2 ^ k) in *. set (K := 2 ^ (k + 2 - j)) in *. set (J := 2 ^ j) in *.
  set (v := Z.pos m') in *. set (a := Z.pos m1) in *.
  change (2 ^ 53) with 9007199254740992 in *.
  assert (Hq2 : q = 2 * a) by lia.
  assert (HnU : - (4 * P) <= 2 * (h * (4 * P) - v * J) <= 4 * P) by nia.
  assert (Hs : - (4 * P + 4) <= (2 * h - n) * (4 * P) <= 4 * P + 4) by nia.
  assert (-1 <= 2 * h - n <= 1) by nia.
  lia.
Qed.

(** The sign is carried through rounding untouched. *)
Lemma binary_round_aux_opp (m e : Z) (l : location) :
  binary_round_aux 53 1024 true m e l
    = SFopp (binary_round_aux 53 1024 false m e l).
Proof.
  unfold binary_round_aux.
  destruct (shr_fexp 53 1024 m e l) as [mrs e'].
  destruct (shr_fexp 53 1024 _ e' loc_Exact) as [mrs' e''].
  destruct (shr_m mrs') as [|p|p]; [reflexivity | | reflexivity].
  destruct (e'' <=? 1024 - 53); reflexivity.
Qed.

Lemma SFopp_involutive (x : binary64) : SFopp (SFopp x) = x.
Proof. destruct x as [s | s | | s m e]; cbn; rewrite ?negb_involutive; reflexivity. Qed.

Lemma py_round_opp (x : binary64) (n : Z) :
  py_round x = Ok n -> py_round (SFopp x) = Ok (- n).
Proof.
  destruct x as [s | s | | s m e]; cbn [py_round SFopp]; intros Hx;
    try discriminate.
  - injection Hx as <-. reflexivity.
  - injection Hx as <-. f_equal. destruct s; cbn [negb]; lia.
Qed.

(** [int(round(n / 2.0))] for an integer of either sign. *)
Lemma halve_round_signed (n : Z) :
  - 2 ^ 50 < n < 2 ^ 50 ->
  exists h : Z,
    (q ← py_truediv n float_2_0; py_round q) = Ok h
    /\ Z.abs (2 * h - n) <= 1.
Proof.
  intros Hn. destruct (Z.le_gt_cases 0 n) as [Hpos|Hneg].
  { apply halve_round. lia. }
  destruct (halve_round (- n) ltac:(lia)) as (h & Hh & Hnear).
  exists (- h). split; [| lia].
  destruct n as [|p|p]; try lia.
  change (- Z.neg p) with (Z.pos p) in Hh.
  unfold py_truediv, py_float_of_int in *.
  cbn [binary_normalize] in *. unfold binary_round in *.
  destruct (shl_align p 0 (fexp 53 1024 (Z.pos (digits2_pos p) + 0))) as [mz ez].
  rewrite binary_round_aux_opp.
  destruct (binary_round_aux 53 1024 false (Z.pos mz) ez loc_Exact)
    as [s | s | | s m e] eqn:Hx; cbn [SFopp mbind result_bind float_2_0] in *;
    try discriminate.
  - unfold float_2_0 in *. cbn [SFdiv] in *. apply py_round_opp in Hh. exact Hh.
  - unfold float_2_0 in *. unfold SFdiv in *.
    destruct (SFdiv_core_binary 53 1024 (Z.pos m) e (Z.pos 4503599627370496) (-51))
      as [[mq eq] lq].
    destruct s; cbn [negb xorb] in *.
    + rewrite binary_round_aux_opp in Hh. apply py_round_opp in Hh.
      rewrite SFopp_involutive in Hh. exact Hh.
    + rewrite binary_round_aux_opp. apply py_round_opp. exact Hh.
Qed.

(** ** Image geometry *)

(** The side [_load_image] computes when it resizes: the nearest integer to
    [long * resize_size / short], never below [resize_size]. *)
Lemma scaled_side (long short resize_size : Z) :
  1 <= short <= long -> 1 <= resize_size -> long * resize_size < 2 ^ 50 ->
  exists side : Z,
    (q ← py_truediv_int (long * resize_size) short; py_round q) = Ok side
    /\ 2 * Z.abs (side * short - long * resize_size) <= short
    /\ resize_size <= side < 2 ^ 50.
Proof.
  intros Hs Hr Hbound.
  assert (Hshort : short < 2 ^ 53).
  { change (2 ^ 53) with 9007199254740992. change (2 ^ 50) with 1125899906842624 in *.
    nia. }
  destruct (truediv_int_round (long * resize_size) short ltac:(nia) ltac:(lia))
    as (side & Hside & Hnear).
  exists side. split; [exact Hside |]. split; [exact Hnear |].
  change (2 ^ 50) with 1125899906842624 in *. nia.
Qed.

(** Everything [_load_image] decides before it touches a pixel, for valid
    arguments and an image that opens. *)
Lemma load_image_plan_spec (open_size : string -> result (Z * Z))
    (image_path : string) (resize_size crop_height crop_width width height : Z) :
  0 < resize_size -> 0 < crop_height < 2 ^ 50 -> 0 < crop_width < 2 ^ 50 ->
  open_size image_path = Ok (width, height) ->
  1 <= width -> 1 <= height ->
  width * resize_size < 2 ^ 50 -> height * resize_size < 2 ^ 50 ->
  exists plan : ImagePlan,
    load_image_plan open_size image_path 3 resize_size crop_height crop_width
      = Ok plan
    /\ (width < height ->
        resized_width plan = resize_size
        /\ 2 * Z.abs (resized_height plan * width - height * resize_size) <= width)
    /\ (height <= width ->
        resized_height plan = resize_size
        /\ 2 * Z.abs (resized_width plan * height - width * resize_size) <= height)
    /\ resize_size <= resized_width plan
    /\ resize_size <= resized_height plan
    /\ box_right plan = box_left plan + crop_width
    /\ box_bottom plan = box_top plan + crop_height
    /\ Z.abs (2 * box_left plan - (resized_width plan - crop_width)) <= 1
    /\ Z.abs (2 * box_top plan - (resized_height plan - crop_height)) <= 1.
Proof.
  intros Hr Hch Hcw Hopen Hw Hh Hwr Hhr. unfold load_image_plan.
  change (negb (3 =? 3)) with false. cbv iota.
  destruct (Z.leb_spec resize_size 0); [lia |].
  destruct (Z.leb_spec crop_height 0); [lia |].
  destruct (Z.leb_spec crop_width 0); [lia |].
  cbn [orb]. rewrite Hopen. cbn [mbind result_bind].
  assert (Hsides : exists nw nh : Z,
    (if width <? height
     then q ← py_truediv_int (height * resize_size) width;
          new_height ← py_round q; Ok (resize_size, new_height)
     else q ← py_truediv_int (width * resize_size) height;
          new_width ← py_round q; Ok (new_width, resize_size)) = Ok (nw, nh)
    /\ (width < height ->
        nw = resize_size /\ 2 * Z.abs (nh * width - height * resize_size) <= width)
    /\ (height <= width ->
        nh = resize_size /\ 2 * Z.abs (nw * height - width * resize_size) <= height)
    /\ resize_size <= nw < 2 ^ 50 /\ resize_size <= nh < 2 ^ 50).
  { assert (Hr50 : resize_size < 2 ^ 50) by nia.
    destruct (Z.ltb_spec width height) as [Hlt|Hge].
    - destruct (scaled_side height width resize_size ltac:(lia) ltac:(lia) Hhr)
        as (side & Hside & Hnear & Hrange).
      exists resize_size, side.
      destruct (py_truediv_int (height * resize_size) width) as [q|e];
        cbn [mbind result_bind] in Hside |- *; [| discriminate].
      rewrite Hside. cbn [mbind result_bind].
      split; [reflexivity |]. split; [auto |]. split; [lia |]. lia.
    - destruct (scaled_side width height resize_size ltac:(lia) ltac:(lia) Hwr)
        as (side & Hside & Hnear & Hrange).
      exists side, resize_size.
      destruct (py_truediv_int (width * resize_size) height) as [q|e];
        cbn [mbind result_bind] in Hside |- *; [| discriminate].
      rewrite Hside. cbn [mbind result_bind].
      split; [reflexivity |]. split; [lia |]. split; [auto |]. lia. }
  destruct Hsides as (nw & nh & -> & Htall & Hwide & Hnw & Hnh).
  cbn [mbind result_bind].
  destruct (halve_round_signed (nw - crop_width) ltac:(lia)) as (l & Hl & Hlnear).
  destruct (halve_round_signed (nh - crop_height) ltac:(lia)) as (t & Ht & Htnear).
  destruct (py_truediv (nw - crop_width) float_2_0) as [ql|e];
    cbn [mbind result_bind] in Hl |- *; [| discriminate].
  rewrite Hl. cbn [mbind result_bind].
  destruct (py_truediv (nh - crop_height) float_2_0) as [qt|e];
    cbn [mbind result_bind] in Ht |- *; [| discriminate].
  rewrite Ht. cbn [mbind result_bind].
  eexists. split; [reflexivity |].
  cbn [resized_width resized_height box_left box_top box_right box_bottom].
  repeat (split; [first [assumption | reflexivity | lia] |]). exact Htnear.
Qed.

(** Resizing keeps the aspect ratio. For valid arguments and an image of
    at least one pixel a side (with [side * resize_size] below 2^50), the
    shorter side of the resized image is exactly [resize_size], the other
    side is a nearest integer to the proportional length, and no side is
    shorter than [resize_size]; a square image becomes a square of side
    [resize_size]. *)
Theorem load_image_resize_keeps_ratio (open_size : string -> result (Z * Z))
    (image_path : string) (resize_size crop_height crop_width width height : Z) :
  0 < resize_size -> 0 < crop_height < 2 ^ 50 -> 0 < crop_width < 2 ^ 50 ->
  open_size image_path = Ok (width, height) ->
  1 <= width -> 1 <= height ->
  width * resize_size < 2 ^ 50 -> height * resize_size < 2 ^ 50 ->
  exists plan : ImagePlan,
    load_image_plan open_size image_path 3 resize_size crop_height crop_width
      = Ok plan
    /\ Z.min (resized_width plan) (resized_height plan) = resize_size
    /\ (width < height ->
        resized_width plan = resize_size
        /\ 2 * Z.abs (resized_height plan * width - height * resize_size) <= width)
    /\ (height <= width ->
        resized_height plan = resize_size
        /\ 2 * Z.abs (resized_width plan * height - width * resize_size) <= height)
    /\ (width = height ->
        resized_width plan = resize_size /\ resized_height plan = resize_size).
Proof.
  intros Hr Hch Hcw Hopen Hw Hh Hwr Hhr.
  destruct (load_image_plan_spec open_size image_path resize_size crop_height
              crop_width width height Hr Hch Hcw Hopen Hw Hh Hwr Hhr)
    as (plan & Hplan & Htall & Hwide & Hnw & Hnh & _).
  exists plan. split; [exact Hplan |].
  split; [| split; [exact Htall | split; [exact Hwide |]]].
  - destruct (Z.lt_ge_cases width height) as [Hlt|Hge].
    + destruct (Htall Hlt) as [-> _]. lia.
    + destruct (Hwide ltac:(lia)) as [-> _]. lia.
  - intros ->. destruct (Hwide ltac:(lia)) as [Hrh Hnear].
    split; [| exact Hrh]. nia.
Qed.

(** A 640 x 480 image resized to 256: 341 x 256. *)
Lemma load_image_resize_keeps_ratio_640_480 :
  exists plan : ImagePlan,
    load_image_plan one_image "cat.jpg" 3 256 224 224 = Ok plan
    /\ Z.min (resized_width plan) (resized_height plan) = 256
    /\ resized_height plan = 256
    /\ 2 * Z.abs (resized_width plan * 480 - 640 * 256) <= 480.
Proof.
  destruct (load_image_resize_keeps_ratio one_image "cat.jpg" 256 224 224 640 480)
    as (plan & Hplan & Hmin & _ & Hwide & _);
    try reflexivity; try lia.
  exists plan. split; [exact Hplan |]. split; [exact Hmin |].
  destruct (Hwide ltac:(lia)) as [Hh Hnear]. split; assumption.
Defined.

(** The crop is centred. Under the same conditions the crop box has exactly
    the crop size, its offsets are within half a pixel of the centred ones,
    and when the crop is no larger than [resize_size] the box lies inside
    the resized image. *)
Theorem load_image_crop_centred (open_size : string -> result (Z * Z))
    (image_path : string) (resize_size crop_height crop_width width height : Z) :
  0 < resize_size -> 0 < crop_height < 2 ^ 50 -> 0 < crop_width < 2 ^ 50 ->
  open_size image_path = Ok (width, height) ->
  1 <= width -> 1 <= height ->
  width * resize_size < 2 ^ 50 -> height * resize_size < 2 ^ 50 ->
  exists plan : ImagePlan,
    load_image_plan open_size image_path 3 resize_size crop_height crop_width
      = Ok plan
    /\ box_right plan - box_left plan = crop_width
    /\ box_bottom plan - box_top plan = crop_height
    /\ Z.abs (2 * box_left plan - (resized_width plan - crop_width)) <= 1
    /\ Z.abs (2 * box_top plan - (resized_height plan - crop_height)) <= 1
    /\ (crop_width <= resize_size ->
        0 <= box_left plan /\ box_right plan <= resized_width plan)
    /\ (crop_height <= resize_size ->
        0 <= box_top plan /\ box_bottom plan <= resized_height plan).
Proof.
  intros Hr Hch Hcw Hopen Hw Hh Hwr Hhr.
  destruct (load_image_plan_spec open_size image_path resize_size crop_height
              crop_width width height Hr Hch Hcw Hopen Hw Hh Hwr Hhr)
    as (plan & Hplan & _ & _ & Hnw & Hnh & Hright & Hbottom & Hleft & Htop).
  exists plan. split; [exact Hplan |].
  split; [lia |]. split; [lia |]. split; [exact Hleft |]. split; [exact Htop |].
  split; intros Hfit; lia.
Qed.

(** The 224 x 224 crop of the 341 x 256 image. *)
Lemma load_image_crop_centred_640_480 :
  exists plan : ImagePlan,
    load_image_plan one_image "cat.jpg" 3 256 224 224 = Ok plan
    /\ box_right plan - box_left plan = 224
    /\ box_bottom plan - box_top plan = 224
    /\ 0 <= box_left plan /\ box_right plan <= resized_width plan
    /\ 0 <= box_top plan /\ box_bottom plan <= resized_height plan.
Proof.
  destruct (load_image_crop_centred one_image "cat.jpg" 256 224 224 640 480)
    as (plan & Hplan & Hwd & Hht & _ & _ & Hin_w & Hin_h);
    try reflexivity; try lia.
  exists plan. split; [exact Hplan |]. split; [exact Hwd |]. split; [exact Hht |].
  destruct (Hin_w ltac:(lia)). destruct (Hin_h ltac:(lia)). auto.
Defined.

(** The plan on the sample image, as PIL receives it. *)
Example load_image_plan_sample :
  load_image_plan one_image "cat.jpg" 3 256 224 224
    = Ok {| resized_width := 341; resized_height := 256;
            box_left := 58; box_top := 16; box_right := 282; box_bottom := 240 |}
  /\ load_image_plan one_image "dog.jpg" 3 256 224 224
    = Raise (FileNotFoundError "dog.jpg")
  /\ load_image_plan one_image "dog.jpg" 4 256 224 224
    = Raise (ValueError "Expected 3 channels, got 4")
  /\ load_image_plan one_image "dog.jpg" 3 256 0 (-3)
    = Raise (ValueError "Invalid resize/crop size: resize=256, crop=0x-3").
Proof. repeat split; vm_compute; reflexivity. Qed.

(** Invalid arguments are rejected before the image is opened: with a
    channel count other than 3, or a resize or crop size that is not
    positive, [_load_image] raises a [ValueError] whatever the image store
    holds, and the channel count is tested first. *)
Theorem load_image_rejects_before_open (open_size open_size' : string -> result (Z * Z))
    (image_path : string) (channels resize_size crop_height crop_width : Z) :
  channels <> 3 \/ resize_size <= 0 \/ crop_height <= 0 \/ crop_width <= 0 ->
  (exists msg,
      load_image_plan open_size image_path channels resize_size crop_height crop_width
        = Raise (ValueError msg))
  /\ load_image_plan open_size' image_path channels resize_size crop_height crop_width
     = load_image_plan open_size image_path channels resize_size crop_height crop_width
  /\ (channels <> 3 ->
      load_image_plan open_size image_path channels resize_size crop_height crop_width
        = Raise (ValueError ("Expected 3 channels, got " +:+ pretty channels))).
Proof.
  intros Hbad. unfold load_image_plan.
  destruct (Z.eqb_spec channels 3) as [Hc|Hc]; cbn [negb].
  - destruct Hbad as [Hbad|Hbad]; [contradiction |].
    replace ((resize_size <=? 0) || (crop_height <=? 0) || (crop_width <=? 0))
      with true.
    + split; [eauto |]. split; [reflexivity | contradiction].
    + symmetry. rewrite !orb_true_iff, !Z.leb_le. tauto.
  - split; [eauto |]. split; reflexivity.
Qed.

(** Four channels, and a crop of height zero. *)
Lemma load_image_rejects_before_open_cases :
  load_image_plan one_image "cat.jpg" 4 256 224 224
    = Raise (ValueError "Expected 3 channels, got 4")
  /\ exists msg, load_image_plan one_image "cat.jpg" 3 256 0 224
                  = Raise (ValueError msg).
Proof.
  split.
  - apply (load_image_rejects_before_open one_image one_image "cat.jpg" 4 256 224 224);
      [left |]; discriminate.
  - apply (load_image_rejects_before_open one_image one_image "cat.jpg" 3 256 0 224).
    right. right. left. lia.
Defined.

(** ** The selected config is one the image transformer accepts *)

(** The sizes of the selected config, for any path. *)
Lemma pick_preprocess_config_sizes (model_path : string)
    (input_height input_width : Z) :
  input_height < 2 ^ 48 -> input_width < 2 ^ 48 ->
  exists config : PreprocessConfig,
    _pick_preprocess_config model_path input_height input_width = Ok config
    /\ 0 < crop_height config <= resize_size config
    /\ 0 < crop_width config <= resize_size config
    /\ resize_size config <= Z.max 600 (2 * Z.max input_height input_width)
    /\ length (mean config) = 3%nat
    /\ length (std config) = 3%nat.
Proof.
  intros Hh Hw. unfold _pick_preprocess_config. cbv zeta.
  destruct (str_contains "efficientnet_v2_s" _);
    [eexists; split; [reflexivity |]; cbn; repeat split; lia |].
  destruct (str_contains "efficientnet_v2_m" _);
    [eexists; split; [reflexivity |]; cbn; repeat split; lia |].
  destruct (str_contains "efficientnet_v2_l" _);
    [eexists; split; [reflexivity |]; cbn; repeat split; lia |].
  destruct (str_contains "efficientnet_b" _);
    [eexists; split; [reflexivity |]; cbn; repeat split; lia |].
  set (ch := if 0 <? input_height then input_height else 224).
  set (cw := if 0 <? input_width then input_width else 224).
  assert (Hch : 1 <= ch < 2 ^ 48 /\ ch <= Z.max 224 input_height).
  { subst ch. destruct (Z.ltb_spec 0 input_height); lia. }
  assert (Hcw : 1 <= cw < 2 ^ 48 /\ cw <= Z.max 224 input_width).
  { subst cw. destruct (Z.ltb_spec 0 input_width); lia. }
  pose proof (round_div_0_875 (Z.max ch cw) ltac:(lia)) as Hround.
  destruct (py_truediv (Z.max ch cw) float_0_875) as [quotient|e];
    cbn [mbind result_bind] in Hround |- *; [| discriminate].
  rewrite Hround. cbn [mbind result_bind].
  eexists. split; [reflexivity |].
  cbn [crop_height crop_width resize_size mean std length].
  pose proof (Z.div_mod (16 * Z.max ch cw + 7) 14 ltac:(lia)) as Hdm.
  pose proof (Z.mod_pos_bound (16 * Z.max ch cw + 7) 14 ltac:(lia)) as Hr.
  repeat split; lia.
Qed.

(** Whatever the model path, for inferred sizes below 2^48 the selector
    returns a config: its sizes are positive, its resize size is at least
    its crop height and its crop width, and its mean and std have three
    entries. *)
Theorem pick_preprocess_config_valid (model_path : string)
    (input_height input_width : Z) :
  input_height < 2 ^ 48 -> input_width < 2 ^ 48 ->
  exists config : PreprocessConfig,
    _pick_preprocess_config model_path input_height input_width = Ok config
    /\ 0 < crop_height config <= resize_size config
    /\ 0 < crop_width config <= resize_size config
    /\ resize_size config <= Z.max 600 (2 * Z.max input_height input_width)
    /\ length (mean config) = 3%nat
    /\ length (std config) = 3%nat.
Proof. exact (pick_preprocess_config_sizes model_path input_height input_width). Qed.

(** A ResNet file with an unknown height and a width of 300. *)
Lemma pick_preprocess_config_valid_resnet :
  exists config : PreprocessConfig,
    _pick_preprocess_config "/models/resnet50.tflite" (-1) 300 = Ok config
    /\ 0 < crop_height config <= resize_size config
    /\ 0 < crop_width config <= resize_size config.
Proof.
  destruct (pick_preprocess_config_valid "/models/resnet50.tflite" (-1) 300)
    as (config & Hconfig & Hch & Hcw & _); [reflexivity | reflexivity |].
  exists config. auto.
Defined.

(** The preprocessing of [_classify] never fails on its own account. When
    the inferred input size and the sides of the image are below 2^20 and
    the image has at least one pixel a side, the image is loaded under the
    selected config without a [ValueError], the crop box has the crop size
    of the config, and it lies inside the resized image. *)
Theorem classify_preprocess_in_bounds (str_to_int : string -> option Z)
    (model : CompiledModel) (open_size : string -> result (Z * Z))
    (model_path image_path : string) (input_height input_width width height : Z) :
  _infer_input_size str_to_int model 0 = Ok (input_height, input_width) ->
  input_height < 2 ^ 20 -> input_width < 2 ^ 20 ->
  open_size image_path = Ok (width, height) ->
  1 <= width < 2 ^ 20 -> 1 <= height < 2 ^ 20 ->
  exists (config : PreprocessConfig) (plan : ImagePlan),
    _pick_preprocess_config model_path input_height input_width = Ok config
    /\ classify_preprocess str_to_int model open_size model_path image_path = Ok plan
    /\ box_right plan - box_left plan = crop_width config
    /\ box_bottom plan - box_top plan = crop_height config
    /\ 0 <= box_left plan /\ box_right plan <= resized_width plan
    /\ 0 <= box_top plan /\ box_bottom plan <= resized_height plan.
Proof.
  intros Hinfer Hih Hiw Hopen Hw Hh.
  change (2 ^ 20) with 1048576 in *.
  destruct (pick_preprocess_config_sizes model_path input_height input_width)
    as (config & Hconfig & Hch & Hcw & Hrs & _).
  { change (2 ^ 48) with 281474976710656. lia. }
  { change (2 ^ 48) with 281474976710656. lia. }
  assert (Hrs' : resize_size config <= 2097152) by lia.
  destruct (load_image_plan_spec open_size image_path (resize_size config)
              (crop_height config) (crop_width config) width height)
    as (plan & Hplan & _ & _ & Hnw & Hnh & Hright & Hbottom & Hleft & Htop);
    try assumption; try lia;
    try (change (2 ^ 50) with 1125899906842624; nia).
  exists config, plan. split; [exact Hconfig |].
  split.
  { unfold classify_preprocess. cbv zeta. rewrite Hinfer. cbn [mbind result_bind].
    rewrite Hconfig. cbn [mbind result_bind]. exact Hplan. }
  lia.
Qed.

(** MobileNet on the sample image: the model reports (1, 3, 224, 224). *)
Lemma classify_preprocess_in_bounds_mobilenet :
  exists (config : PreprocessConfig) (plan : ImagePlan),
    _pick_preprocess_config "mobilenet_v2.tflite" 224 224 = Ok config
    /\ classify_preprocess plain_decimal
         (fake_model (Ok {[ "dimensions" := VList [VInt 1; VInt 3; VInt 224; VInt 224] ]}))
         one_image "mobilenet_v2.tflite" "cat.jpg" = Ok plan
    /\ box_right plan - box_left plan = crop_width config
    /\ box_bottom plan - box_top plan = crop_height config
    /\ 0 <= box_left plan /\ box_right plan <= resized_width plan
    /\ 0 <= box_top plan /\ box_bottom plan <= resized_height plan.
Proof.
  apply (classify_preprocess_in_bounds plain_decimal
           (fake_model (Ok {[ "dimensions" := VList [VInt 1; VInt 3; VInt 224; VInt 224] ]}))
           one_image "mobilenet_v2.tflite" "cat.jpg" 224 224 640 480);
    first [reflexivity | lia].
Defined.

(** ** Matching the model name *)

Lemma lower_char_idempotent (c : ascii) : lower_char (lower_char c) = lower_char c.
Proof. destruct c as [[] [] [] [] [] [] [] []]; reflexivity. Qed.

Lemma lower_char_slash (c : ascii) :
  Ascii.eqb (lower_char c) "/" = Ascii.eqb c "/".
Proof. destruct c as [[] [] [] [] [] [] [] []]; reflexivity. Qed.

Lemma lower_idempotent (s : string) : lower (lower s) = lower s.
Proof.
  induction s as [|c s IH]; [reflexivity |].
  cbn [lower]. rewrite lower_char_idempotent, IH. reflexivity.
Qed.

(** Lower-casing moves no slash, so it commutes with taking the base name. *)
Lemma basename_go_lower (s tail : string) :
  basename_go (lower tail) (lower s) = lower (basename_go tail s).
Proof.
  revert tail. induction s as [|c s IH]; intros tail; [reflexivity |].
  cbn [lower basename_go]. rewrite lower_char_slash.
  destruct (Ascii.eqb c "/"); apply IH.
Qed.

Lemma basename_lower (p : string) : basename (lower p) = lower (basename p).
Proof. apply basename_go_lower. Qed.

(** The base name of [dir/name] is that of [name]. *)
Lemma basename_go_app (dir name tail : string) :
  basename_go tail (dir +:+ String "/" name) = basename_go name name.
Proof.
  revert tail. induction dir as [|c dir IH]; intros tail.
  - reflexivity.
  - rewrite append_cons. cbn [basename_go].
    destruct (Ascii.eqb c "/"); apply IH.
Qed.

(** The selection looks at the base name only, and ignores its case: a path
    and its lower-cased form select the same config, and so do [dir/name] and
    [name], whatever the directory is called. *)
Theorem pick_preprocess_config_name_only (model_path dir name : string)
    (input_height input_width : Z) :
  _pick_preprocess_config (lower model_path) input_height input_width
    = _pick_preprocess_config model_path input_height input_width
  /\ _pick_preprocess_config (dir +:+ "/" +:+ name) input_height input_width
    = _pick_preprocess_config name input_height input_width.
Proof.
  split.
  - unfold _pick_preprocess_config. cbv zeta.
    rewrite basename_lower, lower_idempotent. reflexivity.
  - unfold _pick_preprocess_config. cbv zeta.
    unfold basename at 1 2 3 4.
    change (dir +:+ "/" +:+ name) with (dir +:+ String "/" name).
    rewrite !basename_go_app. reflexivity.
Qed.

(** A directory named after a family does not select the family, and an
    upper-case file name does. *)
Example pick_preprocess_config_directory :
  _pick_preprocess_config "/efficientnet_b0/resnet50.tflite" 224 224
    = _pick_preprocess_config "resnet50.tflite" 224 224
  /\ _pick_preprocess_config "EFFICIENTNET_B0.TFLITE" 224 224
    = _pick_preprocess_config "efficientnet_b0.tflite" 224 224.
Proof. split; vm_compute; reflexivity. Qed.

(** A family name fixes the config. When the lower-cased base name holds one
    of the four family patterns, the selected config does not depend on the
    inferred size (no division is carried out, so no size is too large): it
    is square, with the resize size equal to the crop size, 384, 480 or
    600; a name that holds "efficientnet_v2_s" gets 384 whatever else it
    holds. *)
Theorem pick_preprocess_config_family (model_path pattern before after : string)
    (input_height input_width input_height' input_width' : Z) :
  pattern ∈ ["efficientnet_v2_s"; "efficientnet_v2_m"; "efficientnet_v2_l";
             "efficientnet_b"] ->
  lower (basename model_path) = before +:+ pattern +:+ after ->
  exists config : PreprocessConfig,
    _pick_preprocess_config model_path input_height input_width = Ok config
    /\ _pick_preprocess_config model_path input_height' input_width' = Ok config
    /\ crop_height config = resize_size config
    /\ crop_width config = resize_size config
    /\ resize_size config ∈ [384; 480; 600]
    /\ (pattern = "efficientnet_v2_s" -> resize_size config = 384).
Proof.
  intros Hpattern Hname.
  assert (Hcontains : str_contains pattern (lower (basename model_path)) = true).
  { apply str_contains_spec. eauto. }
  unfold _pick_preprocess_config. cbv zeta.
  destruct (str_contains "efficientnet_v2_s" _) eqn:Hs.
  { eexists. split; [reflexivity |]. split; [reflexivity |]. cbn.
    split; [reflexivity |]. split; [reflexivity |]. split; [left | reflexivity]. }
  destruct (str_contains "efficientnet_v2_m" _) eqn:Hm.
  { eexists. split; [reflexivity |]. split; [reflexivity |]. cbn.
    split; [reflexivity |]. split; [reflexivity |]. split; [right; left |].
    intros ->. congruence. }
  destruct (str_contains "efficientnet_v2_l" _) eqn:Hl.
  { eexists. split; [reflexivity |]. split; [reflexivity |]. cbn.
    split; [reflexivity |]. split; [reflexivity |]. split; [right; left |].
    intros ->. congruence. }
  destruct (str_contains "efficientnet_b" _) eqn:Hb.
  { eexists. split; [reflexivity |]. split; [reflexivity |]. cbn.
    split; [reflexivity |]. split; [reflexivity |]. split; [right; right; left |].
    intros ->. congruence. }
  exfalso.
  repeat (apply elem_of_cons in Hpattern as [-> | Hpattern]; [congruence |]).
  inversion Hpattern.
Qed.

(** An EfficientNet-V2-S file, at two inferred sizes. *)
Lemma pick_preprocess_config_family_v2_s :
  exists config : PreprocessConfig,
    _pick_preprocess_config "/m/EfficientNet_V2_S.tflite" 224 224 = Ok config
    /\ _pick_preprocess_config "/m/EfficientNet_V2_S.tflite" (2 ^ 60) 0 = Ok config
    /\ resize_size config = 384.
Proof.
  destruct (pick_preprocess_config_family "/m/EfficientNet_V2_S.tflite"
              "efficientnet_v2_s" "" ".tflite" 224 224 (2 ^ 60) 0)
    as (config & H1 & H2 & _ & _ & _ & H384).
  - left.
  - reflexivity.
  - exists config. auto.
Defined.

(** ** What the report prints *)

Section TopKReport.
Context {score : Type} `{Numpy score}.

(** The report, line by line: line [i] has rank [i + 1] and reports the
    [i]-th index of [topk_indices]. *)
Lemma print_topk_lines (scores : list score) (labels : option (list string))
    (top_k : Z) :
  exists (indices : list nat) (lines : list (TopkLine score)),
    topk_indices scores top_k = Ok indices
    /\ _print_topk scores labels top_k = Ok lines
    /\ length lines = length indices
    /\ forall i line,
         lines !! i = Some line ->
         exists idx,
           indices !! i = Some idx
           /\ line_rank line = S i
           /\ reports scores labels idx line.
Proof.
  destruct (topk_indices_ok scores top_k) as (indices & Hind & Hrange & _).
  unfold _print_topk. cbv zeta. rewrite Hind. cbn [mbind result_bind].
  destruct (traverse_each_ok (topk_line scores labels)
              (fun entry line =>
                 line_rank line = entry.1 /\ reports scores labels entry.2 line)
              (zip (seq 1 (length indices)) indices)) as (lines & Hlines & Hall).
  { intros [rank idx] Hentry.
    assert (Hidx : (idx < length scores)%nat).
    { apply Hrange. apply elem_of_zip_r in Hentry. exact Hentry. }
    destruct (lookup_lt_is_Some_2 scores idx Hidx) as [s Hs].
    exists {| line_rank := rank; line_label := label_or_synthetic labels idx;
              line_score := s |}.
    split.
    - unfold topk_line. rewrite label_of_index_ok. cbn [mbind result_bind].
      rewrite (py_index_lookup scores idx s Hs). reflexivity.
    - split; [reflexivity |]. split; [exact Hidx |]. split; [exact Hs | reflexivity]. }
  exists indices, lines. split; [reflexivity |]. split; [exact Hlines |].
  assert (Hlen : length lines = length indices).
  { apply Forall2_length in Hall. rewrite <- Hall.
    rewrite length_zip_with, length_seq. lia. }
  split; [exact Hlen |].
  intros i line Hline.
  destruct (Forall2_lookup_r _ _ _ _ _ Hall Hline) as ([rank idx] & Hentry & Hrank & Hrep).
  apply lookup_zip_with_Some in Hentry as (r & x & Heq & Hr & Hx).
  injection Heq as <- <-.
  apply lookup_seq in Hr as [-> _].
  exists idx. split; [exact Hx |]. split; [exact Hrank | exact Hrep].
Qed.

(** The indices of the report are distinct. *)
Lemma topk_indices_NoDup (scores : list score) (top_k : Z) (indices : list nat) :
  topk_indices scores top_k = Ok indices -> NoDup indices.
Proof.
  unfold topk_indices. cbv zeta.
  destruct (Z.min top_k (len scores) =? 1).
  - destruct (argmax scores) as [i|e]; cbn [mbind result_bind]; [| discriminate].
    intros Hi. injection Hi as <-. apply NoDup_singleton.
  - intros Hi. injection Hi as <-.
    apply NoDup_ListNoDup, List.NoDup_rev, NoDup_ListNoDup.
    unfold py_slice_from.
    eapply sublist_NoDup; [| apply sublist_drop].
    rewrite (argsort_indices scores). apply NoDup_seq.
Qed.

(** The number of indices, for every requested [top_k]. *)
Lemma topk_indices_count (scores : list score) (top_k : Z) (indices : list nat) :
  topk_indices scores top_k = Ok indices ->
  len indices =
    if 1 <=? top_k then Z.min top_k (len scores)
    else Z.max (len scores + top_k) 0.
Proof.
  intros Hind.
  destruct (topk_indices_ok scores top_k) as (indices' & Hind' & _ & _ & Hk).
  rewrite Hind in Hind'. injection Hind' as <-.
  destruct (Z.leb_spec 1 top_k) as [H1|H0]; [apply Hk; exact H1 |].
  unfold topk_indices in Hind. cbv zeta in Hind.
  assert (Hmin : Z.min top_k (len scores) = top_k) by (unfold len; lia).
  rewrite Hmin in Hind.
  destruct (Z.eqb_spec top_k 1); [lia |].
  injection Hind as <-.
  unfold len, py_slice_from, len. rewrite length_rev, length_drop, argsort_length.
  destruct (Z.ltb_spec (- top_k) 0); lia.
Qed.

End TopKReport.

(** The number of lines, for every requested [top_k]: [min top_k n] lines
    for a vector of [n] scores when [top_k >= 1]; for [top_k <= 0] the slice
    [[-top_k:]] keeps [max (n + top_k) 0] indices, so a request for zero
    lines prints the whole vector. *)
Theorem print_topk_line_count {score : Type} `{Numpy score} (scores : list score)
    (labels : option (list string)) (top_k : Z) :
  exists lines : list (TopkLine score),
    _print_topk scores labels top_k = Ok lines
    /\ len lines =
         (if 1 <=? top_k then Z.min top_k (len scores)
          else Z.max (len scores + top_k) 0)
    /\ (top_k = 0 -> length lines = length scores).
Proof.
  destruct (print_topk_lines scores labels top_k)
    as (indices & lines & Hind & Hprint & Hlen & _).
  pose proof (topk_indices_count scores top_k indices Hind) as Hcount.
  exists lines. split; [exact Hprint |].
  unfold len in *. rewrite Hlen. split; [exact Hcount |].
  intros ->. cbn in Hcount. lia.
Qed.

(** The ranks count up from 1, and no index is reported twice. *)
Theorem print_topk_ranks_and_indices {score : Type} `{Numpy score}
    (scores : list score) (labels : option (list string)) (top_k : Z) :
  exists (indices : list nat) (lines : list (TopkLine score)),
    topk_indices scores top_k = Ok indices
    /\ _print_topk scores labels top_k = Ok lines
    /\ NoDup indices
    /\ Forall2 (reports scores labels) indices lines
    /\ line_rank <$> lines = seq 1 (length lines).
Proof.
  destruct (print_topk_lines scores labels top_k)
    as (indices & lines & Hind & Hprint & Hlen & Hlines).
  exists indices, lines. split; [exact Hind |]. split; [exact Hprint |].
  split; [exact (topk_indices_NoDup scores top_k indices Hind) |].
  split.
  - apply Forall2_same_length_lookup. split; [symmetry; exact Hlen |].
    intros i idx line Hidx Hline.
    destruct (Hlines i line Hline) as (idx' & Hidx' & _ & Hrep).
    rewrite Hidx in Hidx'. injection Hidx' as <-. exact Hrep.
  - apply list_eq. intros i. rewrite list_lookup_fmap.
    destruct (lines !! i) as [line|] eqn:Hline; cbn.
    + destruct (Hlines i line Hline) as (idx & _ & -> & _).
      symmetry. apply lookup_seq. split; [reflexivity |].
      apply lookup_lt_Some in Hline. exact Hline.
    + symmetry. apply lookup_ge_None. rewrite length_seq.
      apply lookup_ge_None in Hline. exact Hline.
Qed.

(** ** The label table *)

(** A label table, once built, is aligned with the output: it has exactly
    [output_size] entries, at least one, and the entry at each position
    begins with the class identifier of that position in the reconciled
    list. *)
Theorem build_labels_aligned (fs : FileSystem)
    (synsets_path metadata_path : string) (output_size : Z)
    (labels : list string) :
  _build_imagenet_labels fs synsets_path metadata_path output_size
    = Ok (Some labels) ->
  len labels = output_size
  /\ 1 <= output_size
  /\ exists loaded : list string,
      _load_synsets fs synsets_path = Ok (Some loaded)
      /\ forall (i : nat) (label : string),
           labels !! i = Some label ->
           exists synset rest,
             (if output_size =? len loaded + 1 then "background" :: loaded
              else loaded) !! i = Some synset
             /\ label = synset +:+ rest.
Proof.
  intros Hbuild. unfold _build_imagenet_labels in Hbuild.
  destruct (_load_synsets fs synsets_path) as [[loaded|]|e] eqn:Hload;
    cbn [mbind result_bind] in Hbuild; try discriminate.
  destruct loaded as [|s0 loaded']; [discriminate |].
  set (loaded := s0 :: loaded') in *.
  set (reconciled :=
         if output_size =? len loaded + 1 then "background" :: loaded else loaded)
    in *.
  destruct (Z.eqb_spec output_size (len reconciled)) as [Hsize|]; [| discriminate].
  cbn [negb] in Hbuild.
  destruct (_load_metadata fs metadata_path) as [metadata|e];
    cbn [mbind result_bind] in Hbuild; [| discriminate].
  injection Hbuild as <-.
  assert (Hlen : len (List.map (label_entry metadata) reconciled) = output_size).
  { unfold len in *. rewrite length_map. lia. }
  split; [exact Hlen |].
  split.
  { rewrite Hsize. subst reconciled loaded. unfold len.
    destruct (output_size =? _); cbn [length]; lia. }
  exists loaded. split; [reflexivity |].
  intros i label Hi.
  change (List.map (label_entry metadata) reconciled)
    with (label_entry metadata <$> reconciled) in Hi.
  rewrite list_lookup_fmap in Hi.
  destruct (reconciled !! i) as [synset|] eqn:Hsyn; [| discriminate].
  injection Hi as <-. exists synset.
  unfold label_entry. destruct (bool_decide _).
  - eexists. split; [exact Hsyn |]. reflexivity.
  - exists "". split; [exact Hsyn |]. symmetry. apply append_nil_r.
Qed.

(** The one-line class file with its metadata, for an output of size 2. *)
Lemma build_labels_aligned_sea_snake :
  _build_imagenet_labels sample_files "one.txt" "one_metadata.txt" 2
    = Ok (Some ["background"; "n01751748 sea snake"])
  /\ len ["background"; "n01751748 sea snake"] = 2.
Proof.
  assert (Hbuild : _build_imagenet_labels sample_files "one.txt" "one_metadata.txt" 2
                   = Ok (Some ["background"; "n01751748 sea snake"]))
    by (vm_compute; reflexivity).
  split; [exact Hbuild |].
  exact (proj1 (build_labels_aligned sample_files "one.txt" "one_metadata.txt" 2
                  ["background"; "n01751748 sea snake"] Hbuild)).
Defined.

(** A table that is built has one entry per output. *)
Lemma build_labels_length (fs : FileSystem)
    (synsets_path metadata_path : string) (output_size : Z)
    (labels : list string) :
  _build_imagenet_labels fs synsets_path metadata_path output_size
    = Ok (Some labels) ->
  len labels = output_size.
Proof.
  intros Hbuild. unfold _build_imagenet_labels in Hbuild.
  destruct (_load_synsets fs synsets_path) as [[loaded|]|e];
    cbn [mbind result_bind] in Hbuild; try discriminate.
  destruct loaded as [|s0 loaded']; [discriminate |].
  destruct (Z.eqb_spec output_size
              (len (if output_size =? len (s0 :: loaded') + 1
                    then "background" :: s0 :: loaded' else s0 :: loaded')))
    as [Hsize|]; [| discriminate].
  cbn [negb] in Hbuild.
  destruct (_load_metadata fs metadata_path) as [metadata|e];
    cbn [mbind result_bind] in Hbuild; [| discriminate].
  injection Hbuild as <-.
  unfold len in *. rewrite length_map. lia.
Qed.

(** With a label table built for the length of the score vector, every
    printed label is the table's entry at the reported index: no synthetic
    name is needed. *)
Theorem print_topk_with_built_labels {score : Type} `{Numpy score}
    (fs : FileSystem) (synsets_path metadata_path : string)
    (scores : list score) (top_k : Z) (table : list string) :
  _build_imagenet_labels fs synsets_path metadata_path (len scores)
    = Ok (Some table) ->
  exists lines : list (TopkLine score),
    _print_topk scores (Some table) top_k = Ok lines
    /\ Forall (fun line =>
                 exists idx,
                   table !! idx = Some (line_label line)
                   /\ scores !! idx = Some (line_score line)) lines.
Proof.
  intros Hbuild.
  pose proof (build_labels_length _ _ _ _ _ Hbuild) as Hlen.
  destruct (print_topk_lines scores (Some table) top_k)
    as (indices & lines & _ & Hprint & _ & Hlines).
  exists lines. split; [exact Hprint |].
  apply Forall_forall. intros line Hline.
  apply list_elem_of_lookup in Hline as [i Hi].
  destruct (Hlines i line Hi) as (idx & _ & _ & Hidx & Hscore & Hlabel).
  exists idx. split; [| exact Hscore].
  rewrite Hlabel. unfold label_or_synthetic, len in *.
  destruct (lookup_lt_is_Some_2 table idx ltac:(lia)) as [l ->]. reflexivity.
Qed.

(** Two scores against the table built from the one-line class file. *)
Lemma print_topk_with_built_labels_sample :
  exists lines : list (TopkLine Z),
    _print_topk [10; 70] (Some ["background"; "n01751748 sea snake"]) 5 = Ok lines
    /\ Forall (fun line =>
                 exists idx,
                   ["background"; "n01751748 sea snake"] !! idx = Some (line_label line)
                   /\ [10; 70] !! idx = Some (line_score line)) lines.
Proof.
  apply (print_topk_with_built_labels sample_files "one.txt" "one_metadata.txt"
           [10; 70] 5).
  vm_compute. reflexivity.
Defined.

(** Which files label resolution needs. Without a class path the result is
    absent and nothing is opened; a class path that names no file raises
    the error of [open]; a class file with blank lines only gives absent;
    and the metadata file is opened only when the sizes agree, so a missing
    metadata file raises then, and goes unnoticed when they do not. *)
Theorem build_labels_files (fs : FileSystem)
    (synsets_path metadata_path : string) (output_size : Z) :
  (synsets_path = "" ->
   _build_imagenet_labels fs synsets_path metadata_path output_size = Ok None)
  /\ (synsets_path <> "" -> fs !! synsets_path = None ->
      _build_imagenet_labels fs synsets_path metadata_path output_size
        = Raise (FileNotFoundError synsets_path))
  /\ (_load_synsets fs synsets_path = Ok (Some []) ->
      _build_imagenet_labels fs synsets_path metadata_path output_size = Ok None)
  /\ (forall synsets,
        _load_synsets fs synsets_path = Ok (Some synsets) -> synsets <> [] ->
        metadata_path <> "" -> fs !! metadata_path = None ->
        (output_size = len synsets \/ output_size = len synsets + 1 ->
         _build_imagenet_labels fs synsets_path metadata_path output_size
           = Raise (FileNotFoundError metadata_path))
        /\ (output_size <> len synsets -> output_size <> len synsets + 1 ->
            _build_imagenet_labels fs synsets_path metadata_path output_size
              = Ok None)).
Proof.
  split; [| split; [| split]].
  - intros ->. reflexivity.
  - intros Hne Hmissing. unfold _build_imagenet_labels, _load_synsets, open_lines.
    destruct (str_empty synsets_path) eqn:Hempty.
    + apply str_empty_spec in Hempty. contradiction.
    + rewrite Hmissing. reflexivity.
  - intros Hload. unfold _build_imagenet_labels. rewrite Hload. reflexivity.
  - intros synsets Hload Hne Hmp Hmissing.
    rewrite (build_labels_unfold _ _ _ _ _ Hload Hne). cbv zeta.
    assert (Hmeta : _load_metadata fs metadata_path
                    = Raise (FileNotFoundError metadata_path)).
    { unfold _load_metadata, open_lines.
      destruct (str_empty metadata_path) eqn:Hempty.
      - apply str_empty_spec in Hempty. contradiction.
      - rewrite Hmissing. reflexivity. }
    assert (Hlen1 : len ("background" :: synsets) = len synsets + 1).
    { unfold len. cbn [length]. lia. }
    split.
    + intros [-> | ->].
      * destruct (Z.eqb_spec (len synsets) (len synsets + 1)); [lia |].
        rewrite Z.eqb_refl. cbn [negb]. rewrite Hmeta. reflexivity.
      * rewrite Z.eqb_refl, Hlen1, Z.eqb_refl. cbn [negb]. rewrite Hmeta. reflexivity.
    + intros Hn Hn1.
      destruct (Z.eqb_spec output_size (len synsets + 1)); [contradiction |].
      destruct (Z.eqb_spec output_size (len synsets)); [contradiction |].
      reflexivity.
Qed.

(** The sample files: no class file under that name, and no metadata file. *)
Lemma build_labels_files_missing :
  _build_imagenet_labels sample_files "" "metadata.txt" 1000 = Ok None
  /\ _build_imagenet_labels sample_files "labels.txt" "metadata.txt" 1000
     = Raise (FileNotFoundError "labels.txt")
  /\ _build_imagenet_labels sample_files "one.txt" "absent.txt" 1
     = Raise (FileNotFoundError "absent.txt")
  /\ _build_imagenet_labels sample_files "one.txt" "absent.txt" 7 = Ok None.
Proof.
  split; [| split; [| split]].
  - apply (proj1 (build_labels_files sample_files "" "metadata.txt" 1000)).
    reflexivity.
  - apply (proj1 (proj2 (build_labels_files sample_files "labels.txt"
             "metadata.txt" 1000)));
      [discriminate | reflexivity].
  - apply (proj2 (proj2 (proj2 (build_labels_files sample_files "one.txt"
             "absent.txt" 1))) ["n01751748"]);
      [reflexivity | discriminate | discriminate | reflexivity | left; reflexivity].
  - apply (proj2 (proj2 (proj2 (build_labels_files sample_files "one.txt"
             "absent.txt" 7))) ["n01751748"]);
      [reflexivity | discriminate | discriminate | reflexivity
      | discriminate | discriminate].
Defined.

(** ** The metadata mapping *)

Lemma split_at_first_spec (sep : ascii) (s before after : string) :
  split_at_first sep s = Some (before, after) ->
  s = before +:+ String sep after /\ has_char sep before = false.
Proof.
  revert before. induction s as [|c s IH]; intros before Hsplit;
    cbn [split_at_first] in Hsplit; [discriminate |].
  destruct (Ascii.eqb_spec c sep) as [->|Hne].
  - injection Hsplit as <- <-. split; reflexivity.
  - destruct (split_at_first sep s) as [[b a]|]; [| discriminate].
    injection Hsplit as <- <-.
    destruct (IH b eq_refl) as [-> Hb].
    split; [reflexivity |]. cbn [has_char]. rewrite Hb.
    destruct (Ascii.eqb_spec c sep); [contradiction | reflexivity].
Qed.

Lemma split_at_first_complete (sep : ascii) (before after : string) :
  has_char sep before = false ->
  split_at_first sep (before +:+ String sep after) = Some (before, after).
Proof.
  induction before as [|c before IH]; intros Hno.
  - change ("" +:+ String sep after) with (String sep after).
    cbn [split_at_first]. rewrite Ascii.eqb_refl. reflexivity.
  - cbn [has_char] in Hno. apply orb_false_iff in Hno as [Hc Hno].
    rewrite append_cons. cbn [split_at_first]. rewrite Hc, (IH Hno). reflexivity.
Qed.

(** One line either leaves the mapping alone or binds the key in front of
    its first tab to what follows the tab. *)
Lemma metadata_step_cases (mapping : gmap string string) (line : string) :
  metadata_step mapping line = mapping
  \/ exists synset label,
       metadata_step mapping line = <[synset := label]> mapping
       /\ strip line = synset +:+ String tab label
       /\ synset <> "" /\ label <> "" /\ has_char tab synset = false.
Proof.
  unfold metadata_step. cbv zeta.
  destruct (str_empty (strip line)); [left; reflexivity |].
  unfold str_partition.
  destruct (split_at_first tab (strip line)) as [[synset label]|] eqn:Hsplit.
  - destruct (str_empty synset) eqn:Hs; [left; reflexivity |].
    destruct (str_empty label) eqn:Hl; [left; reflexivity |].
    right. exists synset, label. cbn [negb andb].
    destruct (split_at_first_spec _ _ _ _ Hsplit) as [Hline Hno].
    split; [reflexivity |]. split; [exact Hline |].
    split; [intros Heq; apply str_empty_spec in Heq; congruence |].
    split; [intros Heq; apply str_empty_spec in Heq; congruence | exact Hno].
  - left. destruct (str_empty (strip line)); reflexivity.
Qed.

(** A well-formed line binds its key. *)
Lemma metadata_step_binds (mapping : gmap string string)
    (line synset label : string) :
  strip line = synset +:+ String tab label ->
  synset <> "" -> label <> "" -> has_char tab synset = false ->
  metadata_step mapping line = <[synset := label]> mapping.
Proof.
  intros Hline Hs Hl Hno. unfold metadata_step. cbv zeta. rewrite Hline.
  destruct (str_empty (synset +:+ String tab label)) eqn:Hempty.
  { apply str_empty_spec in Hempty. destruct synset; [congruence | discriminate]. }
  unfold str_partition. rewrite (split_at_first_complete _ _ _ Hno).
  destruct (str_empty synset) eqn:Hse; [apply str_empty_spec in Hse; congruence |].
  destruct (str_empty label) eqn:Hle; [apply str_empty_spec in Hle; congruence |].
  reflexivity.
Qed.

Lemma metadata_fold_sound (lines : list string) :
  forall (ls : list string) (mapping : gmap string string),
    (forall k v, mapping !! k = Some v -> from_line lines k v) ->
    (forall l, l ∈ ls -> l ∈ lines) ->
    forall k v, fold_left metadata_step ls mapping !! k = Some v ->
                from_line lines k v.
Proof.
  induction ls as [|line ls IH]; intros mapping Hm Hsub k v Hk; cbn in Hk.
  - apply Hm. exact Hk.
  - apply (IH (metadata_step mapping line)); [| | exact Hk].
    + intros k' v' Hk'.
      destruct (metadata_step_cases mapping line)
        as [Hsame | (synset & label & Hstep & Hline & Hs & Hl & Hno)].
      * rewrite Hsame in Hk'. apply Hm. exact Hk'.
      * rewrite Hstep in Hk'.
        destruct (decide (synset = k')) as [<-|Hne].
        -- rewrite lookup_insert_eq in Hk'. injection Hk' as <-.
           repeat (split; [assumption |]).
           exists line. split; [apply Hsub; left | exact Hline].
        -- rewrite lookup_insert_ne in Hk' by exact Hne. apply Hm. exact Hk'.
    + intros l Hl. apply Hsub. right. exact Hl.
Qed.

Lemma metadata_fold_keeps (ls : list string) :
  forall (mapping : gmap string string) (k : string),
    is_Some (mapping !! k) -> is_Some (fold_left metadata_step ls mapping !! k).
Proof.
  induction ls as [|line ls IH]; intros mapping k Hk; [exact Hk |].
  cbn. apply IH.
  destruct (metadata_step_cases mapping line) as [-> | (synset & label & -> & _)];
    [exact Hk |].
  destruct (decide (synset = k)) as [<-|Hne].
  - rewrite lookup_insert_eq. eauto.
  - rewrite lookup_insert_ne by exact Hne. exact Hk.
Qed.

Lemma metadata_fold_untouched (ls : list string) :
  forall (mapping : gmap string string) (k : string),
    (forall l v, l ∈ ls -> strip l <> k +:+ String tab v) ->
    fold_left metadata_step ls mapping !! k = mapping !! k.
Proof.
  induction ls as [|line ls IH]; intros mapping k Hother; [reflexivity |].
  cbn. rewrite IH by (intros l v Hl; apply Hother; right; exact Hl).
  destruct (metadata_step_cases mapping line)
    as [-> | (synset & label & -> & Hline & _)]; [reflexivity |].
  apply lookup_insert_ne. intros ->.
  apply (Hother line label); [left | exact Hline].
Qed.

(** The mapping holds what the file says. Every entry of the loaded mapping
    was read off a line of the form "identifier<TAB>label"; every such line
    binds its identifier; and when an identifier occurs on several lines
    the last one wins. *)
Theorem load_metadata_entries (fs : FileSystem) (metadata_path : string)
    (lines : list string) :
  metadata_path <> "" -> fs !! metadata_path = Some lines ->
  exists mapping : gmap string string,
    _load_metadata fs metadata_path = Ok mapping
    /\ (forall synset label,
          mapping !! synset = Some label -> from_line lines synset label)
    /\ (forall synset label,
          from_line lines synset label -> is_Some (mapping !! synset))
    /\ (forall earlier line later synset label,
          lines = earlier ++ line :: later ->
          strip line = synset +:+ String tab label ->
          synset <> "" -> label <> "" -> has_char tab synset = false ->
          (forall l v, l ∈ later -> strip l <> synset +:+ String tab v) ->
          mapping !! synset = Some label).
Proof.
  intros Hpath Hfile. exists (fold_left metadata_step lines ∅).
  split.
  { unfold _load_metadata, open_lines.
    destruct (str_empty metadata_path) eqn:Hempty.
    - apply str_empty_spec in Hempty. contradiction.
    - rewrite Hfile. reflexivity. }
  assert (Hlast : forall earlier line later synset label,
             lines = earlier ++ line :: later ->
             strip line = synset +:+ String tab label ->
             synset <> "" -> label <> "" -> has_char tab synset = false ->
             (forall l v, l ∈ later -> strip l <> synset +:+ String tab v) ->
             fold_left metadata_step lines ∅ !! synset = Some label).
  { intros earlier line later synset label -> Hline Hs Hl Hno Hlater.
    rewrite fold_left_app. cbn [fold_left].
    rewrite (metadata_fold_untouched later _ synset Hlater).
    rewrite (metadata_step_binds _ line synset label Hline Hs Hl Hno).
    apply lookup_insert_eq. }
  split; [| split; [| exact Hlast]].
  - intros synset label Hk.
    apply (metadata_fold_sound lines lines ∅); [| auto | exact Hk].
    intros k v Hkv. rewrite lookup_empty in Hkv. discriminate.
  - intros synset label (Hs & Hl & Hno & line & Hin & Hline).
    apply list_elem_of_split in Hin as (earlier & later & ->).
    rewrite fold_left_app. cbn [fold_left]. apply metadata_fold_keeps.
    rewrite (metadata_step_binds _ line synset label Hline Hs Hl Hno).
    rewrite lookup_insert_eq. eauto.
Qed.

(** A metadata file that names n1062 twice. *)
Lemma load_metadata_entries_last_wins :
  exists mapping : gmap string string,
    _load_metadata
      {[ "m.txt" := ["n1062" +:+ String tab "snake"; "no tab here";
                     " n1062" +:+ String tab "sea snake  "] ]} "m.txt"
      = Ok mapping
    /\ mapping !! "n1062" = Some "sea snake".
Proof.
  destruct (load_metadata_entries
              {[ "m.txt" := ["n1062" +:+ String tab "snake"; "no tab here";
                             " n1062" +:+ String tab "sea snake  "] ]}
              "m.txt" _ ltac:(discriminate) eq_refl)
    as (mapping & Hload & _ & _ & Hlast).
  exists mapping. split; [exact Hload |].
  apply (Hlast ["n1062" +:+ String tab "snake"; "no tab here"]
               (" n1062" +:+ String tab "sea snake  ") []);
    [reflexivity | reflexivity | discriminate | discriminate | reflexivity |].
  intros l v Hl. inversion Hl.
Defined.

(** ** The class list *)

Lemma rev_app_rev_app (s t u : string) :
  String.rev_app (String.rev_app s t) u = String.rev_app t (s +:+ u).
Proof.
  revert t. induction s as [|c s IH]; intros t; [reflexivity |].
  cbn [String.rev_app]. rewrite IH. reflexivity.
Qed.

Lemma rev_involutive (s : string) : String.rev (String.rev s) = s.
Proof.
  unfold String.rev. rewrite rev_app_rev_app. cbn [String.rev_app].
  apply append_nil_r.
Qed.

Lemma rev_app_append (a b c : string) :
  String.rev_app (a +:+ b) c = String.rev_app b (String.rev_app a c).
Proof.
  revert c. induction a as [|x a IH]; intros c; [reflexivity |].
  rewrite append_cons. cbn [String.rev_app]. apply IH.
Qed.

Lemma rev_app_nil (a c : string) :
  String.rev_app a c = String.rev a +:+ c.
Proof.
  unfold String.rev. revert c. induction a as [|x a IH]; intros c; [reflexivity |].
  cbn [String.rev_app]. rewrite IH, (IH (String x "")), append_assoc. reflexivity.
Qed.

Lemma rev_append (a b : string) :
  String.rev (a +:+ b) = String.rev b +:+ String.rev a.
Proof.
  unfold String.rev at 1. rewrite rev_app_append, rev_app_nil. reflexivity.
Qed.

(** [lstrip] removes a prefix of the string. *)
Lemma lstrip_suffix (s : string) : exists w, s = w +:+ lstrip s.
Proof.
  induction s as [|c s [w Hw]]; [exists ""; reflexivity |].
  cbn [lstrip]. destruct (py_isspace c).
  - exists (String c w). rewrite append_cons, <- Hw. reflexivity.
  - exists "". reflexivity.
Qed.

Lemma lstrip_starts_clean (s : string) : starts_clean (lstrip s).
Proof.
  induction s as [|c s IH]; [exact I |].
  cbn [lstrip]. destruct (py_isspace c) eqn:Hc; [exact IH | exact Hc].
Qed.

Lemma lstrip_clean (s : string) : starts_clean s -> lstrip s = s.
Proof.
  destruct s as [|c s]; [reflexivity |]. cbn. intros ->. reflexivity.
Qed.

Lemma starts_clean_prefix (a b : string) :
  starts_clean (a +:+ b) -> starts_clean a.
Proof.
  destruct a as [|c a]; [intros _; exact I |].
  rewrite append_cons. cbn. auto.
Qed.

(** Stripping twice is stripping once. *)
Lemma strip_idempotent (s : string) : strip (strip s) = strip s.
Proof.
  unfold strip.
  set (t := lstrip s).
  destruct (lstrip_suffix (String.rev t)) as [w Hw].
  set (v := lstrip (String.rev t)) in *.
  assert (Ht : t = String.rev v +:+ String.rev w).
  { rewrite <- rev_append, <- Hw, rev_involutive. reflexivity. }
  assert (Hclean : starts_clean (String.rev v)).
  { apply (starts_clean_prefix _ (String.rev w)). rewrite <- Ht.
    apply lstrip_starts_clean. }
  rewrite (lstrip_clean _ Hclean), rev_involutive.
  subst v. rewrite (lstrip_clean _ (lstrip_starts_clean _)). reflexivity.
Qed.

(** The class list is clean. The identifiers [_load_synsets] returns are
    the stripped non-blank lines of the file, in the order of the file:
    none is empty, none begins or ends with whitespace (stripping one again
    changes nothing), and there are at most as many as lines. *)
Theorem load_synsets_clean (fs : FileSystem) (synsets_path : string)
    (ids : list string) :
  _load_synsets fs synsets_path = Ok (Some ids) ->
  exists lines : list string,
    fs !! synsets_path = Some lines
    /\ ids = strip <$> List.filter (fun line => negb (str_empty (strip line))) lines
    /\ (length ids <= length lines)%nat
    /\ Forall (fun id => id <> "" /\ strip id = id
                         /\ starts_clean id /\ starts_clean (String.rev id)) ids.
Proof.
  unfold _load_synsets, open_lines.
  destruct (str_empty synsets_path); [discriminate |].
  destruct (fs !! synsets_path) as [lines|]; cbn [mbind result_bind];
    [| discriminate].
  intros Hids. injection Hids as <-. exists lines.
  split; [reflexivity |]. split; [reflexivity |].
  split.
  { rewrite length_map. apply List.filter_length_le. }
  apply Forall_forall. intros id Hid.
  apply list_elem_of_In, in_map_iff in Hid as (line & <- & Hline).
  apply filter_In in Hline as [_ Hblank].
  split.
  { intros Hempty. apply str_empty_spec in Hempty. rewrite Hempty in Hblank.
    discriminate. }
  split; [apply strip_idempotent |].
  unfold strip. split.
  - destruct (lstrip_suffix (String.rev (lstrip line))) as [w Hw].
    apply (starts_clean_prefix _ (String.rev w)).
    rewrite <- rev_append, <- Hw, rev_involutive. apply lstrip_starts_clean.
  - rewrite rev_involutive. apply lstrip_starts_clean.
Qed.

(** Three lines, one of them blank. *)
Lemma load_synsets_clean_sample :
  exists lines : list string,
    ({[ "ids.txt" := ["  n01  "; "   "; "n02" +:+ String (ascii_of_nat 10) ""] ]}
       : FileSystem) !! "ids.txt" = Some lines
    /\ ["n01"; "n02"]
       = strip <$> List.filter (fun line => negb (str_empty (strip line))) lines
    /\ (length ["n01"; "n02"] <= length lines)%nat.
Proof.
  destruct (load_synsets_clean
              {[ "ids.txt" := ["  n01  "; "   "; "n02" +:+ String (ascii_of_nat 10) ""] ]}
              "ids.txt" ["n01"; "n02"]) as (lines & Hfile & Hids & Hlen & _).
  - vm_compute. reflexivity.
  - exists lines. auto.
Defined.

(** ** The output decoder on arbitrary metadata *)

(** The decoder stays within the buffer. When the dtype selection yields
    [d] and the buffer size is the integer [z], the decoder raises exactly
    when [0 <= z < itemsize d]; otherwise it asks for [n] elements with
    [n * itemsize d <= z < (n + 1) * itemsize d], so it never reads past
    the reported size and drops fewer than [itemsize d] trailing bytes. A
    negative size is not rejected: it becomes a negative count. *)
Theorem read_output_within_buffer (requirements : gmap string PyVal)
    (d : NpDtype) (z : Z) :
  _pick_output_dtype requirements = Ok d ->
  dict_get_default requirements "buffer_size" (VInt 0) = VInt z ->
  ((exists msg, read_output_request requirements = Raise (ValueError msg))
     <-> 0 <= z < itemsize d)
  /\ (forall count d',
        read_output_request requirements = Ok (count, d') ->
        d' = d
        /\ exists n, count = VInt n /\ n <> 0
                     /\ n * itemsize d <= z < n * itemsize d + itemsize d)
  /\ (z < 0 ->
      exists n, n < 0 /\ read_output_request requirements = Ok (VInt n, d)).
Proof.
  intros Hpick Hsize. pose proof (itemsize_pos d) as Hpos.
  assert (Hreq : read_output_request requirements =
                 if z / itemsize d =? 0
                 then Raise (ValueError "Output buffer size is zero")
                 else Ok (VInt (z / itemsize d), d)).
  { unfold read_output_request. rewrite Hpick. cbn [mbind result_bind].
    rewrite Hsize.
    destruct (Z.eqb_spec (itemsize d) 0) as [H0|_]; [lia |].
    reflexivity. }
  pose proof (Z.div_mod z (itemsize d) ltac:(lia)) as Hdm.
  pose proof (Z.mod_pos_bound z (itemsize d) Hpos) as Hmod.
  rewrite Hreq.
  destruct (Z.eqb_spec (z / itemsize d) 0) as [Hzero|Hnz].
  - split; [| split].
    + split; [intros _; nia | eauto].
    + intros count d' Hok. discriminate.
    + intros Hneg. exfalso. nia.
  - split; [| split].
    + split; [intros [msg Hmsg]; discriminate |].
      intros Hsmall. exfalso. apply Hnz. apply Z.div_small. exact Hsmall.
    + intros count d' Hok. injection Hok as <- <-.
      split; [reflexivity |]. exists (z / itemsize d).
      split; [reflexivity |]. split; [exact Hnz |]. nia.
    + intros Hneg. exists (z / itemsize d). split; [| reflexivity].
      apply Z.div_lt_upper_bound; lia.
Qed.

(** 4003 bytes of float32, and a size of -1. *)
Lemma read_output_within_buffer_sample :
  (forall count d',
      read_output_request
        {[ "supported_types" := VList [VInt 1]; "buffer_size" := VInt 4003 ]}
        = Ok (count, d') ->
      d' = np_float32
      /\ exists n, count = VInt n /\ n <> 0 /\ n * 4 <= 4003 < n * 4 + 4)
  /\ exists n, n < 0
       /\ read_output_request
            {[ "supported_types" := VList [VInt 1]; "buffer_size" := VInt (-1) ]}
          = Ok (VInt n, np_float32).
Proof.
  split.
  - exact (proj1 (proj2 (read_output_within_buffer
      {[ "supported_types" := VList [VInt 1]; "buffer_size" := VInt 4003 ]}
      np_float32 4003 eq_refl eq_refl))).
  - exact (proj2 (proj2 (read_output_within_buffer
      ({[ "supported_types" := VList [VInt 1]; "buffer_size" := VInt (-1) ]}
         : gmap string PyVal)
      np_float32 (-1) eq_refl eq_refl)) ltac:(lia)).
Defined.

(** The dtype selection on metadata of other forms. When
    "supported_types" is [None], a boolean, an integer or a string, the
    membership test has no container to look into and the selection raises
    [TypeError]. When it is a list or a tuple, of any values, whose first
    entry is a scalar, the selection does not raise: a preferred identifier
    that is listed decides, in the order 1, 9, 3, 2 and with [True]
    counting as 1, and otherwise the result is float32, whatever the first
    entry is. *)
Theorem pick_output_dtype_scalars (requirements : gmap string PyVal) :
  (forall entries,
      dict_get_default requirements "supported_types" (VList []) = VList entries ->
      (forall first rest nested, entries = first :: rest -> first <> VList nested) ->
      _pick_output_dtype requirements =
        Ok (if existsb (py_eq_int 1) entries then np_float32
            else if existsb (py_eq_int 9) entries then np_int8
            else if existsb (py_eq_int 3) entries then np_uint8
            else if existsb (py_eq_int 2) entries then np_int32
            else np_float32))
  /\ (dict_get_default requirements "supported_types" (VList []) = VNone
      \/ (exists b, dict_get_default requirements "supported_types" (VList [])
                      = VBool b)
      \/ (exists z, dict_get_default requirements "supported_types" (VList [])
                      = VInt z)
      \/ (exists s, dict_get_default requirements "supported_types" (VList [])
                      = VStr s) ->
      _pick_output_dtype requirements = Raise TypeError).
Proof.
  split.
  - intros entries Hsup Hscalar. unfold _pick_output_dtype. rewrite Hsup.
    cbn [scan_preferred py_in mbind result_bind].
    destruct (existsb (py_eq_int 1) entries) eqn:H1; [reflexivity |].
    destruct (existsb (py_eq_int 9) entries) eqn:H9; [reflexivity |].
    destruct (existsb (py_eq_int 3) entries) eqn:H3; [reflexivity |].
    destruct (existsb (py_eq_int 2) entries) eqn:H2; [reflexivity |].
    cbn [mbind result_bind].
    destruct entries as [|v entries]; [reflexivity |].
    cbn [truthy py_first].
    rewrite (py_index_lookup (v :: entries) 0 v eq_refl
             : py_index (v :: entries) 0 = Ok v).
    cbn [mbind result_bind existsb] in *.
    apply orb_false_iff in H1 as [H1 _], H9 as [H9 _], H3 as [H3 _], H2 as [H2 _].
    destruct v as [| b | z | s | l]; cbn [table_get py_eq_int] in *;
      try reflexivity.
    + destruct b; [discriminate H1 |]. reflexivity.
    + f_equal. apply Z.eqb_neq in H1, H9, H3, H2. unfold _LITERT_TYPE_TO_NP.
      rewrite !lookup_insert_ne by congruence.
      rewrite lookup_singleton_ne by congruence. reflexivity.
    + exfalso. exact (Hscalar (VList l) entries l eq_refl eq_refl).
  - unfold _pick_output_dtype.
    intros [-> | [[b ->] | [[z ->] | [s ->]]]]; reflexivity.
Qed.

(** Types listed as booleans, as strings among numbers, and metadata that
    holds a string instead of a list. *)
Lemma pick_output_dtype_scalars_cases :
  _pick_output_dtype {[ "supported_types" := VList [VBool true] ]} = Ok np_float32
  /\ _pick_output_dtype {[ "supported_types" := VList [VStr "9"; VInt 9] ]}
     = Ok np_int8
  /\ _pick_output_dtype {[ "supported_types" := VList [VNone; VInt 7] ]}
     = Ok np_float32
  /\ _pick_output_dtype {[ "supported_types" := VStr "1" ]} = Raise TypeError.
Proof.
  assert (Hscalar : forall v tail first rest nested,
             (forall l, v <> VList l) ->
             v :: tail = first :: rest -> first <> VList nested).
  { intros v tail first rest nested Hv Heq. injection Heq as <- _. apply Hv. }
  split; [| split; [| split]].
  - apply (proj1 (pick_output_dtype_scalars _) [VBool true]).
    + vm_compute. reflexivity.
    + intros first rest nested. apply Hscalar. discriminate.
  - apply (proj1 (pick_output_dtype_scalars _) [VStr "9"; VInt 9]).
    + vm_compute. reflexivity.
    + intros first rest nested. apply Hscalar. discriminate.
  - apply (proj1 (pick_output_dtype_scalars _) [VNone; VInt 7]).
    + vm_compute. reflexivity.
    + intros first rest nested. apply Hscalar. discriminate.
  - apply (proj2 (pick_output_dtype_scalars _)).
    right. right. right. exists "1". vm_compute. reflexivity.
Defined.

(** ** The order of the report *)


Lemma rev_lookup {A} (l : list A) (i : nat) :
  (i < length l)%nat -> rev l !! i = l !! (length l - S i)%nat.
Proof. intros Hi. rewrite rev_alt. apply (reverse_lookup l i Hi). Qed.

Section TopKOrder.
Context {score : Type} (le : score -> score -> Prop) `{NumpyOrdered score le}.

(** The indices of the report by descending score, every index left out
    scoring no more than any index reported. *)
Lemma topk_indices_order (scores : list score) (top_k : Z) (indices : list nat) :
  topk_indices scores top_k = Ok indices ->
  (forall i j a b x y,
      (i <= j)%nat -> indices !! i = Some a -> indices !! j = Some b ->
      scores !! a = Some x -> scores !! b = Some y -> le y x)
  /\ (forall a b x y,
        a ∉ indices -> b ∈ indices ->
        scores !! a = Some x -> scores !! b = Some y -> le x y).
Proof.
  unfold topk_indices. cbv zeta.
  destruct (Z.min top_k (len scores) =? 1).
  - destruct (argmax scores) as [m|e] eqn:Hm; cbn [mbind result_bind];
      [| discriminate].
    intros Hi. injection Hi as <-. split.
    + intros i j a b x y _ Ha Hb Hx Hy.
      apply list_lookup_singleton_Some in Ha as [_ <-].
      apply list_lookup_singleton_Some in Hb as [_ <-].
      exact (argmax_greatest scores m x m y Hm Hx Hy).
    + intros a b x y _ Hb Hx Hy. apply list_elem_of_singleton in Hb as ->.
      exact (argmax_greatest scores m y a x Hm Hy Hx).
  - intros Hi. injection Hi as <-. unfold py_slice_from.
    set (start := Z.to_nat _). split.
    + intros i j a b x y Hij Ha Hb Hx Hy.
      pose proof (lookup_lt_Some _ _ _ Ha) as Hli.
      pose proof (lookup_lt_Some _ _ _ Hb) as Hlj.
      rewrite length_rev in Hli, Hlj.
      rewrite rev_lookup in Ha by exact Hli.
      rewrite rev_lookup in Hb by exact Hlj.
      rewrite lookup_drop in Ha, Hb.
      refine (argsort_ascending scores _ _ b a y x _ Hb Ha Hy Hx). lia.
    + intros a b x y Ha Hb Hx Hy.
      apply list_elem_of_In, in_rev, list_elem_of_In in Hb.
      apply list_elem_of_lookup in Hb as [q Hq]. rewrite lookup_drop in Hq.
      assert (Hin : a ∈ argsort scores).
      { rewrite (argsort_indices scores). apply elem_of_seq.
        apply lookup_lt_Some in Hx. lia. }
      apply list_elem_of_lookup in Hin as [p Hp].
      destruct (decide (p < start)%nat) as [Hlt|Hge].
      * refine (argsort_ascending scores p (start + q) a b x y _ Hp Hq Hx Hy). lia.
      * exfalso. apply Ha. apply list_elem_of_In. apply -> in_rev.
        apply list_elem_of_In. apply list_elem_of_lookup. exists (p - start)%nat.
        rewrite lookup_drop. replace (start + (p - start))%nat with p by lia.
        exact Hp.
Qed.

End TopKOrder.

(** The report lists the best scores first. Under numpy's ordering
    contract the scores of the printed lines never increase down the
    report, and no score left out of the report exceeds a printed one; this
    holds for every [top_k], on the [argmax] path and on the [argsort]
    path alike. *)
Theorem print_topk_best_first {score : Type} (le : score -> score -> Prop)
    `{NumpyOrdered score le} (scores : list score)
    (labels : option (list string)) (top_k : Z) :
  exists (indices : list nat) (lines : list (TopkLine score)),
    topk_indices scores top_k = Ok indices
    /\ _print_topk scores labels top_k = Ok lines
    /\ (forall i j a b,
          (i <= j)%nat -> lines !! i = Some a -> lines !! j = Some b ->
          le (line_score b) (line_score a))
    /\ (forall idx x line,
          scores !! idx = Some x -> idx ∉ indices -> line ∈ lines ->
          le x (line_score line)).
Proof.
  destruct (print_topk_lines scores labels top_k)
    as (indices & lines & Hind & Hprint & Hlen & Hlines).
  destruct (topk_indices_order le scores top_k indices Hind) as [Hdesc Hout].
  exists indices, lines. split; [exact Hind |]. split; [exact Hprint |]. split.
  - intros i j a b Hij Ha Hb.
    destruct (Hlines i a Ha) as (ia & Hia & _ & _ & Hsa & _).
    destruct (Hlines j b Hb) as (ib & Hib & _ & _ & Hsb & _).
    exact (Hdesc i j ia ib _ _ Hij Hia Hib Hsa Hsb).
  - intros idx x line Hx Hnot Hline.
    apply list_elem_of_lookup in Hline as [i Hi].
    destruct (Hlines i line Hi) as (il & Hil & _ & _ & Hsl & _).
    refine (Hout idx il x _ Hnot _ Hx Hsl).
    eapply list_elem_of_lookup_2. exact Hil.
Qed.

(** Five integer scores, the three best asked for. *)
Lemma print_topk_best_first_Z :
  exists (indices : list nat) (lines : list (TopkLine Z)),
    topk_indices [5; 9; 2; 9; 7] 3 = Ok indices
    /\ _print_topk [5; 9; 2; 9; 7] None 3 = Ok lines
    /\ (forall i j a b,
          (i <= j)%nat -> lines !! i = Some a -> lines !! j = Some b ->
          line_score b <= line_score a)
    /\ (forall idx x line,
          [5; 9; 2; 9; 7] !! idx = Some x -> idx ∉ indices -> line ∈ lines ->
          x <= line_score line).
Proof.
  exact (print_topk_best_first Z.le [5; 9; 2; 9; 7] None 3).
Defined.

Example print_topk_best_first_sample :
  (lines ← _print_topk [5; 9; 2; 9; 7] None 3; Ok (List.map line_score lines))
    = Ok [9; 9; 7]
  /\ (lines ← _print_topk [5; 9; 2; 9; 7] None 1; Ok (List.map line_score lines))
    = Ok [9]
  /\ (lines ← _print_topk [5; 9; 2; 9; 7] None (-3); Ok (List.map line_score lines))
    = Ok [9; 9].
Proof. repeat split; vm_compute; reflexivity. Qed.

(** ** The converter *)

Lemma ends_with_slash_spec (s : string) :
  ends_with_slash s = true -> exists d, s = d +:+ "/".
Proof.
  induction s as [|c s IH]; [discriminate |].
  cbn [ends_with_slash]. destruct s as [|c' s'].
  - intros Hc. apply Ascii.eqb_eq in Hc as ->. exists "". reflexivity.
  - intros Hs. destruct (IH Hs) as [d Hd]. exists (String c d).
    rewrite Hd. reflexivity.
Qed.

Lemma basename_go_no_slash (s tail : string) :
  has_slash s = false -> basename_go tail s = tail.
Proof.
  revert tail. induction s as [|c s IH]; intros tail Hs; [reflexivity |].
  cbn [has_slash] in Hs. apply orb_false_iff in Hs as [Hc Hs].
  cbn [basename_go]. rewrite Hc. apply IH. exact Hs.
Qed.

(** Joining a directory and a plain file name keeps the name as base name. *)
Lemma basename_path_join (dir name : string) :
  has_slash name = false -> basename (path_join dir name) = name.
Proof.
  intros Hname. unfold path_join.
  assert (Hpre : String.prefix "/" name = false).
  { destruct name as [|c name]; [reflexivity |].
    cbn [has_slash] in Hname. apply orb_false_iff in Hname as [Hc _].
    cbn [String.prefix].
    destruct (ascii_dec "/" c) as [<-|_]; [| reflexivity].
    rewrite Ascii.eqb_refl in Hc. discriminate Hc. }
  rewrite Hpre.
  assert (Hplain : basename_go name name = name)
    by (apply basename_go_no_slash; exact Hname).
  destruct (str_empty dir) eqn:Hempty; cbn [orb].
  - apply str_empty_spec in Hempty as ->. exact Hplain.
  - destruct (ends_with_slash dir) eqn:Hends.
    + destruct (ends_with_slash_spec dir Hends) as [d ->].
      unfold basename. rewrite append_assoc.
      change ("/" +:+ name) with (String "/" name).
      rewrite basename_go_app. exact Hplain.
    + unfold basename. change ("/" +:+ name) with (String "/" name).
      rewrite basename_go_app. exact Hplain.
Qed.

Lemma crop_size_block_pair (str_to_int : string -> option Z)
    (first second : PyVal) (rest : list PyVal) :
  crop_size_block str_to_int (VList (first :: second :: rest)) =
    (h ← py_int str_to_int first; w ← py_int str_to_int second; Ok (Return (h, w))).
Proof.
  cbn [crop_size_block].
  destruct (Z.leb_spec 2 (len (first :: second :: rest))) as [_|Hlt].
  - rewrite (py_index_lookup (first :: second :: rest) 0 first eq_refl
             : py_index (first :: second :: rest) 0 = Ok first).
    rewrite (py_index_lookup (first :: second :: rest) 1 second eq_refl
             : py_index (first :: second :: rest) 1 = Ok second).
    cbn [mbind result_bind]. reflexivity.
  - exfalso. unfold len in Hlt. cbn [length] in Hlt. lia.
Qed.

Lemma crop_size_block_single (str_to_int : string -> option Z) (first : PyVal) :
  crop_size_block str_to_int (VList [first]) =
    (size ← py_int str_to_int first; Ok (Return (size, size))).
Proof. reflexivity. Qed.

(** The size read off the weights, by the form of [crop_size]. *)
Lemma infer_input_size_from_weights_unfold (str_to_int : string -> option Z)
    (obj : gmap string PyVal) :
  _infer_input_size_from_weights str_to_int (Some {| transforms := Ok obj |}) =
    match py_getattr obj "crop_size" VNone with
    | VNone | VList [] => Ok default_size
    | VList [first] => size ← py_int str_to_int first; Ok (size, size)
    | VList (first :: second :: _) =>
        h ← py_int str_to_int first; w ← py_int str_to_int second; Ok (h, w)
    | (VBool _ | VInt _ | VStr _) as crop_size =>
        match py_int str_to_int crop_size with
        | Raise _ => Ok default_size
        | Ok size => Ok (size, size)
        end
    end.
Proof.
  unfold _infer_input_size_from_weights. cbn [transforms]. cbv zeta.
  destruct (py_getattr obj "crop_size" VNone) as [| b | z | s | items];
    try reflexivity.
  destruct items as [|first [|second rest]].
  - reflexivity.
  - rewrite crop_size_block_single.
    destruct (py_int str_to_int first); reflexivity.
  - rewrite crop_size_block_pair.
    destruct (py_int str_to_int first); [| reflexivity].
    destruct (py_int str_to_int second); reflexivity.
Qed.

(** When reading the weights fails. [_infer_input_size_from_weights] raises
    exactly when [crop_size] is a sequence whose first entry, or whose
    second entry after a first one that converts, is refused by [int()]:
    these conversions stand outside the [try]. Missing weights, a failing
    [transforms()], a missing or [None] attribute, an empty sequence and a
    scalar that does not convert all yield a size. *)
Theorem infer_input_size_from_weights_raises (str_to_int : string -> option Z)
    (weights : option Weights) (e : PyExc) :
  _infer_input_size_from_weights str_to_int weights = Raise e
  <-> exists (obj : gmap string PyVal) (items : list PyVal) (first : PyVal),
        weights = Some {| transforms := Ok obj |}
        /\ py_getattr obj "crop_size" VNone = VList items
        /\ items !! 0%nat = Some first
        /\ (py_int str_to_int first = Raise e
            \/ exists (h : Z) (second : PyVal),
                 py_int str_to_int first = Ok h
                 /\ items !! 1%nat = Some second
                 /\ py_int str_to_int second = Raise e).
Proof.
  split.
  - destruct weights as [[[obj|e']]|]; [| discriminate | discriminate].
    rewrite infer_input_size_from_weights_unfold.
    destruct (py_getattr obj "crop_size" VNone) as [| b | z | s | items] eqn:Hcrop;
      try discriminate.
    + destruct (py_int str_to_int (VStr s)); discriminate.
    + destruct items as [|first [|second rest]]; [discriminate | |].
      * destruct (py_int str_to_int first) as [size|e'] eqn:Hfirst;
          cbn [mbind result_bind]; [discriminate |].
        intros He. injection He as ->.
        exists obj, [first], first. auto.
      * destruct (py_int str_to_int first) as [h|e'] eqn:Hfirst;
          cbn [mbind result_bind].
        -- destruct (py_int str_to_int second) as [w|e'] eqn:Hsecond;
             cbn [mbind result_bind]; [discriminate |].
           intros He. injection He as ->.
           exists obj, (first :: second :: rest), first.
           split; [reflexivity |]. split; [exact Hcrop |].
           split; [reflexivity |]. right. exists h, second. auto.
        -- intros He. injection He as ->.
           exists obj, (first :: second :: rest), first. auto.
  - intros (obj & items & first & -> & Hcrop & Hfirst & Hfail).
    rewrite infer_input_size_from_weights_unfold, Hcrop.
    destruct items as [|first' [|second' rest]]; [discriminate Hfirst | |];
      cbn in Hfirst; injection Hfirst as ->.
    + destruct Hfail as [-> | (h & second & _ & Hsecond & _)];
        [reflexivity | discriminate Hsecond].
    + destruct Hfail as [-> | (h & second & -> & Hsecond & Hraise)];
        [reflexivity |].
      cbn in Hsecond. injection Hsecond as ->. rewrite Hraise. reflexivity.
Qed.

(** A crop size given as text, as a pair with a bad second entry, and as a
    pair of numbers. *)
Example infer_input_size_from_weights_samples :
  _infer_input_size_from_weights plain_decimal
    (Some {| transforms := Ok {[ "crop_size" := VStr "big" ]} |}) = Ok (224, 224)
  /\ _infer_input_size_from_weights plain_decimal
    (Some {| transforms := Ok {[ "crop_size" := VList [VInt 384; VNone] ]} |})
     = Raise TypeError
  /\ _infer_input_size_from_weights plain_decimal
    (Some {| transforms := Ok {[ "crop_size" := VList [VInt 384; VInt 480] ]} |})
     = Ok (384, 480)
  /\ _infer_input_size_from_weights plain_decimal
    (Some {| transforms := Raise TypeError |}) = Ok (224, 224).
Proof. repeat split; vm_compute; reflexivity. Qed.

(** The sizes the converter can get. A size that is not square comes only
    from a [crop_size] sequence of at least two entries, whose first two
    entries are the height and the width; entries after the second are
    ignored, and every other form of metadata gives a square. *)
Theorem infer_input_size_from_weights_values (str_to_int : string -> option Z)
    (weights : option Weights) (h w : Z) :
  _infer_input_size_from_weights str_to_int weights = Ok (h, w) ->
  h = w
  \/ exists (obj : gmap string PyVal) (first second : PyVal) (rest : list PyVal),
       weights = Some {| transforms := Ok obj |}
       /\ py_getattr obj "crop_size" VNone = VList (first :: second :: rest)
       /\ py_int str_to_int first = Ok h
       /\ py_int str_to_int second = Ok w.
Proof.
  destruct weights as [[[obj|e']]|].
  - rewrite infer_input_size_from_weights_unfold.
    destruct (py_getattr obj "crop_size" VNone) as [| b | z | s | items] eqn:Hcrop.
    + intros Hok. injection Hok as <- <-. left. reflexivity.
    + cbn [py_int]. intros Hok. injection Hok as <- <-. left. reflexivity.
    + cbn [py_int]. intros Hok. injection Hok as <- <-. left. reflexivity.
    + destruct (py_int str_to_int (VStr s)); intros Hok;
        injection Hok as <- <-; left; reflexivity.
    + destruct items as [|first [|second rest]].
      * intros Hok. injection Hok as <- <-. left. reflexivity.
      * destruct (py_int str_to_int first); cbn [mbind result_bind];
          [| discriminate].
        intros Hok. injection Hok as <- <-. left. reflexivity.
      * destruct (py_int str_to_int first) as [h'|] eqn:Hfirst;
          cbn [mbind result_bind]; [| discriminate].
        destruct (py_int str_to_int second) as [w'|] eqn:Hsecond;
          cbn [mbind result_bind]; [| discriminate].
        intros Hok. injection Hok as <- <-. right.
        exists obj, first, second, rest. auto.
  - intros Hok. injection Hok as <- <-. left. reflexivity.
  - intros Hok. injection Hok as <- <-. left. reflexivity.
Qed.

(** A three-entry crop size: the third entry plays no part. *)
Lemma infer_input_size_from_weights_values_pair :
  384 = 480
  \/ exists (obj : gmap string PyVal) (first second : PyVal) (rest : list PyVal),
       Some {| transforms :=
                 Ok {[ "crop_size" := VList [VInt 384; VInt 480; VNone] ]} |}
         = Some {| transforms := Ok obj |}
       /\ py_getattr obj "crop_size" VNone = VList (first :: second :: rest)
       /\ py_int plain_decimal first = Ok 384
       /\ py_int plain_decimal second = Ok 480.
Proof.
  exact (infer_input_size_from_weights_values plain_decimal
           (Some {| transforms :=
                      Ok {[ "crop_size" := VList [VInt 384; VInt 480; VNone] ]} |})
           384 480 eq_refl).
Defined.

(** From converter to classifier. A model whose input metadata reports the
    shape of the converter's sample input, [(1, 3, h, w)] for the size
    [(h, w)] read off the weights, has that size inferred back by the
    classifier, whatever the numbers are. Had the model been exported
    channel-last, as [(1, h, w, 3)], the size would come back too, except
    for [h = 3], which is read as a channel count. *)
Theorem convert_sample_shape_inferred (str_to_int : string -> option Z)
    (weights : option Weights) (model : CompiledModel) (signature_index : Z)
    (requirements : gmap string PyVal) (h w : Z) :
  _infer_input_size_from_weights str_to_int weights = Ok (h, w) ->
  get_input_buffer_requirements model 0 signature_index = Ok requirements ->
  (select_dims requirements = VList (VInt <$> sample_shape h w) ->
   _infer_input_size str_to_int model signature_index
     = _infer_input_size_from_weights str_to_int weights)
  /\ (select_dims requirements = VList (VInt <$> [1; h; w; 3]) ->
      _infer_input_size str_to_int model signature_index
        = Ok (if h =? 3 then (w, 3) else (h, w))).
Proof.
  intros Hweights Hget. split; intros Hsel.
  - rewrite Hweights.
    rewrite (infer_input_size_ints _ _ _ _ (sample_shape h w) Hget Hsel)
      by discriminate.
    unfold sample_shape. rewrite rank4_block_rules. reflexivity.
  - rewrite (infer_input_size_ints _ _ _ _ [1; h; w; 3] Hget Hsel)
      by discriminate.
    rewrite rank4_block_rules. cbn [mbind result_bind].
    destruct (h =? 3); reflexivity.
Qed.

(** MobileNet's weights, with a crop size of [224]. *)
Lemma convert_sample_shape_inferred_mobilenet :
  _infer_input_size plain_decimal
    (fake_model (Ok {[ "dimensions" := VList [VInt 1; VInt 3; VInt 224; VInt 224] ]}))
    0
  = _infer_input_size_from_weights plain_decimal
      (Some {| transforms := Ok {[ "crop_size" := VList [VInt 224] ]} |}).
Proof.
  exact (proj1 (convert_sample_shape_inferred plain_decimal
           (Some {| transforms := Ok {[ "crop_size" := VList [VInt 224] ]} |})
           (fake_model
              (Ok {[ "dimensions" := VList [VInt 1; VInt 3; VInt 224; VInt 224] ]}))
           0 {[ "dimensions" := VList [VInt 1; VInt 3; VInt 224; VInt 224] ]}
           224 224 eq_refl eq_refl) eq_refl).
Defined.

(** Every architecture the command line accepts has a model spec, built by
    the torchvision function of the same name; for any other name the
    lookup raises [ValueError]. *)
Theorem model_spec_of_choices (arch : string) :
  (arch ∈ arch_choices ->
   exists weights_name, model_spec_of arch = Ok (arch, weights_name))
  /\ (arch ∉ arch_choices ->
      model_spec_of arch
        = Raise (ValueError ("Unsupported architecture: " +:+ arch))).
Proof.
  split.
  - intros Hin. unfold arch_choices in Hin.
    repeat (apply elem_of_cons in Hin as [->|Hin];
            [eexists; vm_compute; reflexivity |]).
    apply elem_of_nil in Hin. contradiction.
  - intros Hnot. unfold model_spec_of.
    assert (Hnone : (list_to_map model_specs : gmap string (string * string))
                      !! arch = None).
    { apply not_elem_of_list_to_map_1. exact Hnot. }
    rewrite Hnone. reflexivity.
Qed.

Lemma model_spec_of_choices_cases :
  (exists weights_name, model_spec_of "resnet50" = Ok ("resnet50", weights_name))
  /\ model_spec_of "vgg16"
     = Raise (ValueError ("Unsupported architecture: " +:+ "vgg16")).
Proof.
  split.
  - apply (proj1 (model_spec_of_choices "resnet50")).
    unfold arch_choices. apply list_elem_of_In. vm_compute. tauto.
  - apply (proj2 (model_spec_of_choices "vgg16")).
    unfold arch_choices. intros Hin. apply list_elem_of_In in Hin. vm_compute in Hin.
    intuition discriminate.
Defined.

Ltac eval_patterns :=
  repeat match goal with
         | |- context [str_contains ?p (lower ?s)] =>
             let b := eval vm_compute in (str_contains p (lower s)) in
             change (str_contains p (lower s)) with b
         end;
  cbv iota.

(** The file the converter writes by default is recognised by the
    classifier. For every architecture of the command line and every
    working directory, the default output path has the base name
    [<arch>.tflite]; the classifier selects from it the config of the
    architecture's own family, 600 for the efficientnet_b models and 384 or
    480 for the v2 models, and for mobilenet_v2 and the resnets no family
    pattern matches, which leaves the generic config. With the default
    architecture the path is the classifier's default model path. *)
Theorem convert_default_output_config (output : option string)
    (cwd arch : string) (input_height input_width : Z) :
  arch ∈ arch_choices ->
  output = None \/ output = Some "" ->
  basename (convert_output_path output cwd arch) = arch +:+ ".tflite"
  /\ (String.prefix "efficientnet_b" arch = true ->
      _pick_preprocess_config (convert_output_path output cwd arch)
        input_height input_width
      = Ok {| resize_size := 600; crop_height := 600; crop_width := 600;
              mean := [0.485; 0.456; 0.406]%Q; std := [0.229; 0.224; 0.225]%Q;
              resample := BICUBIC |})
  /\ (arch = "efficientnet_v2_s" ->
      _pick_preprocess_config (convert_output_path output cwd arch)
        input_height input_width
      = Ok {| resize_size := 384; crop_height := 384; crop_width := 384;
              mean := [0.485; 0.456; 0.406]%Q; std := [0.229; 0.224; 0.225]%Q;
              resample := BILINEAR |})
  /\ (arch = "efficientnet_v2_m" ->
      _pick_preprocess_config (convert_output_path output cwd arch)
        input_height input_width
      = Ok {| resize_size := 480; crop_height := 480; crop_width := 480;
              mean := [0.485; 0.456; 0.406]%Q; std := [0.229; 0.224; 0.225]%Q;
              resample := BILINEAR |})
  /\ (arch = "efficientnet_v2_l" ->
      _pick_preprocess_config (convert_output_path output cwd arch)
        input_height input_width
      = Ok {| resize_size := 480; crop_height := 480; crop_width := 480;
              mean := [0.5; 0.5; 0.5]%Q; std := [0.5; 0.5; 0.5]%Q;
              resample := BICUBIC |})
  /\ (String.prefix "efficientnet" arch = false ->
      Forall (fun pattern =>
                str_contains pattern
                  (lower (basename (convert_output_path output cwd arch))) = false)
        ["efficientnet_v2_s"; "efficientnet_v2_m"; "efficientnet_v2_l";
         "efficientnet_b"])
  /\ (arch = arch_default ->
      convert_output_path output cwd arch = _default_model_path cwd).
Proof.
  intros Hin Hout.
  assert (Hpath : convert_output_path output cwd arch
                  = path_join cwd (arch +:+ ".tflite")).
  { destruct Hout as [-> | ->]; reflexivity. }
  rewrite Hpath. clear Hpath Hout.
  assert (Hbase : basename (path_join cwd (arch +:+ ".tflite")) = arch +:+ ".tflite").
  { apply basename_path_join. unfold arch_choices in Hin.
    repeat (apply elem_of_cons in Hin as [->|Hin]; [reflexivity |]).
    apply elem_of_nil in Hin. contradiction. }
  split; [exact Hbase |].
  unfold _pick_preprocess_config. cbv zeta. rewrite Hbase.
  unfold arch_choices in Hin.
  repeat (apply elem_of_cons in Hin as [->|Hin];
          [ repeat split;
            solve [ intros Hcase; vm_compute in Hcase; discriminate Hcase
                  | intros _; eval_patterns; reflexivity
                  | intros _; repeat constructor ] |]).
  apply elem_of_nil in Hin. contradiction.
Qed.

(** The converter run without [--output], for a resnet and for the default
    architecture. *)
Lemma convert_default_output_config_resnet :
  basename (convert_output_path None "/home/user/efficientnet_b0" "resnet50")
    = "resnet50.tflite"
  /\ convert_output_path (Some "") "/work" "mobilenet_v2" = _default_model_path "/work".
Proof.
  split.
  - apply (proj1 (convert_default_output_config None
             "/home/user/efficientnet_b0" "resnet50" 224 224
             ltac:(unfold arch_choices; apply list_elem_of_In; vm_compute; tauto)
             (or_introl eq_refl))).
  - apply (proj2 (proj2 (proj2 (proj2 (proj2 (proj2
             (convert_default_output_config (Some "") "/work" "mobilenet_v2" 224 224
                ltac:(unfold arch_choices; apply list_elem_of_In; vm_compute; tauto)
                (or_intror eq_refl)))))))).
    reflexivity.
Defined.

(** * Normalisation of the scores: [_softmax] *)

(** ** Rounding to float32 *)

Lemma pow2_gt_0 (k : Z) : 0 <= k -> 0 < 2 ^ k.
Proof. intros Hk. apply Z.pow_pos_nonneg; lia. Qed.

Lemma pow2_add (a b : Z) : 0 <= a -> 0 <= b -> 2 ^ (a + b) = 2 ^ a * 2 ^ b.
Proof. intros Ha Hb. apply Z.pow_add_r; assumption. Qed.

(** The bits of a natural number. *)
Lemma Zdigits2_bounds (m : Z) :
  0 < m -> 0 < Zdigits2 m /\ 2 ^ (Zdigits2 m - 1) <= m < 2 ^ Zdigits2 m.
Proof.
  intros Hm. destruct m as [|p|p]; try lia. cbn [Zdigits2].
  split; [lia | apply digits2_pos_bounds].
Qed.

Lemma Zdigits2_le (m k : Z) : 0 <= m < 2 ^ k -> 0 <= k -> Zdigits2 m <= k.
Proof.
  intros Hm Hk. destruct m as [|p|p]; try lia.
  - cbn [Zdigits2]. exact Hk.
  - cbn [Zdigits2]. apply (Zdigits2_pos_range p k); lia.
Qed.

(** One shift to the right halves the significand. *)
Lemma shr_1_m (mrs : shr_record) :
  0 <= shr_m mrs -> shr_m (shr_1 mrs) = shr_m mrs / 2.
Proof.
  destruct mrs as [m r s]. cbn [shr_m]. intros Hm.
  destruct m as [|[p|p|]|p]; cbn [shr_1 shr_m]; try lia.
  - reflexivity.
  - apply Z.div_unique with 1; lia.
  - apply Z.div_unique with 0; lia.
  - reflexivity.
Qed.

Lemma iter_shr_1_m (p : positive) :
  forall mrs : shr_record,
    0 <= shr_m mrs ->
    shr_m (SpecFloat.iter_pos shr_1 p mrs) = shr_m mrs / 2 ^ Z.pos p.
Proof.
  induction p as [p IH|p IH|]; intros mrs Hm; cbn [SpecFloat.iter_pos].
  - assert (H1 : 0 <= shr_m (shr_1 mrs)).
    { rewrite shr_1_m by exact Hm. apply Z.div_pos; lia. }
    assert (H2 : 0 <= shr_m (SpecFloat.iter_pos shr_1 p (shr_1 mrs))).
    { rewrite IH by exact H1. apply Z.div_pos; [exact H1 |]. apply pow2_gt_0. lia. }
    rewrite IH by exact H2. rewrite IH by exact H1. rewrite shr_1_m by exact Hm.
    pose proof (pow2_gt_0 (Z.pos p) ltac:(lia)) as Hpos.
    rewrite !Z.div_div by lia. f_equal.
    assert (Hx : Z.pos p~1 = 1 + Z.pos p + Z.pos p) by lia.
    rewrite Hx, !pow2_add by lia. change (2 ^ 1) with 2. lia.
  - assert (H2 : 0 <= shr_m (SpecFloat.iter_pos shr_1 p mrs)).
    { rewrite IH by exact Hm. apply Z.div_pos; [exact Hm |]. apply pow2_gt_0. lia. }
    rewrite IH by exact H2. rewrite IH by exact Hm.
    pose proof (pow2_gt_0 (Z.pos p) ltac:(lia)) as Hpos.
    rewrite Z.div_div by lia. f_equal.
    assert (Hx : Z.pos p~0 = Z.pos p + Z.pos p) by lia.
    rewrite Hx, pow2_add by lia. reflexivity.
  - rewrite shr_1_m by exact Hm. reflexivity.
Qed.

(** [shr_fexp] shifts a significand down to the exponent the format asks
    for, and leaves it alone when the exponent is already there. *)
Lemma shr_fexp_m (m e : Z) (l : location) :
  0 <= m ->
  exists mrs : shr_record,
    shr_fexp 24 128 m e l
      = (mrs, Z.max e (fexp 24 128 (Zdigits2 m + e)))
    /\ shr_m mrs = m / 2 ^ (Z.max e (fexp 24 128 (Zdigits2 m + e)) - e).
Proof.
  intros Hm. unfold shr_fexp, shr.
  set (fe := fexp 24 128 (Zdigits2 m + e)).
  destruct (fe - e) as [|p|p] eqn:Hn.
  - exists (shr_record_of_loc m l).
    replace (Z.max e fe) with e by lia.
    rewrite Z.sub_diag, Z.div_1_r, shr_m_record_of_loc. auto.
  - exists (SpecFloat.iter_pos shr_1 p (shr_record_of_loc m l)).
    replace (Z.max e fe) with (e + Z.pos p) by lia.
    split; [reflexivity |].
    rewrite iter_shr_1_m by (rewrite shr_m_record_of_loc; exact Hm).
    rewrite shr_m_record_of_loc. f_equal. f_equal. lia.
  - exists (shr_record_of_loc m l).
    replace (Z.max e fe) with e by lia.
    rewrite Z.sub_diag, Z.div_1_r, shr_m_record_of_loc. auto.
Qed.

(** Rounding to float32, for any significand, exponent and location: the
    result is a zero, a finite number or an infinity of the given sign;
    its exponent is the one the format asks for, or one more; and its
    significand is within one unit of the truncated one. *)
Lemma binary_round_aux_f32 (sx : bool) (mx ex : Z) (lx : location) :
  0 <= mx ->
  exists m3 e3 : Z,
    binary_round_aux 24 128 sx mx ex lx =
      match m3 with
      | Z0 => S754_zero sx
      | Zpos p => if e3 <=? 104 then S754_finite sx p e3 else S754_infinity sx
      | Zneg _ => S754_nan
      end
    /\ 0 <= m3
    /\ Z.max ex (fexp 24 128 (Zdigits2 mx + ex)) <= e3
         <= Z.max ex (fexp 24 128 (Zdigits2 mx + ex)) + 1
    /\ mx / 2 ^ (Z.max ex (fexp 24 128 (Zdigits2 mx + ex)) - ex) - 1
         <= m3 * 2 ^ (e3 - Z.max ex (fexp 24 128 (Zdigits2 mx + ex)))
         <= mx / 2 ^ (Z.max ex (fexp 24 128 (Zdigits2 mx + ex)) - ex) + 1
    /\ mx / 2 ^ (Z.max ex (fexp 24 128 (Zdigits2 mx + ex)) - ex) < 2 ^ 24
    /\ -149 <= Z.max ex (fexp 24 128 (Zdigits2 mx + ex)).
Proof.
  intros Hmx. unfold binary_round_aux.
  destruct (shr_fexp_m mx ex lx Hmx) as (mrs & -> & Hm1).
  set (e1 := Z.max ex (fexp 24 128 (Zdigits2 mx + ex))) in *.
  set (m1 := mx / 2 ^ (e1 - ex)) in *.
  assert (He1 : -149 <= e1 /\ ex <= e1 /\ Zdigits2 mx + ex - 24 <= e1).
  { subst e1. unfold fexp, emin. lia. }
  assert (Hshift : 0 < 2 ^ (e1 - ex)) by (apply pow2_gt_0; lia).
  assert (Hm1pos : 0 <= m1) by (subst m1; apply Z.div_pos; lia).
  assert (Hm1lt : m1 < 2 ^ 24).
  { subst m1. apply Z.div_lt_upper_bound; [exact Hshift |].
    destruct (Z.eq_dec mx 0) as [->|Hne].
    - pose proof (pow2_gt_0 24 ltac:(lia)). nia.
    - destruct (Zdigits2_bounds mx ltac:(lia)) as [Hd Hb].
      assert (2 ^ Zdigits2 mx <= 2 ^ (e1 - ex + 24))
        by (apply Z.pow_le_mono_r; lia).
      rewrite pow2_add in H by lia. lia. }
  rewrite Hm1.
  pose proof (round_nearest_even_bounds m1 (loc_of_shr_record mrs)) as Hr.
  set (m2 := round_nearest_even m1 (loc_of_shr_record mrs)) in *.
  destruct (shr_fexp_m m2 e1 loc_Exact ltac:(lia)) as (mrs' & -> & Hm3).
  set (e3 := Z.max e1 (fexp 24 128 (Zdigits2 m2 + e1))) in *.
  assert (Hd2 : Zdigits2 m2 <= 25).
  { apply Zdigits2_le; [| lia]. change (2 ^ 25) with (2 * 2 ^ 24). lia. }
  assert (He3 : e1 <= e3 <= e1 + 1).
  { subst e3. unfold fexp, emin. lia. }
  exists (m2 / 2 ^ (e3 - e1)), e3.
  rewrite Hm3. change (128 - 24) with 104.
  assert (Hm3pos : 0 <= m2 / 2 ^ (e3 - e1)).
  { apply Z.div_pos; [lia | apply pow2_gt_0; lia]. }
  split; [reflexivity |]. split; [exact Hm3pos |]. split; [exact He3 |].
  split; [| split; [exact Hm1lt | lia]].
  destruct (Z.eq_dec e3 e1) as [Heq|Hne].
  - rewrite Heq, Z.sub_diag. change (2 ^ 0) with 1. rewrite Z.div_1_r. lia.
  - replace (e3 - e1) with 1 by lia. change (2 ^ 1) with 2.
    pose proof (Z.div_mod m2 2 ltac:(lia)) as Hdm.
    pose proof (Z.mod_pos_bound m2 2 ltac:(lia)) as Hmod. lia.
Qed.

(** ** Float32 numbers and their values *)

Lemma unit_scale_Z : Z.pos unit_scale = 2 ^ 149.
Proof. reflexivity. Qed.

Lemma valid_f32_exponent (s : bool) (m : positive) (e : Z) :
  valid_binary 24 128 (S754_finite s m e) = true ->
  e = fexp 24 128 (Z.pos (digits2_pos m) + e) /\ -149 <= e <= 104.
Proof.
  cbn [valid_binary]. unfold bounded, canonical_mantissa.
  intros Hv. apply andb_true_iff in Hv as [Hc Hb].
  apply Z.eqb_eq in Hc. apply Z.leb_le in Hb.
  split; [symmetry; exact Hc |].
  unfold fexp, emin in Hc. lia.
Qed.

Lemma f32_number_in_range (x : float32) : f32_number x -> in_range x.
Proof.
  intros [_ Hv]. destruct x as [s | s | | s m e]; cbn [in_range]; try exact I.
  apply valid_f32_exponent in Hv. lia.
Qed.

Lemma f32_value_units (x : float32) :
  in_range x -> (f32_value x == f32_units x # unit_scale)%Q.
Proof.
  destruct x as [s | s | | s m e]; cbn [in_range f32_value f32_units];
    try (intros _; reflexivity).
  intros He. unfold Qeq. cbn [Qnum Qden]. rewrite unit_scale_Z.
  destruct (Z.leb_spec 0 e) as [Hpos|Hneg]; cbn [inject_Z Qnum Qden].
  - rewrite (pow2_add e 149) by lia. destruct s; cbn [cond_Zopp]; ring.
  - rewrite Z2Pos.id by (apply pow2_gt_0; lia).
    assert (Hsplit : 2 ^ 149 = 2 ^ (e + 149) * 2 ^ (- e)).
    { rewrite <- pow2_add by lia. f_equal. lia. }
    rewrite Hsplit. destruct s; cbn [cond_Zopp]; ring.
Qed.

Lemma Qle_units (a b : Z) : (a # unit_scale <= b # unit_scale)%Q <-> a <= b.
Proof. unfold Qle. cbn [Qnum Qden]. nia. Qed.

Lemma f32_value_le (x y : float32) :
  in_range x -> in_range y ->
  (f32_value x <= f32_value y)%Q <-> f32_units x <= f32_units y.
Proof.
  intros Hx Hy. rewrite (f32_value_units x Hx), (f32_value_units y Hy).
  apply Qle_units.
Qed.

Lemma f32_value_unit_interval (x : float32) :
  in_range x ->
  (0 <= f32_value x <= 1)%Q <-> 0 <= f32_units x <= 2 ^ 149.
Proof.
  intros Hx. rewrite (f32_value_units x Hx).
  unfold Qle. cbn [Qnum Qden]. rewrite unit_scale_Z. lia.
Qed.

Lemma sum_Q_units (xs : list float32) :
  Forall in_range xs ->
  (sum_Q (f32_value <$> xs) == foldr Z.add 0%Z (f32_units <$> xs) # unit_scale)%Q.
Proof.
  induction 1 as [|x xs Hx Hxs IH]; cbn [fmap list_fmap sum_Q fold_right foldr].
  - reflexivity.
  - fold (sum_Q (f32_value <$> xs)). rewrite IH, (f32_value_units x Hx).
    unfold Qeq, Qplus. cbn [Qnum Qden]. rewrite Pos2Z.inj_mul. ring.
Qed.

(** ** Subtracting the maximum *)

Lemma shl_align_value (m : positive) (e ez : Z) :
  ez <= e -> Z.pos (fst (shl_align m e ez)) = Z.pos m * 2 ^ (e - ez).
Proof.
  intros Hle. unfold shl_align.
  destruct (ez - e) as [|d|d] eqn:Hd; cbn [fst]; try lia.
  - replace (e - ez) with 0 by lia. change (2 ^ 0) with 1. lia.
  - rewrite iter_xO_pow2. f_equal. f_equal. lia.
Qed.

(** Rounding an integer that is not positive gives zero, a negative number
    or minus infinity. *)
Lemma binary_normalize_nonpositive (z e : Z) :
  z <= 0 -> nonpositive (binary_normalize 24 128 z e false) = true.
Proof.
  intros Hz. destruct z as [|p|p]; [reflexivity | lia |].
  cbn [binary_normalize]. unfold binary_round.
  destruct (shl_align p e _) as [mz ez].
  destruct (binary_round_aux_f32 true (Z.pos mz) ez loc_Exact ltac:(lia))
    as (m3 & e3 & -> & Hm3 & _).
  destruct m3 as [|q|q]; [reflexivity | | lia].
  destruct (e3 <=? 104); reflexivity.
Qed.

Lemma f32_units_sign (s : bool) (m : positive) (e : Z) :
  -149 <= e ->
  (s = true -> f32_units (S754_finite s m e) < 0)
  /\ (s = false -> 0 < f32_units (S754_finite s m e)).
Proof.
  intros He. pose proof (pow2_gt_0 (e + 149) ltac:(lia)) as Hp.
  cbn [f32_units]. split; intros ->; cbn [cond_Zopp]; nia.
Qed.

(** The difference of a number and one that is no smaller is zero, negative
    or minus infinity. *)
Lemma f32_sub_nonpositive (x y : float32) :
  f32_finite x = true -> f32_finite y = true -> in_range x -> in_range y ->
  f32_units x <= f32_units y ->
  nonpositive (f32_sub x y) = true.
Proof.
  intros Hfx Hfy Hrx Hry Hle. unfold f32_sub.
  destruct x as [sx | sx | | sx mx ex]; try discriminate Hfx;
    destruct y as [sy | sy | | sy my ey]; try discriminate Hfy.
  - destruct sx, sy; reflexivity.
  - cbn [SFsub nonpositive]. cbn [in_range] in Hry.
    destruct (f32_units_sign sy my ey Hry) as [Hneg _].
    destruct sy; [| reflexivity]. specialize (Hneg eq_refl).
    cbn [f32_units] in Hle, Hneg. lia.
  - cbn [SFsub nonpositive]. cbn [in_range] in Hrx.
    destruct (f32_units_sign sx mx ex Hrx) as [_ Hpos].
    destruct sx; [reflexivity |]. specialize (Hpos eq_refl).
    cbn [f32_units] in Hle, Hpos. lia.
  - cbn [SFsub]. cbn [in_range] in Hrx, Hry.
    apply binary_normalize_nonpositive.
    set (ez := Z.min ex ey).
    rewrite !shl_align_value by (subst ez; lia).
    cbn [f32_units] in Hle.
    assert (Hx : 2 ^ (ex + 149) = 2 ^ (ex - ez) * 2 ^ (ez + 149)).
    { rewrite <- pow2_add by (subst ez; lia). f_equal. lia. }
    assert (Hy : 2 ^ (ey + 149) = 2 ^ (ey - ez) * 2 ^ (ez + 149)).
    { rewrite <- pow2_add by (subst ez; lia). f_equal. lia. }
    pose proof (pow2_gt_0 (ez + 149) ltac:(subst ez; lia)) as Hu.
    rewrite Hx, Hy in Hle.
    set (ax := Z.pos mx * 2 ^ (ex - ez)) in *.
    set (ay := Z.pos my * 2 ^ (ey - ez)) in *.
    set (u := 2 ^ (ez + 149)) in *.
    destruct sx, sy; cbn [cond_Zopp] in *; nia.
Qed.

(** A number minus itself is zero. *)
Lemma f32_sub_self (x : float32) :
  f32_finite x = true -> exists s, f32_sub x x = S754_zero s.
Proof.
  unfold f32_sub. destruct x as [s | s | | s m e]; try discriminate; intros _.
  - destruct s; eexists; reflexivity.
  - cbn [SFsub]. rewrite Z.sub_diag. eexists. reflexivity.
Qed.

(** ** Dividing by the sum *)

(** The quotient of the significands, before rounding. *)
Lemma SFdiv_core_f32 (ma mb : positive) (ea eb : Z) :
  exists (q : Z) (l : location),
    SFdiv_core_binary 24 128 (Z.pos ma) ea (Z.pos mb) eb
      = (q,
         Z.min (fexp 24 128 (Zdigits2 (Z.pos ma) + ea - (Zdigits2 (Z.pos mb) + eb)))
               (ea - eb),
         l)
    /\ 0 <= q
    /\ Z.pos mb * q
         <= Z.pos ma
            * 2 ^ (ea - eb
                   - Z.min (fexp 24 128 (Zdigits2 (Z.pos ma) + ea
                                         - (Zdigits2 (Z.pos mb) + eb)))
                           (ea - eb))
         < Z.pos mb * (q + 1).
Proof.
  unfold SFdiv_core_binary.
  set (e' := Z.min _ (ea - eb)).
  assert (Hs : 0 <= ea - eb - e') by (subst e'; lia).
  set (m' := match ea - eb - e' with
             | 0 => Z.pos ma
             | Z.pos _ => Z.shiftl (Z.pos ma) (ea - eb - e')
             | Z.neg _ => 0
             end).
  assert (Hm' : m' = Z.pos ma * 2 ^ (ea - eb - e')).
  { subst m'. destruct (ea - eb - e') as [|p|p] eqn:Hp; try lia.
    rewrite Z.shiftl_mul_pow2 by lia. reflexivity. }
  pose proof (Z_div_mod m' (Z.pos mb) ltac:(lia)) as Hdiv.
  destruct (Z.div_eucl m' (Z.pos mb)) as [q r].
  exists q, (new_location (Z.pos mb) r). split; [reflexivity |].
  rewrite <- Hm'.
  assert (0 <= m').
  { rewrite Hm'. pose proof (pow2_gt_0 _ Hs). nia. }
  split; nia.
Qed.

Lemma pow2_le (a b : Z) : a <= b -> 2 ^ a <= 2 ^ b.
Proof. intros Hab. apply Z.pow_le_mono_r; lia. Qed.

Lemma pow2_lt_inv (a b : Z) : 0 <= a -> 2 ^ a < 2 ^ b -> a < b.
Proof.
  intros Ha Hlt. destruct (Z.lt_ge_cases a b) as [|Hge]; [assumption |].
  pose proof (pow2_le b a Hge). lia.
Qed.

(** The significand of a float32 number has at most 24 bits. *)
Lemma f32_mantissa_bounds (s : bool) (m : positive) (e : Z) :
  valid_binary 24 128 (S754_finite s m e) = true ->
  1 <= Zdigits2 (Z.pos m) <= 24
  /\ 2 ^ (Zdigits2 (Z.pos m) - 1) <= Z.pos m < 2 ^ Zdigits2 (Z.pos m)
  /\ -149 <= e <= 104
  /\ e = fexp 24 128 (Zdigits2 (Z.pos m) + e).
Proof.
  intros Hv. destruct (valid_f32_exponent s m e Hv) as [Hc He].
  destruct (Zdigits2_bounds (Z.pos m) ltac:(lia)) as [Hd Hb].
  cbn [Zdigits2] in *. unfold fexp, emin in Hc.
  split; [lia |]. split; [exact Hb |]. split; [exact He |].
  unfold fexp, emin. lia.
Qed.

(** Where a positive number lies, in units. *)
Lemma f32_units_bounds (m : positive) (e : Z) :
  -149 <= e ->
  2 ^ (Zdigits2 (Z.pos m) - 1 + (e + 149)) <= Z.pos m * 2 ^ (e + 149)
    < 2 ^ (Zdigits2 (Z.pos m) + (e + 149)).
Proof.
  intros He. destruct (Zdigits2_bounds (Z.pos m) ltac:(lia)) as [Hd Hb].
  pose proof (pow2_gt_0 (e + 149) ltac:(lia)) as Hp.
  rewrite (pow2_add (Zdigits2 (Z.pos m) - 1) (e + 149)) by lia.
  rewrite (pow2_add (Zdigits2 (Z.pos m)) (e + 149)) by lia.
  nia.
Qed.

(** Two float32 numbers with the same value are the same datum. *)
Lemma f32_positive_unique (ma mb : positive) (ea eb : Z) :
  valid_binary 24 128 (S754_finite false ma ea) = true ->
  valid_binary 24 128 (S754_finite false mb eb) = true ->
  Z.pos ma * 2 ^ (ea + 149) = Z.pos mb * 2 ^ (eb + 149) ->
  ma = mb /\ ea = eb.
Proof.
  intros Hva Hvb Heq.
  destruct (f32_mantissa_bounds _ _ _ Hva) as (Hda & _ & Hea & Hca).
  destruct (f32_mantissa_bounds _ _ _ Hvb) as (Hdb & _ & Heb & Hcb).
  pose proof (f32_units_bounds ma ea ltac:(lia)) as Hua.
  pose proof (f32_units_bounds mb eb ltac:(lia)) as Hub.
  assert (Hexp : Zdigits2 (Z.pos ma) + ea = Zdigits2 (Z.pos mb) + eb).
  { assert (Zdigits2 (Z.pos ma) - 1 + (ea + 149) < Zdigits2 (Z.pos mb) + (eb + 149))
      by (apply pow2_lt_inv; lia).
    assert (Zdigits2 (Z.pos mb) - 1 + (eb + 149) < Zdigits2 (Z.pos ma) + (ea + 149))
      by (apply pow2_lt_inv; lia).
    lia. }
  assert (He : ea = eb) by (rewrite Hca, Hcb, Hexp; reflexivity).
  subst eb. split; [| reflexivity].
  pose proof (pow2_gt_0 (ea + 149) ltac:(lia)) as Hp.
  assert (Z.pos ma = Z.pos mb) by nia. congruence.
Qed.

(** A positive number divided by itself is 1. *)
Lemma f32_div_self (m : positive) (e : Z) :
  f32_div (S754_finite false m e) (S754_finite false m e) = float32_1_0.
Proof.
  unfold f32_div, SFdiv. cbn [xorb]. unfold SFdiv_core_binary.
  rewrite Z.sub_diag. rewrite Z.sub_diag.
  change (Z.min (fexp 24 128 0) 0) with (-24).
  change (0 - -24) with 24.
  rewrite Z.shiftl_mul_pow2 by lia.
  assert (Hdiv : Z.div_eucl (Z.pos m * 2 ^ 24) (Z.pos m) = (2 ^ 24, 0)).
  { pose proof (Z_div_mod (Z.pos m * 2 ^ 24) (Z.pos m) ltac:(lia)) as Hdm.
    destruct (Z.div_eucl (Z.pos m * 2 ^ 24) (Z.pos m)) as [q r].
    assert (q = 2 ^ 24) by nia. assert (r = 0) by nia. congruence. }
  rewrite Hdiv.
  assert (Hloc : new_location (Z.pos m) 0 = loc_Exact).
  { unfold new_location, new_location_even, new_location_odd.
    destruct (Z.even (Z.pos m)); reflexivity. }
  rewrite Hloc. vm_compute. reflexivity.
Qed.

(** Two steps of integer arithmetic. *)
Lemma scaled_abs_le (z x p : Z) :
  0 < z -> - (2 * p) <= x <= p -> Z.abs (z * x) <= 2 * (p * z).
Proof.
  intros Hz Hx. rewrite Z.abs_mul, (Z.abs_eq z) by lia.
  assert (Ha : Z.abs x <= 2 * p) by lia.
  assert (z * Z.abs x <= z * (2 * p)) by (apply Z.mul_le_mono_nonneg_l; lia).
  lia.
Qed.

Lemma quotient_below (b q a v : Z) :
  0 < b -> b * q <= a -> a < b * v -> q < v.
Proof. intros Hb Hq Ha. apply (Z.mul_lt_mono_pos_l b); lia. Qed.

(** A positive number divided by a greater one: the quotient is a number
    between 0 and 1, within a relative distance of 2^-21 of the exact
    quotient, or within two units of it where it underflows. *)
Lemma f32_div_below (ma mb : positive) (ea eb : Z) :
  valid_binary 24 128 (S754_finite false ma ea) = true ->
  valid_binary 24 128 (S754_finite false mb eb) = true ->
  Z.pos ma * 2 ^ (ea + 149) < Z.pos mb * 2 ^ (eb + 149) ->
  exists uq : Z,
    f32_finite (f32_div (S754_finite false ma ea) (S754_finite false mb eb)) = true
    /\ in_range (f32_div (S754_finite false ma ea) (S754_finite false mb eb))
    /\ f32_units (f32_div (S754_finite false ma ea) (S754_finite false mb eb)) = uq
    /\ 0 <= uq <= 2 ^ 149
    /\ 2 ^ 21 * Z.abs (uq * (Z.pos mb * 2 ^ (eb + 149))
                       - Z.pos ma * 2 ^ (ea + 149) * 2 ^ 149)
       <= Z.pos ma * 2 ^ (ea + 149) * 2 ^ 149
          + 2 ^ 22 * (Z.pos mb * 2 ^ (eb + 149)).
Proof.
  intros Hva Hvb Hlt.
  destruct (f32_mantissa_bounds _ _ _ Hva) as (Hda & Hma & Hea & _).
  destruct (f32_mantissa_bounds _ _ _ Hvb) as (Hdb & Hmb & Heb & _).
  pose proof (f32_units_bounds ma ea ltac:(lia)) as Hua.
  pose proof (f32_units_bounds mb eb ltac:(lia)) as Hub.
  unfold f32_div, SFdiv. cbn [xorb].
  destruct (SFdiv_core_f32 ma mb ea eb) as (q & l & -> & Hq0 & Hq).
  set (da := Zdigits2 (Z.pos ma)) in *. set (db := Zdigits2 (Z.pos mb)) in *.
  set (k := da + ea - (db + eb)) in *.
  set (e' := Z.min (fexp 24 128 k) (ea - eb)) in *.
  destruct (binary_round_aux_f32 false q e' l Hq0)
    as (m3 & e3 & -> & Hm3 & He3 & HM3 & Hm1 & He1).
  set (e1 := Z.max e' (fexp 24 128 (Zdigits2 q + e'))) in *.
  set (m1 := q / 2 ^ (e1 - e')) in *.
  set (ua := Z.pos ma * 2 ^ (ea + 149)) in *.
  set (ub := Z.pos mb * 2 ^ (eb + 149)) in *.
  (* the exponents *)
  assert (Hk : k <= 0).
  { assert (da - 1 + (ea + 149) < db + (eb + 149)) by (apply pow2_lt_inv; lia).
    subst k. lia. }
  assert (He' : e' <= Z.max (k - 24) (-149) /\ e' <= ea - eb
                /\ 0 <= e' + eb + 298 /\ e' <= e1).
  { subst e' e1. unfold fexp, emin. lia. }
  set (s := ea - eb - e') in *.
  assert (Hs : 0 <= s) by (subst s; lia).
  assert (Hpa : 0 < 2 ^ s) by (apply pow2_gt_0; exact Hs).
  assert (Hfq : fexp 24 128 (Zdigits2 q + e') <= Z.max (k - 23) (-149)).
  { destruct (Z.eq_dec q 0) as [->|Hqne].
    - cbn [Zdigits2]. unfold fexp, emin. lia.
    - destruct (Zdigits2_bounds q ltac:(lia)) as [Hdq Hqb].
      assert (Zdigits2 q + e' <= k + 1); [| unfold fexp, emin; lia].
      assert (Hlow : 2 ^ (db - 1) * 2 ^ (Zdigits2 q - 1) <= Z.pos mb * q) by nia.
      assert (Hhigh : Z.pos ma * 2 ^ s < 2 ^ da * 2 ^ s) by nia.
      rewrite <- pow2_add in Hlow by lia. rewrite <- pow2_add in Hhigh by lia.
      assert (db - 1 + (Zdigits2 q - 1) < da + s) by (apply pow2_lt_inv; lia).
      subst k s. lia. }
  assert (He1b : -149 <= e1 <= -23 /\ e1 <= Z.max (k - 23) (-149)).
  { subst e1. lia. }
  (* the integers the proof computes with *)
  set (N := 2 ^ (e1 - e')) in *.
  assert (HN : 0 < N) by (subst N; apply pow2_gt_0; lia).
  set (W := 2 ^ (e1 + 149)).
  assert (HW : 0 < W) by (subst W; apply pow2_gt_0; lia).
  set (Z0 := 2 ^ (e' + eb + 298)).
  assert (HZ0 : 0 < Z0) by (subst Z0; apply pow2_gt_0; lia).
  set (M3 := m3 * 2 ^ (e3 - e1)) in *.
  assert (Huq : m3 * 2 ^ (e3 + 149) = M3 * W).
  { subst M3 W. rewrite <- Z.mul_assoc, <- pow2_add by lia.
    f_equal. f_equal. lia. }
  assert (HA : ua * 2 ^ 149 = Z.pos ma * 2 ^ s * Z0).
  { subst ua Z0. rewrite <- !Z.mul_assoc, <- !pow2_add by lia.
    f_equal. f_equal. subst s. lia. }
  assert (HB : ub * W = Z.pos mb * N * Z0).
  { subst ub W N Z0. rewrite <- !Z.mul_assoc, <- !pow2_add by lia.
    f_equal. f_equal. lia. }
  assert (Hm1q : N * m1 <= q < N * (m1 + 1)).
  { subst m1. pose proof (Z.mul_div_le q N HN).
    pose proof (Z.mul_succ_div_gt q N HN). lia. }
  set (A := Z.pos ma * 2 ^ s) in *. set (B := Z.pos mb) in *.
  assert (HBpos : 0 < B) by (subst B; lia).
  assert (Hdiff : - (2 * (B * N)) <= M3 * (B * N) - A <= B * N).
  { assert (F1 : B * (N * m1) <= B * q)
      by (apply Z.mul_le_mono_nonneg_l; lia).
    assert (F2 : B * (q + 1) <= B * (N * (m1 + 1)))
      by (apply Z.mul_le_mono_nonneg_l; lia).
    assert (HBN : 0 < B * N) by (apply Z.mul_pos_pos; assumption).
    assert (F3 : M3 * (B * N) <= (m1 + 1) * (B * N))
      by (apply Z.mul_le_mono_nonneg_r; lia).
    assert (F4 : (m1 - 1) * (B * N) <= M3 * (B * N))
      by (apply Z.mul_le_mono_nonneg_r; lia).
    lia. }
  assert (HD : M3 * W * ub - ua * 2 ^ 149 = Z0 * (M3 * (B * N) - A)).
  { rewrite HA. replace (M3 * W * ub) with (M3 * (ub * W)) by ring.
    rewrite HB. ring. }
  assert (HDabs : Z.abs (M3 * W * ub - ua * 2 ^ 149) <= 2 * (ub * W)).
  { rewrite HD, HB. fold B. apply scaled_abs_le; assumption. }
  (* the quotient is at most 1 *)
  assert (HqV : q < N * 2 ^ (- e1)).
  { assert (Hsplit : N * 2 ^ (- e1) = 2 ^ (- e')).
    { subst N. rewrite <- pow2_add by lia. f_equal. lia. }
    rewrite Hsplit.
    assert (HubZ : ub * 2 ^ 149 = B * 2 ^ (- e') * Z0).
    { subst ub Z0 B. rewrite <- !Z.mul_assoc, <- !pow2_add by lia.
      f_equal. f_equal. lia. }
    assert (HAZ : A * Z0 < B * 2 ^ (- e') * Z0).
    { rewrite <- HA, <- HubZ. pose proof (pow2_gt_0 149 ltac:(lia)).
      apply Z.mul_lt_mono_pos_r; assumption. }
    apply Z.mul_lt_mono_pos_r in HAZ; [| exact HZ0].
    apply (quotient_below B q A); [exact HBpos | lia | exact HAZ]. }
  assert (Hm1V : m1 + 1 <= 2 ^ (- e1)).
  { assert (m1 < 2 ^ (- e1));
      [apply (quotient_below N m1 q); [exact HN | lia | exact HqV] | lia]. }
  assert (HWV : 2 ^ (- e1) * W = 2 ^ 149).
  { subst W. rewrite <- pow2_add by lia. f_equal. lia. }
  assert (HM3pos : 0 <= M3).
  { subst M3. apply Z.mul_nonneg_nonneg; [exact Hm3 |].
    pose proof (pow2_gt_0 (e3 - e1) ltac:(lia)). lia. }
  assert (Hunit : 0 <= M3 * W <= 2 ^ 149).
  { rewrite <- HWV. split.
    - apply Z.mul_nonneg_nonneg; lia.
    - apply Z.mul_le_mono_nonneg_r; lia. }
  (* the error of the quotient *)
  assert (Herr : 2 ^ 21 * Z.abs (M3 * W * ub - ua * 2 ^ 149)
                 <= ua * 2 ^ 149 + 2 ^ 22 * ub).
  { assert (Hua0 : 0 < ua).
    { subst ua. apply Z.mul_pos_pos; [lia | apply pow2_gt_0; lia]. }
    assert (Hub0 : 0 < ub) by lia.
    clear HD HA HB Hdiff Huq Hq Hm1q HqV Hm1V HWV Hunit.
    change (2 ^ 149) with 713623846352979940529142984724747568191373312 in *.
    change (2 ^ 21) with 2097152. change (2 ^ 22) with 4194304.
    destruct (Z.eq_dec e1 (-149)) as [Hsub|Hnorm].
    - assert (HW1 : W = 1) by (subst W; rewrite Hsub; reflexivity).
      rewrite HW1, Z.mul_1_r in HDabs. lia.
    - assert (He1k : e1 <= k - 23) by lia.
      assert (Hbig : 4194304 * (ub * W)
                     <= ua * 713623846352979940529142984724747568191373312).
      { assert (H1 : ub * W < 2 ^ (db + (eb + 149)) * W)
          by (apply Z.mul_lt_mono_pos_r; lia).
        unfold W in H1 at 2. rewrite <- pow2_add in H1 by lia.
        assert (H2 : 2 ^ 22 * 2 ^ (db + (eb + 149) + (e1 + 149))
                     <= 2 ^ (da - 1 + (ea + 149)) * 2 ^ 149).
        { rewrite <- !pow2_add by lia. apply pow2_le. subst k. lia. }
        change (2 ^ 149) with 713623846352979940529142984724747568191373312 in H2.
        change (2 ^ 22) with 4194304 in H2.
        lia. }
      lia. }
  exists (M3 * W).
  assert (Hfin : (e3 <=? 104) = true) by (apply Z.leb_le; lia).
  destruct m3 as [|p|p]; [| | lia].
  - split; [reflexivity |]. split; [exact I |].
    split; [| split; [exact Hunit | exact Herr]].
    cbn [f32_units]. subst M3. lia.
  - rewrite Hfin. split; [reflexivity |]. split; [cbn [in_range]; lia |].
    split; [| split; [exact Hunit | exact Herr]].
    cbn [f32_units cond_Zopp]. exact Huq.
Qed.

(** A number of [0, 1] divided by a number that is no smaller, and at
    least 1. *)
Lemma f32_div_unit (a b : float32) :
  f32_number a -> f32_number b ->
  0 <= f32_units a <= f32_units b -> 2 ^ 149 <= f32_units b ->
  f32_finite (f32_div a b) = true
  /\ in_range (f32_div a b)
  /\ 0 <= f32_units (f32_div a b) <= 2 ^ 149
  /\ 2 ^ 21 * Z.abs (f32_units (f32_div a b) * f32_units b
                     - f32_units a * 2 ^ 149)
     <= f32_units a * 2 ^ 149 + 2 ^ 22 * f32_units b.
Proof.
  intros [Hfa Hva] [Hfb Hvb] Hab Hb1.
  pose proof (pow2_gt_0 149 ltac:(lia)) as HU.
  destruct b as [sb | sb | | sb mb eb]; try discriminate Hfb;
    [cbn [f32_units] in Hb1; lia |].
  destruct (f32_mantissa_bounds _ _ _ Hvb) as (_ & _ & Heb & _).
  destruct (f32_units_sign sb mb eb ltac:(lia)) as [Hnb _].
  destruct sb; [specialize (Hnb eq_refl); lia | clear Hnb].
  destruct a as [sa | sa | | sa ma ea]; try discriminate Hfa.
  - cbn [f32_div SFdiv f32_finite in_range f32_units] in *.
    unfold f32_div. cbn [SFdiv f32_finite in_range f32_units].
    rewrite Z.mul_0_l, Z.sub_0_r. cbn [Z.abs].
    split; [reflexivity |]. split; [exact I |]. lia.
  - destruct (f32_mantissa_bounds _ _ _ Hva) as (_ & _ & Hea & _).
    destruct (f32_units_sign sa ma ea ltac:(lia)) as [Hna _].
    destruct sa; [specialize (Hna eq_refl); lia | clear Hna].
    cbn [f32_units cond_Zopp] in Hab, Hb1 |- *.
    destruct (Z.eq_dec (Z.pos ma * 2 ^ (ea + 149)) (Z.pos mb * 2 ^ (eb + 149)))
      as [Heq|Hne].
    + destruct (f32_positive_unique ma mb ea eb Hva Hvb Heq) as [-> ->].
      rewrite f32_div_self.
      assert (Hone : f32_units float32_1_0 = 2 ^ 149) by reflexivity.
      rewrite Hone. split; [reflexivity |]. split; [cbn [in_range float32_1_0]; lia |].
      split; [lia |].
      replace (2 ^ 149 * (Z.pos mb * 2 ^ (eb + 149))
               - Z.pos mb * 2 ^ (eb + 149) * 2 ^ 149) with 0 by ring.
      cbn [Z.abs]. lia.
    + destruct (f32_div_below ma mb ea eb Hva Hvb ltac:(lia))
        as (uq & Hfin & Hrange & -> & Hunit & Herr).
      auto.
Qed.

(** An integer of at most 32 bits becomes a float32 number. *)
Lemma f32_of_int_finite (z : Z) :
  - 2 ^ 31 <= z < 2 ^ 31 ->
  f32_finite (f32_of_int z) = true /\ in_range (f32_of_int z).
Proof.
  intros Hz. unfold f32_of_int.
  assert (Hround : forall (s : bool) (p : positive),
             Z.pos p < 2 ^ 32 ->
             f32_finite (binary_round 24 128 s p 0) = true
             /\ in_range (binary_round 24 128 s p 0)).
  { intros s p Hp. unfold binary_round.
    destruct (Zdigits2_bounds (Z.pos p) ltac:(lia)) as [Hd Hb].
    assert (Hd32 : Zdigits2 (Z.pos p) <= 32) by (apply Zdigits2_le; lia).
    cbn [Zdigits2] in Hd, Hb, Hd32.
    set (d := Z.pos (digits2_pos p)) in *.
    assert (Hshl : exists mz ez,
               shl_align p 0 (fexp 24 128 (d + 0)) = (mz, ez)
               /\ ez <= 0 /\ Z.pos mz = Z.pos p * 2 ^ (- ez)).
    { unfold shl_align. destruct (fexp 24 128 (d + 0) - 0) as [|t|t] eqn:Ht.
      - exists p, 0. split; [reflexivity |]. split; [lia |]. cbn. lia.
      - exists p, 0. split; [reflexivity |]. split; [lia |]. cbn. lia.
      - exists (Pos.iter xO p t), (fexp 24 128 (d + 0)).
        split; [reflexivity |]. split; [lia |].
        rewrite iter_xO_pow2. f_equal. f_equal. lia. }
    destruct Hshl as (mz & ez & -> & Hez & Hmz).
    destruct (binary_round_aux_f32 s (Z.pos mz) ez loc_Exact ltac:(lia))
      as (m3 & e3 & -> & Hm3 & He3 & _ & _ & He1).
    assert (Hdz : Zdigits2 (Z.pos mz) <= 32 - ez).
    { apply Zdigits2_le; [| lia]. rewrite Hmz.
      replace (32 - ez) with (32 + - ez) by lia.
      rewrite (pow2_add 32 (- ez)) by lia.
      pose proof (pow2_gt_0 (- ez) ltac:(lia)). nia. }
    assert (He3b : -149 <= e3 <= 104).
    { unfold fexp, emin in He3, He1. lia. }
    destruct m3 as [|q|q]; [split; [reflexivity | exact I] | | lia].
    destruct (Z.leb_spec e3 104) as [_|Hbig]; [| lia].
    split; [reflexivity |]. cbn [in_range]. lia. }
  destruct z as [|p|p]; cbn [binary_normalize].
  - split; [reflexivity | exact I].
  - apply Hround. lia.
  - apply Hround. change (2 ^ 32) with (2 * 2 ^ 31). lia.
Qed.

Lemma astype_float32_finite (scores : NpVector) :
  finite_vector scores ->
  Forall (fun x => f32_finite x = true /\ in_range x) (astype_float32 scores).
Proof.
  destruct scores as [xs|zs]; cbn [finite_vector astype_float32]; intros Hall.
  - eapply Forall_impl; [exact Hall |].
    intros x Hx. split; [apply Hx | apply f32_number_in_range; exact Hx].
  - apply Forall_fmap. eapply Forall_impl; [exact Hall |].
    intros z Hz. apply f32_of_int_finite. exact Hz.
Qed.

(** ** The sum of the quotients *)

(** The errors of the quotients add up. *)
Lemma div_sum_error (total : float32) (es : list float32) :
  Forall (fun e =>
            0 <= f32_units (f32_div e total) <= 2 ^ 149
            /\ 2 ^ 21 * Z.abs (f32_units (f32_div e total) * f32_units total
                               - f32_units e * 2 ^ 149)
               <= f32_units e * 2 ^ 149 + 2 ^ 22 * f32_units total) es ->
  2 ^ 21 * Z.abs (foldr Z.add 0 (f32_units <$> ((fun e => f32_div e total) <$> es))
                    * f32_units total
                  - foldr Z.add 0 (f32_units <$> es) * 2 ^ 149)
  <= foldr Z.add 0 (f32_units <$> es) * 2 ^ 149
     + Z.of_nat (length es) * (2 ^ 22 * f32_units total).
Proof.
  change (2 ^ 149) with 713623846352979940529142984724747568191373312.
  change (2 ^ 21) with 2097152. change (2 ^ 22) with 4194304.
  induction 1 as [|e es [_ He] _ IH].
  - cbn. lia.
  - cbn [fmap list_fmap foldr length] in *.
    set (Q := foldr Z.add 0 (f32_units <$> ((fun e => f32_div e total) <$> es))) in *.
    set (E := foldr Z.add 0 (f32_units <$> es)) in *.
    set (T := f32_units total) in *.
    set (uq := f32_units (f32_div e total)) in *.
    rewrite Nat2Z.inj_succ.
    replace ((uq + Q) * T) with (uq * T + Q * T) by ring.
    replace (Z.succ (Z.of_nat (length es)) * (4194304 * T))
      with (4194304 * T + Z.of_nat (length es) * (4194304 * T)) by ring.
    lia.
Qed.

(** From the errors of the quotients and of the sum to the distance of the
    total from 1. *)
Lemma softmax_sum_bound (T E Q n : Z) :
  2 ^ 149 <= T -> 0 <= E ->
  131071 * E <= 131072 * T <= 131073 * E ->
  0 <= n < 2 ^ 31 ->
  2 ^ 21 * Z.abs (Q * T - E * 2 ^ 149) <= E * 2 ^ 149 + n * (2 ^ 22 * T) ->
  99999 * 2 ^ 149 <= 100000 * Q <= 100001 * 2 ^ 149.
Proof.
  change (2 ^ 149) with 713623846352979940529142984724747568191373312.
  change (2 ^ 21) with 2097152. change (2 ^ 22) with 4194304.
  change (2 ^ 31) with 2147483648.
  intros HT HE Hsum Hn Herr.
  assert (HY : 0 <= n * T <= 2147483648 * T).
  { split; [apply Z.mul_nonneg_nonneg; lia |].
    apply Z.mul_le_mono_nonneg_r; lia. }
  replace (n * (4194304 * T)) with (4194304 * (n * T)) in Herr by ring.
  set (X := Q * T) in *. set (Y := n * T) in *.
  assert (Hup : 100000 * X <= 100001 * 713623846352979940529142984724747568191373312 * T)
    by lia.
  assert (Hlow : 99999 * 713623846352979940529142984724747568191373312 * T <= 100000 * X)
    by lia.
  subst X. split.
  - apply (Z.mul_le_mono_pos_r _ _ T); [lia |]. lia.
  - apply (Z.mul_le_mono_pos_r _ _ T); [lia |]. lia.
Qed.

Lemma sum_contract_units (E T : Z) :
  ((1 - (1 # 131072)) * (E # unit_scale) <= T # unit_scale)%Q ->
  (T # unit_scale <= (1 + (1 # 131072)) * (E # unit_scale))%Q ->
  131071 * E <= 131072 * T <= 131073 * E.
Proof.
  unfold Qle, Qmult, Qminus, Qplus, Qopp. cbn [Qnum Qden].
  rewrite !Pos2Z.inj_mul.
  pose proof (Pos2Z.is_pos unit_scale) as HS.
  set (scale := Z.pos unit_scale) in *.
  intros Hlo Hhi. split.
  - apply (Z.mul_le_mono_pos_r _ _ scale); [exact HS |]. lia.
  - apply (Z.mul_le_mono_pos_r _ _ scale); [exact HS |]. lia.
Qed.

Lemma unit_total_Q (total : Z) :
  99999 * 2 ^ 149 <= 100000 * total <= 100001 * 2 ^ 149 ->
  (1 - (1 # 100000) <= total # unit_scale <= 1 + (1 # 100000))%Q.
Proof.
  rewrite <- unit_scale_Z.
  unfold Qle, Qmult, Qminus, Qplus, Qopp. cbn [Qnum Qden].
  rewrite !Pos2Z.inj_mul.
  set (scale := Z.pos unit_scale) in *. lia.
Qed.

Lemma sum_units_nonneg (xs : list float32) :
  Forall (fun x => 0 <= f32_units x) xs -> 0 <= foldr Z.add 0 (f32_units <$> xs).
Proof.
  induction 1 as [|x xs Hx _ IH]; cbn [fmap list_fmap foldr]; lia.
Qed.

(** The normalisation on the float32 vector [astype] yields. *)
Lemma softmax_on_floats `{Numpy32} (xs : list float32) :
  Forall (fun x => f32_finite x = true /\ in_range x) xs ->
  xs <> [] ->
  len xs < 2 ^ 31 ->
  softmax_numpy_contract xs ->
  exists max_score : float32,
    np_max xs = Ok max_score
    /\ Forall (fun p => f32_finite p = true /\ (0 <= f32_value p <= 1)%Q)
         ((fun e => f32_div e
                      (np_sum (np_exp <$> ((fun x => f32_sub x max_score) <$> xs))))
            <$> (np_exp <$> ((fun x => f32_sub x max_score) <$> xs)))
    /\ (1 - (1 # 100000)
        <= sum_Q (f32_value
                    <$> ((fun e => f32_div e
                                     (np_sum (np_exp <$> ((fun x => f32_sub x max_score)
                                                            <$> xs))))
                           <$> (np_exp <$> ((fun x => f32_sub x max_score) <$> xs))))
        <= 1 + (1 # 100000))%Q.
Proof.
  intros Hxs Hne Hlen [Hmax Hrest].
  rewrite Forall_forall in Hxs.
  assert (Hmax' : exists m, np_max xs = Ok m /\ m ∈ xs
                            /\ Forall (fun x => (f32_value x <= f32_value m)%Q) xs).
  { destruct xs as [|x0 xs']; [congruence | exact Hmax]. }
  clear Hmax. destruct Hmax' as (m & Hm & Hin & Hle).
  destruct (Hrest m Hm) as [Hexp Hsum]. clear Hrest.
  exists m. split; [exact Hm |].
  rewrite Forall_forall in Hle, Hexp.
  destruct (Hxs m Hin) as [Hfm Hrm].
  set (es := np_exp <$> ((fun x => f32_sub x m) <$> xs)) in *.
  set (total := np_sum es) in *.
  (* the exponentials *)
  assert (Hes : forall e, e ∈ es -> f32_number e /\ (0 <= f32_value e <= 1)%Q).
  { intros e He. subst es.
    apply list_elem_of_fmap in He as (d & -> & Hd).
    apply list_elem_of_fmap in Hd as (x & -> & Hx).
    destruct (Hxs x Hx) as [Hfx Hrx].
    destruct (Hexp x Hx) as (Hnum & Hval & _).
    { apply f32_sub_nonpositive; try assumption.
      apply f32_value_le; [assumption | assumption |]. exact (Hle x Hx). }
    split; assumption. }
  assert (Hone : float32_1_0 ∈ es).
  { destruct (f32_sub_self m Hfm) as [s Hs].
    destruct (Hexp m Hin) as (_ & _ & Hzero).
    { rewrite Hs. reflexivity. }
    rewrite <- (Hzero s Hs). subst es.
    apply list_elem_of_fmap. exists (f32_sub m m). split; [reflexivity |].
    apply list_elem_of_fmap. exists m. split; [reflexivity | exact Hin]. }
  (* the sum *)
  destruct Hsum as (Htot & Hge & Hlo & Hhi).
  { apply Forall_forall. exact Hes. }
  rewrite Forall_forall in Hge.
  pose proof (f32_number_in_range total Htot) as Hrt.
  assert (Her : Forall in_range es).
  { apply Forall_forall. intros e He. apply f32_number_in_range. apply Hes. exact He. }
  assert (HT : 2 ^ 149 <= f32_units total).
  { change (2 ^ 149) with (f32_units float32_1_0).
    apply f32_value_le; [cbn; lia | exact Hrt |]. apply Hge. exact Hone. }
  (* the quotients *)
  assert (Hq : forall e, e ∈ es ->
             f32_finite (f32_div e total) = true
             /\ in_range (f32_div e total)
             /\ 0 <= f32_units (f32_div e total) <= 2 ^ 149
             /\ 2 ^ 21 * Z.abs (f32_units (f32_div e total) * f32_units total
                                - f32_units e * 2 ^ 149)
                <= f32_units e * 2 ^ 149 + 2 ^ 22 * f32_units total).
  { intros e He. destruct (Hes e He) as [Hnum Hval].
    pose proof (f32_number_in_range e Hnum) as Hre.
    apply f32_div_unit; [exact Hnum | exact Htot | | exact HT].
    split.
    - apply (f32_value_unit_interval e Hre). exact Hval.
    - apply f32_value_le; [exact Hre | exact Hrt |]. apply Hge. exact He. }
  split.
  - apply Forall_fmap, Forall_forall. intros e He. cbn.
    destruct (Hq e He) as (Hfin & Hrange & Hunit & _).
    split; [exact Hfin |].
    apply (f32_value_unit_interval _ Hrange). exact Hunit.
  - assert (Hpr : Forall in_range ((fun e => f32_div e total) <$> es)).
    { apply Forall_fmap, Forall_forall. intros e He. cbn. apply Hq. exact He. }
    rewrite (sum_Q_units _ Hpr).
    rewrite (sum_Q_units es Her) in Hlo, Hhi.
    rewrite (f32_value_units total Hrt) in Hlo, Hhi.
    apply unit_total_Q.
    apply (softmax_sum_bound (f32_units total)
             (foldr Z.add 0 (f32_units <$> es)) _ (Z.of_nat (length es))).
    + exact HT.
    + apply sum_units_nonneg, Forall_forall. intros e He.
      destruct (Hes e He) as [Hnum Hval].
      apply (f32_value_unit_interval e (f32_number_in_range e Hnum)). exact Hval.
    + apply sum_contract_units; assumption.
    + split; [lia |]. subst es. rewrite !length_fmap. exact Hlen.
    + apply div_sum_error, Forall_forall. intros e He.
      destruct (Hq e He) as (_ & _ & Hunit & Herr). split; assumption.
Qed.

(** Claim C5. On a finite score vector that is not empty and has fewer
    than 2^31 entries, with numpy keeping its contract, [_softmax] returns
    a vector. Each entry is the exponential of the score less the maximum
    score, divided by the sum of these exponentials; each is a float32
    number between 0 and 1; and the entries add up to 1 within 1e-5. The
    scores range over all float32 numbers and over the integers of the
    quantised dtypes: a score less the maximum is never positive, so no
    exponential overflows, whatever the size of the scores. *)
Theorem softmax_distribution `{Numpy32} (scores : NpVector) :
  finite_vector scores ->
  astype_float32 scores <> [] ->
  len (astype_float32 scores) < 2 ^ 31 ->
  softmax_numpy_contract (astype_float32 scores) ->
  exists (max_score : float32) (probs : list float32),
    np_max (astype_float32 scores) = Ok max_score
    /\ _softmax scores = Ok probs
    /\ probs
       = (fun x =>
            f32_div (np_exp (f32_sub x max_score))
              (np_sum ((fun y => np_exp (f32_sub y max_score))
                         <$> astype_float32 scores)))
           <$> astype_float32 scores
    /\ Forall (fun p => f32_finite p = true /\ (0 <= f32_value p <= 1)%Q) probs
    /\ (1 - (1 # 100000) <= sum_Q (f32_value <$> probs) <= 1 + (1 # 100000))%Q.
Proof.
  intros Hfinite Hne Hlen Hcontract.
  destruct (softmax_on_floats (astype_float32 scores)
              (astype_float32_finite scores Hfinite) Hne Hlen Hcontract)
    as (m & Hm & Hrange & Hsum).
  exists m. eexists. split; [exact Hm |].
  split.
  { unfold _softmax. cbv zeta. rewrite Hm. cbn [mbind result_bind]. reflexivity. }
  split.
  { rewrite <- !list_fmap_compose. reflexivity. }
  split; [exact Hrange | exact Hsum].
Qed.

(** The scores 1, 2 and 3, as float32 numbers. *)
Lemma softmax_distribution_1_2_3 :
  exists (max_score : float32) (probs : list float32),
    @np_max series_numpy
      (astype_float32
         (Float32Vector [S754_finite false 8388608 (-23);
                         S754_finite false 8388608 (-22);
                         S754_finite false 12582912 (-22)])) = Ok max_score
    /\ @_softmax series_numpy
         (Float32Vector [S754_finite false 8388608 (-23);
                         S754_finite false 8388608 (-22);
                         S754_finite false 12582912 (-22)]) = Ok probs
    /\ probs
       = (fun x =>
            f32_div (@np_exp series_numpy (f32_sub x max_score))
              (@np_sum series_numpy
                 ((fun y => @np_exp series_numpy (f32_sub y max_score))
                    <$> astype_float32
                          (Float32Vector [S754_finite false 8388608 (-23);
                                          S754_finite false 8388608 (-22);
                                          S754_finite false 12582912 (-22)]))))
           <$> astype_float32
                 (Float32Vector [S754_finite false 8388608 (-23);
                                 S754_finite false 8388608 (-22);
                                 S754_finite false 12582912 (-22)])
    /\ Forall (fun p => f32_finite p = true /\ (0 <= f32_value p <= 1)%Q) probs
    /\ (1 - (1 # 100000) <= sum_Q (f32_value <$> probs) <= 1 + (1 # 100000))%Q.
Proof.
  apply (@softmax_distribution series_numpy).
  - repeat (apply List.Forall_cons; [split; reflexivity |]). apply List.Forall_nil.
  - discriminate.
  - reflexivity.
  - split.
    + eexists. split; [vm_compute; reflexivity |].
      split; [right; right; left |].
      repeat (apply List.Forall_cons; [unfold Qle; vm_compute; discriminate |]).
      apply List.Forall_nil.
    + intros max_score Hmax. vm_compute in Hmax. injection Hmax as <-.
      split.
      * repeat (apply List.Forall_cons;
                [intros _;
                 split; [split; vm_compute; reflexivity |];
                 split; [split; unfold Qle; vm_compute; discriminate |];
                 intros s Hs; vm_compute in Hs;
                 first [discriminate Hs | vm_compute; reflexivity] |]).
        apply List.Forall_nil.
      * intros _. split; [split; vm_compute; reflexivity |].
        split.
        { repeat (apply List.Forall_cons; [unfold Qle; vm_compute; discriminate |]).
          apply List.Forall_nil. }
        split; unfold Qle; vm_compute; discriminate.
Defined.

(** The greatest and the least float32 number: the difference overflows to
    minus infinity, whose exponential is zero, and the result is 1 and 0. *)
Example softmax_extreme_scores :
  @_softmax series_numpy
    (Float32Vector [S754_finite false 16777215 104; S754_finite true 16777215 104])
  = Ok [float32_1_0; S754_zero false]
  /\ @_softmax series_numpy (IntVector [-128; 127])
     = @_softmax series_numpy
         (Float32Vector [S754_finite true 8388608 (-16); S754_finite false 16646144 (-17)])
  /\ exists msg, @_softmax series_numpy (Float32Vector []) = Raise (ValueError msg).
Proof.
  split; [vm_compute; reflexivity |]. split; [vm_compute; reflexivity |].
  eexists. vm_compute. reflexivity.
Qed.
